(** * The render-payload builder of the ticket editor

    A shallow embedding of [buildFinalRenderPayload] (the multi-series
    variant, the one the editor imports from
    [@/utils/buildFinalRenderPayload]) and of the JavaScript coercions it
    relies on, followed by the properties of the builder.

    Conventions of the embedding.
    - A JavaScript number is an IEEE-754 binary64 value: Rocq's primitive
      [float].  [Number.isFinite] is [is_finite]; [a > b] is [b <? a];
      [a >= b] is [b <=? a]; [a !== b] on numbers is [negb (a =? b)].
    - A JavaScript string is a [string] whose characters are the code units
      below 256.
    - The two conversions between strings and numbers ([StringToNumber] and
      [Number::toString] of ECMAScript) belong to the host, not to the
      repository: the development is parametric in them (class [Host]).
    - A [throw new Error(msg)] is the result [Throw msg]. *)

From Stdlib Require Import List String Ascii Bool ZArith Floats DecimalString.
Import ListNotations.

Local Open Scope string_scope.
Set Warnings "-register-all".

(** ** JavaScript values *)

Definition number : Set := float.

(** The values the untyped parameter bag can hold.  An object is given by
    its own enumerable properties; a property read returns the first
    binding of the key. *)
Inductive value : Type :=
| VUndefined
| VNull
| VBool (b : bool)
| VNumber (n : number)
| VString (s : string)
| VArray (elems : list value)
| VObject (props : list (string * value)).

(** The outcome of a call: a returned value or a thrown [Error] with its
    message. *)
Inductive result (A : Type) : Type :=
| Return (a : A)
| Throw (message : string).

Arguments Return {A} a.
Arguments Throw {A} message.

(** Comparison operators on numbers, as JavaScript writes them. *)
Definition gt (a b : number) : bool := PrimFloat.ltb b a.
Definition ge (a b : number) : bool := PrimFloat.leb b a.
Definition strict_neq (a b : number) : bool := negb (PrimFloat.eqb a b).

(** ** Strings *)

Module Str.

(** [!s] on a string. *)
Definition isEmpty (s : string) : bool :=
  match s with
  | EmptyString => true
  | String _ _ => false
  end.

(** White space and line terminators among the code units below 256:
    TAB, LF, VT, FF, CR, SP and NBSP. *)
Definition isWhiteSpace (c : ascii) : bool :=
  let n := nat_of_ascii c in
  ((9 <=? n) && (n <=? 13) || (n =? 32) || (n =? 160))%nat.

Fixpoint trimStart (s : string) : string :=
  match s with
  | EmptyString => EmptyString
  | String c rest => if isWhiteSpace c then trimStart rest else s
  end.

Fixpoint trimEnd (s : string) : string :=
  match s with
  | EmptyString => EmptyString
  | String c rest =>
      let rest' := trimEnd rest in
      if isWhiteSpace c && isEmpty rest' then EmptyString
      else String c rest'
  end.

(** [String.prototype.trim]. *)
Definition trim (s : string) : string := trimEnd (trimStart s).

Definition lowerChar (c : ascii) : ascii :=
  let n := nat_of_ascii c in
  if ((65 <=? n) && (n <=? 90)
      || (192 <=? n) && (n <=? 222) && negb (n =? 215))%nat
  then ascii_of_nat (n + 32)
  else c.

(** [String.prototype.toLowerCase]. *)
Fixpoint toLowerCase (s : string) : string :=
  match s with
  | EmptyString => EmptyString
  | String c rest => String (lowerChar c) (toLowerCase rest)
  end.

End Str.

(** ** The host's conversions *)

Class Host : Type := {
  (** ECMAScript [StringToNumber]. *)
  StringToNumber : string -> number;
  (** ECMAScript [Number::toString] in radix 10. *)
  NumberToString : number -> string
}.

(** ** The output type [FinalRenderPayload] *)

(** An object key that is left out, or present holding [undefined], or
    present holding a value. *)
Inductive slot (A : Type) : Type :=
| Omitted
| HoldsUndefined
| Holds (a : A).

Arguments Omitted {A}.
Arguments HoldsUndefined {A}.
Arguments Holds {A} a.

Module CustomFont.
Record t : Type := mk {
  family : string;
  data_url : string;
  mime : string
}.
End CustomFont.

Module RasterOverlay.
Record t : Type := mk {
  data_url : string;
  mime : string;
  x_mm : number;
  y_mm : number;
  w_mm : number;
  h_mm : number;
  rotation_deg : number
}.
End RasterOverlay.

Module VectorOverlay.
(** The entry tagged [type: 'svg']. *)
Record t : Type := mk {
  x_mm : number;
  y_mm : number;
  scale : number;
  rotation_deg : number;
  svg_s3_key : string
}.
End VectorOverlay.

Inductive overlay : Type :=
| Raster (o : RasterOverlay.t)
| Vector (o : VectorOverlay.t).

Module ObjectMm.
Record t : Type := mk {
  w : number;
  h : number;
  x_mm : option number;
  y_mm : option number;
  alignment : string;
  rotation_deg : number;
  keep_proportions : bool;
  cut_margin_mm : number
}.
End ObjectMm.

Module Series.
Record t : Type := mk {
  start : string;
  count : number;
  font_family : string;
  font_size_mm : number;
  per_letter_font_size_mm : slot (list number);
  anchor_space : string;
  x_mm : number;
  y_mm : number;
  letter_spacing_mm : number;
  rotation_deg : number;
  color : string;
  step : option number
}.
End Series.

Module FinalRenderPayload.
(** An optional key of the payload is [None] when the key is left out. *)
Record t : Type := mk {
  job_id : string;
  svg_s3_key : string;
  custom_fonts : option (list CustomFont.t);
  overlays : option (list overlay);
  object_mm : ObjectMm.t;
  series : option Series.t;
  series_list : option (list Series.t)
}.
End FinalRenderPayload.

(** Reading property [k] of an object given by its properties. *)
Fixpoint lookup (k : string) (props : list (string * value)) : value :=
  match props with
  | [] => VUndefined
  | (k', v) :: rest => if String.eqb k k' then v else lookup k rest
  end.

(** ** The parameter bag *)

Module Params.
(** Every field is read as an untyped value; a field the caller leaves
    out is [VUndefined]. *)
Record t : Type := mk {
  jobId : value;
  documentId : value;
  objectWidthMm : value;
  objectHeightMm : value;
  objectXMm : value;
  objectYMm : value;
  objectAlignment : value;
  objectRotationDeg : value;
  objectKeepProportions : value;
  objectCutMarginMm : value;
  seriesStart : value;
  seriesCount : value;
  seriesXMm : value;
  seriesYMm : value;
  seriesFontFamily : value;
  seriesFontSizeMm : value;
  perLetterFontSizeMm : value;
  seriesLetterSpacingMm : value;
  seriesRotationDeg : value;
  seriesColor : value;
  seriesStep : value;
  seriesList : value;
  customFonts : value;
  overlays : value;
  svgOverlays : value
}.

(** The bag a caller writes as an object literal: each field is the
    property of that name. *)
Definition ofObject (props : list (string * value)) : t :=
  {| jobId := lookup "jobId" props;
     documentId := lookup "documentId" props;
     objectWidthMm := lookup "objectWidthMm" props;
     objectHeightMm := lookup "objectHeightMm" props;
     objectXMm := lookup "objectXMm" props;
     objectYMm := lookup "objectYMm" props;
     objectAlignment := lookup "objectAlignment" props;
     objectRotationDeg := lookup "objectRotationDeg" props;
     objectKeepProportions := lookup "objectKeepProportions" props;
     objectCutMarginMm := lookup "objectCutMarginMm" props;
     seriesStart := lookup "seriesStart" props;
     seriesCount := lookup "seriesCount" props;
     seriesXMm := lookup "seriesXMm" props;
     seriesYMm := lookup "seriesYMm" props;
     seriesFontFamily := lookup "seriesFontFamily" props;
     seriesFontSizeMm := lookup "seriesFontSizeMm" props;
     perLetterFontSizeMm := lookup "perLetterFontSizeMm" props;
     seriesLetterSpacingMm := lookup "seriesLetterSpacingMm" props;
     seriesRotationDeg := lookup "seriesRotationDeg" props;
     seriesColor := lookup "seriesColor" props;
     seriesStep := lookup "seriesStep" props;
     seriesList := lookup "seriesList" props;
     customFonts := lookup "customFonts" props;
     overlays := lookup "overlays" props;
     svgOverlays := lookup "svgOverlays" props |}.

(** The fields by name. *)
Definition fields : list (string * (t -> value)) :=
  [ ("jobId", jobId);
    ("documentId", documentId);
    ("objectWidthMm", objectWidthMm);
    ("objectHeightMm", objectHeightMm);
    ("objectXMm", objectXMm);
    ("objectYMm", objectYMm);
    ("objectAlignment", objectAlignment);
    ("objectRotationDeg", objectRotationDeg);
    ("objectKeepProportions", objectKeepProportions);
    ("objectCutMarginMm", objectCutMarginMm);
    ("seriesStart", seriesStart);
    ("seriesCount", seriesCount);
    ("seriesXMm", seriesXMm);
    ("seriesYMm", seriesYMm);
    ("seriesFontFamily", seriesFontFamily);
    ("seriesFontSizeMm", seriesFontSizeMm);
    ("perLetterFontSizeMm", perLetterFontSizeMm);
    ("seriesLetterSpacingMm", seriesLetterSpacingMm);
    ("seriesRotationDeg", seriesRotationDeg);
    ("seriesColor", seriesColor);
    ("seriesStep", seriesStep);
    ("seriesList", seriesList);
    ("customFonts", customFonts);
    ("overlays", overlays);
    ("svgOverlays", svgOverlays) ].

(** [agreeExcept names p q]: the bags [p] and [q] hold the same value in
    every field whose name is not in [names]. *)
Definition agreeExcept (names : list string) (p q : t) : Prop :=
  forall n f, In (n, f) fields ->
    existsb (String.eqb n) names = false -> f p = f q.
End Params.

(** ** Coercions and the builder *)

Section Builder.

Context {host : Host}.

(** [String(v)].  An array is joined with commas, [undefined] and [null]
    elements giving the empty string; a plain object gives
    ["[object Object]"]. *)
Fixpoint ToString (v : value) : string :=
  match v with
  | VUndefined => "undefined"
  | VNull => "null"
  | VBool true => "true"
  | VBool false => "false"
  | VNumber n => NumberToString n
  | VString s => s
  | VArray elems =>
      (fix join (l : list value) : string :=
         match l with
         | [] => ""
         | x :: rest =>
             let sx := match x with
                       | VUndefined | VNull => ""
                       | _ => ToString x
                       end in
             match rest with
             | [] => sx
             | _ :: _ => sx ++ "," ++ join rest
             end
         end) elems
  | VObject _ => "[object Object]"
  end.

(** [Number(v)]. *)
Definition ToNumber (v : value) : number :=
  match v with
  | VUndefined => nan
  | VNull => zero
  | VBool true => one
  | VBool false => zero
  | VNumber n => n
  | VString s => StringToNumber s
  | VArray _ | VObject _ => StringToNumber (ToString v)
  end.

(** [Boolean(v)], the truthiness of a value. *)
Definition ToBoolean (v : value) : bool :=
  match v with
  | VUndefined | VNull => false
  | VBool b => b
  | VNumber n => negb (is_zero n || is_nan n)
  | VString s => negb (Str.isEmpty s)
  | VArray _ | VObject _ => true
  end.

(** [Array.isArray(v)], with the elements when it holds. *)
Definition asArray (v : value) : option (list value) :=
  match v with
  | VArray elems => Some elems
  | _ => None
  end.

(** [(s as any)?.k] for the keys the builder reads: [undefined] on
    [null] and [undefined], and on every value that is not an object with
    that property. *)
Definition get (s : value) (k : string) : value :=
  match s with
  | VObject props => lookup k props
  | _ => VUndefined
  end.

(** [String(v || '')]. *)
Definition StringOrEmpty (v : value) : string :=
  ToString (if ToBoolean v then v else VString "").

Definition toFiniteNumberOrNull (raw : value) : option number :=
  match raw with
  | VNull | VUndefined => None
  | _ => let n := ToNumber raw in
         if is_finite n then Some n else None
  end.

(** [arr.map((v) => Number(v)).filter((v) => Number.isFinite(v) && v > 0)]. *)
Definition finitePositive (arr : list value) : list number :=
  filter (fun v => is_finite v && gt v zero) (map ToNumber arr).

(** [Number.isFinite(n) && n !== 1 ? { step: n } : {}]. *)
Definition stepField (n : number) : option number :=
  if is_finite n && strict_neq n one then Some n else None.

(** *** The series list *)

(** The mapping callback of [params.seriesList.map]. *)
Definition mapSeries (s : value) : Series.t :=
  {| Series.start := StringOrEmpty (get s "start");
     Series.count := ToNumber (get s "count");
     Series.font_family := StringOrEmpty (get s "fontFamily");
     Series.font_size_mm := ToNumber (get s "fontSizeMm");
     Series.per_letter_font_size_mm :=
       match asArray (get s "perLetterFontSizeMm") with
       | Some arr => Holds (finitePositive arr)
       | None => HoldsUndefined
       end;
     Series.anchor_space := "object_mm";
     Series.x_mm := ToNumber (get s "xMm");
     Series.y_mm := ToNumber (get s "yMm");
     Series.letter_spacing_mm := ToNumber (get s "letterSpacingMm");
     Series.rotation_deg := ToNumber (get s "rotationDeg");
     Series.color := Str.trim (StringOrEmpty (get s "color"));
     Series.step := stepField (ToNumber (get s "step")) |}.

(** The predicate of the [filter] that follows. *)
Definition keepSeries (s : Series.t) : bool :=
  negb (Str.isEmpty (Series.start s)) &&
  is_finite (Series.count s) &&
  gt (Series.count s) zero &&
  negb (Str.isEmpty (Series.font_family s)) &&
  is_finite (Series.font_size_mm s) &&
  gt (Series.font_size_mm s) zero &&
  is_finite (Series.x_mm s) &&
  is_finite (Series.y_mm s) &&
  is_finite (Series.letter_spacing_mm s) &&
  is_finite (Series.rotation_deg s) &&
  negb (Str.isEmpty (Series.color s)).

(** [const series_list]: [None] stands for [null]. *)
Definition series_list (params : Params.t) : option (list Series.t) :=
  match asArray (Params.seriesList params) with
  | Some arr => Some (filter keepSeries (map mapSeries arr))
  | None => None
  end.

(** [Boolean(series_list && series_list.length)]. *)
Definition hasSeriesList (params : Params.t) : bool :=
  match series_list params with
  | Some (_ :: _) => true
  | _ => false
  end.

(** *** Fonts and overlays *)

Definition mapFont (f : value) : CustomFont.t :=
  {| CustomFont.family := StringOrEmpty (get f "family");
     CustomFont.data_url := StringOrEmpty (get f "dataUrl");
     CustomFont.mime := StringOrEmpty (get f "mime") |}.

Definition keepFont (f : CustomFont.t) : bool :=
  negb (Str.isEmpty (CustomFont.family f)) &&
  negb (Str.isEmpty (CustomFont.data_url f)).

(** [const custom_fonts]: [None] stands for [undefined]. *)
Definition custom_fonts (params : Params.t) : option (list CustomFont.t) :=
  match asArray (Params.customFonts params) with
  | Some arr => Some (filter keepFont (map mapFont arr))
  | None => None
  end.

Definition mapRaster (o : value) : RasterOverlay.t :=
  {| RasterOverlay.data_url := StringOrEmpty (get o "dataUrl");
     RasterOverlay.mime := StringOrEmpty (get o "mime");
     RasterOverlay.x_mm := ToNumber (get o "xMm");
     RasterOverlay.y_mm := ToNumber (get o "yMm");
     RasterOverlay.w_mm := ToNumber (get o "wMm");
     RasterOverlay.h_mm := ToNumber (get o "hMm");
     RasterOverlay.rotation_deg := ToNumber (get o "rotationDeg") |}.

Definition keepRaster (o : RasterOverlay.t) : bool :=
  negb (Str.isEmpty (RasterOverlay.data_url o)) &&
  is_finite (RasterOverlay.x_mm o) &&
  is_finite (RasterOverlay.y_mm o) &&
  is_finite (RasterOverlay.w_mm o) &&
  is_finite (RasterOverlay.h_mm o) &&
  gt (RasterOverlay.w_mm o) zero &&
  gt (RasterOverlay.h_mm o) zero &&
  is_finite (RasterOverlay.rotation_deg o).

(** [const imageOverlays]. *)
Definition imageOverlays (params : Params.t) : list RasterOverlay.t :=
  match asArray (Params.overlays params) with
  | Some arr => filter keepRaster (map mapRaster arr)
  | None => []
  end.

Definition mapVector (o : value) : VectorOverlay.t :=
  {| VectorOverlay.x_mm := ToNumber (get o "xMm");
     VectorOverlay.y_mm := ToNumber (get o "yMm");
     VectorOverlay.scale := ToNumber (get o "scale");
     VectorOverlay.rotation_deg := ToNumber (get o "rotationDeg");
     VectorOverlay.svg_s3_key := StringOrEmpty (get o "svgS3Key") |}.

Definition keepVector (o : VectorOverlay.t) : bool :=
  is_finite (VectorOverlay.x_mm o) &&
  is_finite (VectorOverlay.y_mm o) &&
  is_finite (VectorOverlay.scale o) &&
  gt (VectorOverlay.scale o) zero &&
  is_finite (VectorOverlay.rotation_deg o) &&
  negb (Str.isEmpty (VectorOverlay.svg_s3_key o)).

(** [const svgOverlays]. *)
Definition svgOverlays (params : Params.t) : list VectorOverlay.t :=
  match asArray (Params.svgOverlays params) with
  | Some arr => filter keepVector (map mapVector arr)
  | None => []
  end.

(** [const overlays = [...imageOverlays, ...svgOverlays]]. *)
Definition overlays (params : Params.t) : list overlay :=
  map Raster (imageOverlays params) ++ map Vector (svgOverlays params).

(** [...(arr && arr.length ? { key: arr } : {})]. *)
Definition nonEmpty {A : Type} (arr : option (list A)) : option (list A) :=
  match arr with
  | Some (_ :: _) => arr
  | _ => None
  end.

(** *** Identifiers and the object rectangle *)

Definition job_id (params : Params.t) : string :=
  Str.trim (StringOrEmpty (Params.jobId params)).

Definition documentId (params : Params.t) : string :=
  Str.trim (StringOrEmpty (Params.documentId params)).

Definition svg_s3_key (params : Params.t) : string :=
  "documents/raw/" ++ documentId params ++ ".svg".

Definition alignment (params : Params.t) : string :=
  let alignmentRaw :=
    Str.toLowerCase (Str.trim (StringOrEmpty (Params.objectAlignment params))) in
  if String.eqb alignmentRaw "left" || String.eqb alignmentRaw "right"
     || String.eqb alignmentRaw "center"
  then alignmentRaw else "center".

Definition rotation_deg (params : Params.t) : number :=
  let rotationDegRaw := ToNumber (Params.objectRotationDeg params) in
  if is_finite rotationDegRaw then rotationDegRaw else zero.

Definition keep_proportions (params : Params.t) : bool :=
  match Params.objectKeepProportions params with
  | VBool b => b
  | _ => false
  end.

Definition cut_margin_mm (params : Params.t) : number :=
  let cutMarginRaw := ToNumber (Params.objectCutMarginMm params) in
  if is_finite cutMarginRaw && ge cutMarginRaw zero then cutMarginRaw else zero.

Definition object_mm (params : Params.t) (w h : number) : ObjectMm.t :=
  {| ObjectMm.w := w;
     ObjectMm.h := h;
     ObjectMm.x_mm := toFiniteNumberOrNull (Params.objectXMm params);
     ObjectMm.y_mm := toFiniteNumberOrNull (Params.objectYMm params);
     ObjectMm.alignment := alignment params;
     ObjectMm.rotation_deg := rotation_deg params;
     ObjectMm.keep_proportions := keep_proportions params;
     ObjectMm.cut_margin_mm := cut_margin_mm params |}.

(** *** The flat single-series fields *)

Definition seriesStart (params : Params.t) : string :=
  StringOrEmpty (Params.seriesStart params).
Definition count (params : Params.t) : number :=
  ToNumber (Params.seriesCount params).
Definition xMm (params : Params.t) : option number :=
  toFiniteNumberOrNull (Params.seriesXMm params).
Definition yMm (params : Params.t) : option number :=
  toFiniteNumberOrNull (Params.seriesYMm params).
Definition font_family (params : Params.t) : string :=
  StringOrEmpty (Params.seriesFontFamily params).
Definition font_size_mm (params : Params.t) : number :=
  ToNumber (Params.seriesFontSizeMm params).
(** [None] stands for [null]. *)
Definition per_letter_font_size_mm (params : Params.t) : option (list number) :=
  match asArray (Params.perLetterFontSizeMm params) with
  | Some arr => Some (finitePositive arr)
  | None => None
  end.
Definition letter_spacing_mm (params : Params.t) : number :=
  ToNumber (Params.seriesLetterSpacingMm params).
Definition series_rotation_deg (params : Params.t) : number :=
  ToNumber (Params.seriesRotationDeg params).
Definition color (params : Params.t) : string :=
  Str.trim (StringOrEmpty (Params.seriesColor params)).
Definition step (params : Params.t) : number :=
  ToNumber (Params.seriesStep params).

(** The object literal of the singular [series]; [x] and [y] are the
    coordinates the [hasMm] guard found present. *)
Definition singleSeries (params : Params.t) (x y : number) : Series.t :=
  {| Series.start := seriesStart params;
     Series.count := count params;
     Series.font_family := font_family params;
     Series.font_size_mm := font_size_mm params;
     Series.per_letter_font_size_mm :=
       match per_letter_font_size_mm params with
       | Some (v :: rest) => Holds (v :: rest)
       | _ => Omitted
       end;
     Series.anchor_space := "object_mm";
     Series.x_mm := x;
     Series.y_mm := y;
     Series.letter_spacing_mm := letter_spacing_mm params;
     Series.rotation_deg := series_rotation_deg params;
     Series.color := color params;
     Series.step := stepField (step params) |}.

(** The returned object literal, given the object size and the
    [series] / [series_list] keys. *)
Definition payload (params : Params.t) (w h : number)
    (series : option Series.t) (list : option (list Series.t))
    : FinalRenderPayload.t :=
  {| FinalRenderPayload.job_id := job_id params;
     FinalRenderPayload.svg_s3_key := svg_s3_key params;
     FinalRenderPayload.custom_fonts := nonEmpty (custom_fonts params);
     FinalRenderPayload.overlays := nonEmpty (Some (overlays params));
     FinalRenderPayload.object_mm := object_mm params w h;
     FinalRenderPayload.series := series;
     FinalRenderPayload.series_list := list |}.

(** *** [buildFinalRenderPayload]

    The statements of the source between the guards are constant
    bindings without effect; the embedding evaluates each where it is
    used.  The guard on the object size binds [w] and [h], and the
    [hasMm] guard binds the two series coordinates, as numbers: that is
    what the source's [xMm as number] relies on.  The singular-series
    guards sit in the branch [hasSeriesList = false], which both the
    [if (shouldBuildSingleSeries)] block and the final conditional
    spread test. *)
Definition buildFinalRenderPayload (params : Params.t)
    : result FinalRenderPayload.t :=
  if Str.isEmpty (job_id params) then Throw "job_id is required" else
  if Str.isEmpty (documentId params) then Throw "documentId is required" else
  match toFiniteNumberOrNull (Params.objectWidthMm params),
        toFiniteNumberOrNull (Params.objectHeightMm params) with
  | Some w, Some h =>
      if negb (gt w zero && gt h zero) then
        Throw "object_mm.w and object_mm.h are required and must be > 0"
      else if hasSeriesList params then
        Return (payload params w h
                  (match series_list params with
                   | Some l => nth_error l 0
                   | None => None
                   end)
                  (series_list params))
      else
        if Str.isEmpty (seriesStart params) then
          Throw "series.start is required"
        else if negb (is_finite (count params) && gt (count params) zero) then
          Throw "series.count is required and must be > 0"
        else
          match xMm params, yMm params with
          | Some x, Some y =>
              if Str.isEmpty (font_family params) then
                Throw "series.font_family is required"
              else if negb (is_finite (font_size_mm params)
                            && gt (font_size_mm params) zero) then
                Throw "series.font_size_mm must be a number > 0"
              else if negb (is_finite (letter_spacing_mm params)) then
                Throw "series.letter_spacing_mm must be a number"
              else if negb (is_finite (series_rotation_deg params)) then
                Throw "series.rotation_deg must be a number"
              else if Str.isEmpty (color params) then
                Throw "series.color is required"
              else
                Return (payload params w h
                          (Some (singleSeries params x y)) None)
          | _, _ =>
              Throw "series requires object_mm coordinates (missing seriesXMm/seriesYMm)"
          end
  | _, _ => Throw "object_mm.w and object_mm.h are required and must be > 0"
  end.

End Builder.

(** ** A host for the computed examples

    An instance of [Host] that follows ECMAScript on a fragment: for
    [StringToNumber], the trimmed decimal integer literals with an
    optional sign, the empty string ([+0]) and [Infinity]; for
    [Number::toString], the integers of magnitude below [2^53] and the
    non-finite numbers.  Outside the fragment the instance answers [NaN]
    and ["NaN"], which is not ECMAScript's answer (for a fraction, say);
    the examples keep inside the fragment, and every theorem is proved for
    all hosts. *)

Module ExampleHost.

Definition ofZ (z : Z) : number :=
  SF2Prim (binary_normalize prec emax z 0 false).

Definition unsignedLiteral (s : string) : number :=
  if String.eqb s "Infinity" then infinity
  else match NilEmpty.uint_of_string s with
       | Some Decimal.Nil | None => nan
       | Some d => ofZ (Z.of_uint d)
       end.

Definition stringToNumber (s : string) : number :=
  match Str.trim s with
  | EmptyString => zero
  | String "+" rest => unsignedLiteral rest
  | String "-" rest => PrimFloat.opp (unsignedLiteral rest)
  | t => unsignedLiteral t
  end.

Definition numberToString (n : number) : string :=
  match Prim2SF n with
  | S754_nan => "NaN"
  | S754_infinity false => "Infinity"
  | S754_infinity true => "-Infinity"
  | S754_zero _ => "0"
  | S754_finite s m e =>
      let k := Z.pow 2 (- e) in
      if (e <=? 0)%Z && (Z.pos m mod k =? 0)%Z then
        NilZero.string_of_int
          (Z.to_int (if s then - (Z.pos m / k) else Z.pos m / k))
      else "NaN"
  end.

Definition host : Host :=
  {| StringToNumber := stringToNumber; NumberToString := numberToString |}.

End ExampleHost.


(** ** The scenarios of the specification, evaluated *)

Module Scenario.

Local Open Scope float_scope.

(** Scenario A: a single series through the flat fields. *)
Definition A : list (string * value) :=
  [ ("jobId", VString "j1"); ("documentId", VString "d1");
    ("objectWidthMm", VNumber 100); ("objectHeightMm", VNumber 50);
    ("seriesStart", VString "A001"); ("seriesCount", VNumber 5);
    ("seriesXMm", VNumber 10); ("seriesYMm", VNumber 10);
    ("seriesFontFamily", VString "Arial"); ("seriesFontSizeMm", VNumber 4);
    ("seriesLetterSpacingMm", VNumber 0); ("seriesRotationDeg", VNumber 0);
    ("seriesColor", VString "#000") ].

Definition objectA : ObjectMm.t :=
  {| ObjectMm.w := 100; ObjectMm.h := 50;
     ObjectMm.x_mm := None; ObjectMm.y_mm := None;
     ObjectMm.alignment := "center"; ObjectMm.rotation_deg := 0;
     ObjectMm.keep_proportions := false; ObjectMm.cut_margin_mm := 0 |}.

Definition seriesA : Series.t :=
  {| Series.start := "A001"; Series.count := 5;
     Series.font_family := "Arial"; Series.font_size_mm := 4;
     Series.per_letter_font_size_mm := Omitted;
     Series.anchor_space := "object_mm";
     Series.x_mm := 10; Series.y_mm := 10;
     Series.letter_spacing_mm := 0; Series.rotation_deg := 0;
     Series.color := "#000"; Series.step := None |}.

Definition payloadA : FinalRenderPayload.t :=
  {| FinalRenderPayload.job_id := "j1";
     FinalRenderPayload.svg_s3_key := "documents/raw/d1.svg";
     FinalRenderPayload.custom_fonts := None;
     FinalRenderPayload.overlays := None;
     FinalRenderPayload.object_mm := objectA;
     FinalRenderPayload.series := Some seriesA;
     FinalRenderPayload.series_list := None |}.

(** The list entry of scenario C, and the entry the builder emits for it. *)
Definition entryC : value :=
  VObject [ ("start", VString "A1"); ("count", VNumber 3);
            ("fontFamily", VString "Arial"); ("fontSizeMm", VNumber 4);
            ("xMm", VNumber 1); ("yMm", VNumber 1);
            ("letterSpacingMm", VNumber 0); ("rotationDeg", VNumber 0);
            ("color", VString "#000") ].

Definition seriesC : Series.t :=
  {| Series.start := "A1"; Series.count := 3;
     Series.font_family := "Arial"; Series.font_size_mm := 4;
     Series.per_letter_font_size_mm := HoldsUndefined;
     Series.anchor_space := "object_mm";
     Series.x_mm := 1; Series.y_mm := 1;
     Series.letter_spacing_mm := 0; Series.rotation_deg := 0;
     Series.color := "#000"; Series.step := None |}.

(** Scenario C: a one-entry list and no flat series field. *)
Definition C : list (string * value) :=
  [ ("jobId", VString "j1"); ("documentId", VString "d1");
    ("objectWidthMm", VNumber 100); ("objectHeightMm", VNumber 50);
    ("seriesList", VArray [entryC]) ].

Definition rasterD : value :=
  VObject [ ("dataUrl", VString "data:..."); ("mime", VString "image/png");
            ("xMm", VNumber 5); ("yMm", VNumber 5); ("wMm", VNumber 20);
            ("hMm", VNumber 10); ("rotationDeg", VNumber 0) ].

Definition vectorD : value :=
  VObject [ ("type", VString "svg"); ("xMm", VNumber 1); ("yMm", VNumber 1);
            ("scale", VNumber 1); ("rotationDeg", VNumber 0);
            ("svgS3Key", VString "overlays/x.svg") ].

(** Scenario D: scenario A with one overlay of each kind, the vector one
    listed first by the caller. *)
Definition D : list (string * value) :=
  ("svgOverlays", VArray [vectorD]) :: ("overlays", VArray [rasterD]) :: A.

Definition overlaysD : list overlay :=
  [ Raster {| RasterOverlay.data_url := "data:...";
              RasterOverlay.mime := "image/png";
              RasterOverlay.x_mm := 5; RasterOverlay.y_mm := 5;
              RasterOverlay.w_mm := 20; RasterOverlay.h_mm := 10;
              RasterOverlay.rotation_deg := 0 |};
    Vector {| VectorOverlay.x_mm := 1; VectorOverlay.y_mm := 1;
              VectorOverlay.scale := 1; VectorOverlay.rotation_deg := 0;
              VectorOverlay.svg_s3_key := "overlays/x.svg" |} ].

Definition payloadC : FinalRenderPayload.t :=
{| FinalRenderPayload.job_id := "j1";
   FinalRenderPayload.svg_s3_key := "documents/raw/d1.svg";
   FinalRenderPayload.custom_fonts := None;
   FinalRenderPayload.overlays := None;
   FinalRenderPayload.object_mm := objectA;
   FinalRenderPayload.series := Some seriesC;
   FinalRenderPayload.series_list := Some [seriesC] |}.

Definition payloadD : FinalRenderPayload.t :=
{| FinalRenderPayload.job_id := "j1";
   FinalRenderPayload.svg_s3_key := "documents/raw/d1.svg";
   FinalRenderPayload.custom_fonts := None;
   FinalRenderPayload.overlays := Some overlaysD;
   FinalRenderPayload.object_mm := objectA;
   FinalRenderPayload.series := Some seriesA;
   FinalRenderPayload.series_list := None |}.

(** Scenario B: scenario A with a zero width. *)
Definition B : list (string * value) := ("objectWidthMm", VNumber 0) :: A.

(** Scenario C with flat series fields that are all invalid. *)
Definition CwithInvalidFlatFields : list (string * value) :=
("seriesStart", VString "") :: ("seriesCount", VNumber (-1))
:: ("seriesXMm", VNull) :: ("seriesYMm", VString "abc")
:: ("seriesFontFamily", VNull) :: ("seriesFontSizeMm", VNumber 0)
:: ("seriesLetterSpacingMm", VNumber nan)
:: ("seriesRotationDeg", VNumber infinity) :: ("seriesColor", VString "  ")
:: C.

(** Scenario A with a cut margin of -1, and with a cut margin of 0. *)
Definition negativeMargin : list (string * value) :=
("objectCutMarginMm", VNumber (-1)) :: A.

Definition zeroMargin : list (string * value) :=
("objectCutMarginMm", VNumber 0) :: A.

(** The entry of scenario C with an infinite count, and with a count
    of 0. *)
Definition entryInfinite : value :=
VObject [ ("start", VString "A1"); ("count", VNumber infinity);
          ("fontFamily", VString "Arial"); ("fontSizeMm", VNumber 4);
          ("xMm", VNumber 1); ("yMm", VNumber 1);
          ("letterSpacingMm", VNumber 0); ("rotationDeg", VNumber 0);
          ("color", VString "#000") ].

Definition entryZero : value :=
VObject [ ("start", VString "A1"); ("count", VNumber 0);
          ("fontFamily", VString "Arial"); ("fontSizeMm", VNumber 4);
          ("xMm", VNumber 1); ("yMm", VNumber 1);
          ("letterSpacingMm", VNumber 0); ("rotationDeg", VNumber 0);
          ("color", VString "#000") ].

Definition seriesInfinite : Series.t :=
{| Series.start := "A1"; Series.count := infinity;
   Series.font_family := "Arial"; Series.font_size_mm := 4;
   Series.per_letter_font_size_mm := HoldsUndefined;
   Series.anchor_space := "object_mm";
   Series.x_mm := 1; Series.y_mm := 1;
   Series.letter_spacing_mm := 0; Series.rotation_deg := 0;
   Series.color := "#000"; Series.step := None |}.

(** A list with a valid entry and an entry whose count is 0. *)
Definition validAndZero : list (string * value) :=
[ ("jobId", VString "j1"); ("documentId", VString "d1");
  ("objectWidthMm", VNumber 100); ("objectHeightMm", VNumber 50);
  ("seriesList", VArray [entryZero; entryC]) ].

(** A list with a valid entry, an entry whose count is infinite and an
    entry whose count is 0. *)
Definition validInfiniteZero : list (string * value) :=
[ ("jobId", VString "j1"); ("documentId", VString "d1");
  ("objectWidthMm", VNumber 100); ("objectHeightMm", VNumber 50);
  ("seriesList", VArray [entryC; entryInfinite; entryZero]) ].

(** Scenario A for the document "abc123", its identifier padded with
    blanks. *)
Definition abc123 : list (string * value) :=
("documentId", VString " abc123 ") :: A.

(** Scenario A with a step of 2, and scenario C with a step of 2.5 in its
    entry. *)
Definition stepTwo : list (string * value) := ("seriesStep", VNumber 2) :: A.

Definition entryStep : value :=
VObject [ ("step", VNumber 2.5);
          ("start", VString "A1"); ("count", VNumber 3);
          ("fontFamily", VString "Arial"); ("fontSizeMm", VNumber 4);
          ("xMm", VNumber 1); ("yMm", VNumber 1);
          ("letterSpacingMm", VNumber 0); ("rotationDeg", VNumber 0);
          ("color", VString "#000") ].

Definition listStep : list (string * value) :=
[ ("jobId", VString "j1"); ("documentId", VString "d1");
  ("objectWidthMm", VNumber 100); ("objectHeightMm", VNumber 50);
  ("seriesList", VArray [entryStep]) ].

(** The entry of scenario C with a null x and an empty-string y. *)
Definition entryNull : value :=
VObject [ ("start", VString "A1"); ("count", VNumber 3);
          ("fontFamily", VString "Arial"); ("fontSizeMm", VNumber 4);
          ("xMm", VNull); ("yMm", VString "");
          ("letterSpacingMm", VNumber 0); ("rotationDeg", VNumber 0);
          ("color", VString "#000") ].

Definition listNull : list (string * value) :=
[ ("jobId", VString "j1"); ("documentId", VString "d1");
  ("objectWidthMm", VNumber 100); ("objectHeightMm", VNumber 50);
  ("seriesList", VArray [entryNull]) ].

(** Scenario A with two fonts, one without data, and per-letter sizes of
    which two are not finite positive numbers. *)
Definition fontsAndSizes : list (string * value) :=
("customFonts",
 VArray [ VObject [ ("family", VString "Inter");
                    ("dataUrl", VString "data:font/ttf;base64,AAEC");
                    ("mime", VString "font/ttf") ];
          VObject [ ("family", VString "Ghost") ];
          VNull ])
:: ("perLetterFontSizeMm",
    VArray [ VNumber 4; VNumber (-1); VString "x"; VString "5" ])
:: A.

(** Scenario A with a null seriesXMm. *)
Definition nullX : list (string * value) := ("seriesXMm", VNull) :: A.

End Scenario.

(** ** The properties, worded as the specification words them *)

Section Specification.

Context {host : Host}.

(** The entries of a collection parameter: those of the array, none when
    the parameter is not an array. *)
Definition elements (v : value) : list value :=
match asArray v with
| Some arr => arr
| None => []
end.

(** Both dimensions of the object are present (finite) and positive. *)
Definition objectSizeOk (params : Params.t) : bool :=
match toFiniteNumberOrNull (Params.objectWidthMm params),
      toFiniteNumberOrNull (Params.objectHeightMm params) with
| Some w, Some h => gt w zero && gt h zero
| _, _ => false
end.

(** Both coordinates of the single series are present. *)
Definition coordinatesOk (params : Params.t) : bool :=
match xMm params, yMm params with
| Some _, Some _ => true
| _, _ => false
end.

(** The request-level checks, in the order of the specification, each
    with the message of its error. *)
Definition requestChecks (params : Params.t) : list (bool * string) :=
[ (negb (Str.isEmpty (job_id params)), "job_id is required");
  (negb (Str.isEmpty (documentId params)), "documentId is required");
  (objectSizeOk params,
   "object_mm.w and object_mm.h are required and must be > 0") ].

(** The checks of the singular series: start, count, coordinates, font
    family, font size, letter spacing, rotation, color. *)
Definition singleSeriesChecks (params : Params.t) : list (bool * string) :=
[ (negb (Str.isEmpty (seriesStart params)), "series.start is required");
  (is_finite (count params) && gt (count params) zero,
   "series.count is required and must be > 0");
  (coordinatesOk params,
   "series requires object_mm coordinates (missing seriesXMm/seriesYMm)");
  (negb (Str.isEmpty (font_family params)), "series.font_family is required");
  (is_finite (font_size_mm params) && gt (font_size_mm params) zero,
   "series.font_size_mm must be a number > 0");
  (is_finite (letter_spacing_mm params),
   "series.letter_spacing_mm must be a number");
  (is_finite (series_rotation_deg params),
   "series.rotation_deg must be a number");
  (negb (Str.isEmpty (color params)), "series.color is required") ].

(** The singular checks apply only when the singular path is taken. *)
Definition requiredChecks (params : Params.t) : list (bool * string) :=
requestChecks params
++ (if hasSeriesList params then [] else singleSeriesChecks params).

(** The message of the first check that fails, if any. *)
Fixpoint firstFailure (checks : list (bool * string)) : option string :=
match checks with
| [] => None
| (ok, message) :: rest => if ok then firstFailure rest else Some message
end.

(** The flat fields of the singular series. *)
Definition flatSeriesFields : list string :=
[ "seriesStart"; "seriesCount"; "seriesXMm"; "seriesYMm";
  "seriesFontFamily"; "seriesFontSizeMm"; "seriesLetterSpacingMm";
  "seriesRotationDeg"; "seriesColor" ].

(** The fields no check reads. *)
Definition uncheckedFields : list string :=
[ "objectXMm"; "objectYMm"; "objectAlignment"; "objectRotationDeg";
  "objectKeepProportions"; "objectCutMarginMm"; "perLetterFontSizeMm";
  "seriesStep"; "customFonts"; "overlays"; "svgOverlays" ].

(** The invariants of a series_list entry as the claim words them:
    non-empty start, count > 0, non-empty font_family, font_size_mm > 0,
    finite x_mm, y_mm, letter_spacing_mm and rotation_deg, non-empty
    trimmed color. *)
Definition entryInvariantsAsStated (s : Series.t) : Prop :=
Series.start s <> "" /\
gt (Series.count s) zero = true /\
Series.font_family s <> "" /\
gt (Series.font_size_mm s) zero = true /\
is_finite (Series.x_mm s) = true /\
is_finite (Series.y_mm s) = true /\
is_finite (Series.letter_spacing_mm s) = true /\
is_finite (Series.rotation_deg s) = true /\
Series.color s <> "".

(** The same invariants with count and font_size_mm finite as well. *)
Definition entryInvariants (s : Series.t) : Prop :=
entryInvariantsAsStated s /\
is_finite (Series.count s) = true /\
is_finite (Series.font_size_mm s) = true.

(** A raster entry survives: non-empty data_url, finite x_mm, y_mm, w_mm,
    h_mm and rotation_deg, w_mm > 0 and h_mm > 0. *)
Definition rasterSurvives (o : RasterOverlay.t) : Prop :=
RasterOverlay.data_url o <> "" /\
is_finite (RasterOverlay.x_mm o) = true /\
is_finite (RasterOverlay.y_mm o) = true /\
is_finite (RasterOverlay.w_mm o) = true /\
is_finite (RasterOverlay.h_mm o) = true /\
is_finite (RasterOverlay.rotation_deg o) = true /\
gt (RasterOverlay.w_mm o) zero = true /\
gt (RasterOverlay.h_mm o) zero = true.

(** A vector entry survives: finite x_mm, y_mm, scale and rotation_deg,
    scale > 0, non-empty svg_s3_key. *)
Definition vectorSurvives (o : VectorOverlay.t) : Prop :=
is_finite (VectorOverlay.x_mm o) = true /\
is_finite (VectorOverlay.y_mm o) = true /\
is_finite (VectorOverlay.scale o) = true /\
is_finite (VectorOverlay.rotation_deg o) = true /\
gt (VectorOverlay.scale o) zero = true /\
VectorOverlay.svg_s3_key o <> "".

(** The invariants of an entry, given whether its two coordinates are
    finite. *)
Definition entryInvariantsWith (xFinite yFinite : bool) (s : Series.t)
  : Prop :=
Series.start s <> "" /\
is_finite (Series.count s) = true /\
gt (Series.count s) zero = true /\
Series.font_family s <> "" /\
is_finite (Series.font_size_mm s) = true /\
gt (Series.font_size_mm s) zero = true /\
xFinite = true /\
yFinite = true /\
is_finite (Series.letter_spacing_mm s) = true /\
is_finite (Series.rotation_deg s) = true /\
Series.color s <> "".

(** A supplied step that coerces to [n] and the emitted [step] key: the
    key is present iff [n] is finite and different from 1, and then it
    holds [n]. *)
Definition stepPresentIff (n : number) (field : option number) : Prop :=
((exists v, field = Some v)
 <-> is_finite n = true /\ PrimFloat.eqb n one = false) /\
(forall v, field = Some v -> v = n).

(** A coordinate given as [null] or as the empty string. *)
Definition nullOrEmpty (v : value) : Prop := v = VNull \/ v = VString "".

(** A coordinate that is [null] or missing. *)
Definition nullOrMissing (v : value) : Prop := v = VNull \/ v = VUndefined.

End Specification.

From Stdlib Require Import Lia PeanoNat.

(** ** The first variant of the builder

    The builder the multi-series one supersedes: it knows the singular
    series only, reads neither [seriesList] nor [seriesStep], and runs
    every series check on every call.  Its payload type is the later one
    without the optional [step] and [series_list] keys, so its payload is
    given in the later type with those keys left out. *)

Module Legacy.

Section Builder.

Context {host : Host}.

(** The object literal of [series]; [x] and [y] are the coordinates the
    [hasMm] guard found present. *)
Definition series (params : Params.t) (x y : number) : Series.t :=
{| Series.start := seriesStart params;
   Series.count := count params;
   Series.font_family := font_family params;
   Series.font_size_mm := font_size_mm params;
   Series.per_letter_font_size_mm :=
     match per_letter_font_size_mm params with
     | Some (v :: rest) => Holds (v :: rest)
     | _ => Omitted
     end;
   Series.anchor_space := "object_mm";
   Series.x_mm := x;
   Series.y_mm := y;
   Series.letter_spacing_mm := letter_spacing_mm params;
   Series.rotation_deg := series_rotation_deg params;
   Series.color := color params;
   Series.step := None |}.

(** The guards are those of the later builder, in the order of the
    source; the constant bindings between them have no effect and are
    evaluated where they are used. *)
Definition buildFinalRenderPayload (params : Params.t)
  : result FinalRenderPayload.t :=
if Str.isEmpty (job_id params) then Throw "job_id is required" else
if Str.isEmpty (documentId params) then Throw "documentId is required" else
match toFiniteNumberOrNull (Params.objectWidthMm params),
      toFiniteNumberOrNull (Params.objectHeightMm params) with
| Some w, Some h =>
    if negb (gt w zero && gt h zero) then
      Throw "object_mm.w and object_mm.h are required and must be > 0"
    else if Str.isEmpty (seriesStart params) then
      Throw "series.start is required"
    else if negb (is_finite (count params) && gt (count params) zero) then
      Throw "series.count is required and must be > 0"
    else
      match xMm params, yMm params with
      | Some x, Some y =>
          if Str.isEmpty (font_family params) then
            Throw "series.font_family is required"
          else if negb (is_finite (font_size_mm params)
                        && gt (font_size_mm params) zero) then
            Throw "series.font_size_mm must be a number > 0"
          else if negb (is_finite (letter_spacing_mm params)) then
            Throw "series.letter_spacing_mm must be a number"
          else if negb (is_finite (series_rotation_deg params)) then
            Throw "series.rotation_deg must be a number"
          else if Str.isEmpty (color params) then
            Throw "series.color is required"
          else
            Return (payload params w h (Some (series params x y)) None)
      | _, _ =>
          Throw "series requires object_mm coordinates (missing seriesXMm/seriesYMm)"
      end
| _, _ => Throw "object_mm.w and object_mm.h are required and must be > 0"
end.

End Builder.

End Legacy.

(** A payload with the [step] key of its [series] set to [st]. *)
Definition withSeriesStep (st : option number) (pl : FinalRenderPayload.t)
  : FinalRenderPayload.t :=
{| FinalRenderPayload.job_id := FinalRenderPayload.job_id pl;
   FinalRenderPayload.svg_s3_key := FinalRenderPayload.svg_s3_key pl;
   FinalRenderPayload.custom_fonts := FinalRenderPayload.custom_fonts pl;
   FinalRenderPayload.overlays := FinalRenderPayload.overlays pl;
   FinalRenderPayload.object_mm := FinalRenderPayload.object_mm pl;
   FinalRenderPayload.series :=
     match FinalRenderPayload.series pl with
     | Some s =>
         Some {| Series.start := Series.start s;
                 Series.count := Series.count s;
                 Series.font_family := Series.font_family s;
                 Series.font_size_mm := Series.font_size_mm s;
                 Series.per_letter_font_size_mm :=
                   Series.per_letter_font_size_mm s;
                 Series.anchor_space := Series.anchor_space s;
                 Series.x_mm := Series.x_mm s;
                 Series.y_mm := Series.y_mm s;
                 Series.letter_spacing_mm := Series.letter_spacing_mm s;
                 Series.rotation_deg := Series.rotation_deg s;
                 Series.color := Series.color s;
                 Series.step := st |}
     | None => None
     end;
   FinalRenderPayload.series_list := FinalRenderPayload.series_list pl |}.

(** The outcome of a call with [f] applied to a returned value. *)
Definition mapReturn {A B : Type} (f : A -> B) (r : result A) : result B :=
match r with
| Return a => Return (f a)
| Throw message => Throw message
end.

(** ** Invariants of a returned payload *)


(** A finite number above 0. *)
Definition finitePositiveNumber (n : number) : Prop :=
is_finite n = true /\ gt n zero = true.

(** An optional coordinate is [null] or a finite number. *)
Definition nullOrFinite (c : option number) : Prop :=
match c with
| None => True
| Some n => is_finite n = true
end.

(** The invariants of [object_mm]. *)
Definition objectInvariants (o : ObjectMm.t) : Prop :=
finitePositiveNumber (ObjectMm.w o) /\
finitePositiveNumber (ObjectMm.h o) /\
nullOrFinite (ObjectMm.x_mm o) /\
nullOrFinite (ObjectMm.y_mm o) /\
(ObjectMm.alignment o = "left" \/ ObjectMm.alignment o = "center"
 \/ ObjectMm.alignment o = "right") /\
is_finite (ObjectMm.rotation_deg o) = true /\
is_finite (ObjectMm.cut_margin_mm o) = true /\
ge (ObjectMm.cut_margin_mm o) zero = true.

(** ** Numbers from and to integers *)

(** The number nearest to the integer [z] (ties to even): what
    ECMAScript writes as the number value of a mathematical integer. *)
Definition numberOfZ (z : Z) : number :=
SF2Prim (binary_normalize prec emax z 0 false).

Module Math.

(** [Math.trunc]: the integral part of a number, its sign kept; NaN, the
    infinities and the zeros are returned as they are. *)
Definition trunc (x : number) : number :=
match Prim2SF x with
| S754_finite s m e =>
    if (0 <=? e)%Z then x
    else
      let q := Z.shiftr (Z.pos m) (- e) in
      if (q =? 0)%Z then (if s then neg_zero else zero)
      else if s then PrimFloat.opp (numberOfZ q) else numberOfZ q
| _ => x
end.

Definition isNegativeZero (x : number) : bool :=
PrimFloat.is_zero x && PrimFloat.get_sign x.

(** [Math.max] of two numbers: NaN when either is NaN, else the larger,
    [+0] counting as larger than [-0]. *)
Definition max (a b : number) : number :=
if PrimFloat.is_nan a || PrimFloat.is_nan b then PrimFloat.nan
else if PrimFloat.ltb a b then b
else if PrimFloat.ltb b a then a
else if isNegativeZero a then b else a.

(** [Math.min] of two numbers: NaN when either is NaN, else the smaller,
    [-0] counting as smaller than [+0]. *)
Definition min (a b : number) : number :=
if PrimFloat.is_nan a || PrimFloat.is_nan b then PrimFloat.nan
else if PrimFloat.ltb a b then a
else if PrimFloat.ltb b a then b
else if isNegativeZero b then b else a.

End Math.

(** ** Strings as sequences of code units *)

Module Text.

Definition isDigit (c : ascii) : bool :=
let n := nat_of_ascii c in ((48 <=? n) && (n <=? 57))%nat.

(** [c === ' ']. *)
Definition isSpace (c : ascii) : bool := Ascii.eqb c " "%char.

(** A line terminator, which [.] does not match: LF or CR among the code
    units below 256. *)
Definition isLineTerminator (c : ascii) : bool :=
let n := nat_of_ascii c in ((n =? 10) || (n =? 13))%nat.

(** No code unit of [l] is a line terminator. *)
Definition noLineTerminator (l : list ascii) : bool :=
forallb (fun c => negb (isLineTerminator c)) l.

Definition digitValue (c : ascii) : Z := Z.of_nat (nat_of_ascii c) - 48.

(** The longest prefix of digits, and what follows it. *)
Fixpoint spanDigits (l : list ascii) : list ascii * list ascii :=
match l with
| [] => ([], [])
| c :: rest =>
    if isDigit c then
      let (ds, tail) := spanDigits rest in (c :: ds, tail)
    else ([], l)
end.

(** The integer a sequence of digits writes in radix 10. *)
Definition decimalValue (ds : list ascii) : Z :=
fold_left (fun acc c => (10 * acc + digitValue c)%Z) ds 0%Z.

(** [parseInt(s, 10)]: leading white space is skipped, a sign is read,
    then the longest prefix of digits; no digit gives NaN.  The value is
    the nearest number to the integer read (beyond 20 significant digits
    ECMAScript lets an implementation approximate; the nearest number is
    among the answers it allows). *)
Definition parseInt10 (s : string) : number :=
let body := list_ascii_of_string (Str.trimStart s) in
let (negative, unsigned) :=
  match body with
  | "-"%char :: rest => (true, rest)
  | "+"%char :: rest => (false, rest)
  | _ => (false, body)
  end in
match fst (spanDigits unsigned) with
| [] => nan
| ds =>
    let n := numberOfZ (decimalValue ds) in
    if negative then PrimFloat.opp n else n
end.

(** [s.padStart(n, '0')]. *)
Definition padStart (n : nat) (s : string) : string :=
string_of_list_ascii (repeat "0"%char (n - String.length s)) ++ s.

(** [s.slice(s.length - n)] for [n] at most the length of [s]: the last
    [n] code units. *)
Definition lastChars (n : nat) (s : string) : string :=
substring (String.length s - n) n s.

End Text.

(** ** The series text of the proxy editor

    [parseSeriesPattern] and the functions around it index the string
    from its end; the embedding walks the reversed sequence of code units
    instead, the head of the sequence being [str[i]] and the next element
    [str[i - 1]]. *)

Module SeriesPattern.
Record t : Type := mk {
  prefix : string;
  digits : string;
  numericPart : string
}.
End SeriesPattern.

Module ProxyEditor.

(** [while (end >= 0 && str[end] === ' ') end -= 1], on the reversed
    string. *)
Fixpoint skipSpaces (rev_str : list ascii) : list ascii :=
match rev_str with
| [] => []
| c :: rest => if Text.isSpace c then skipSpaces rest else rev_str
end.

(** The second loop: from [str[end]] towards the start it collects the
    digits, and a space when the code unit before it is a digit; it
    returns what it pushed, in the order pushed, and the unread part of
    the reversed string, [str[i]] first. *)
Fixpoint scanNumeric (rev_str : list ascii) : list ascii * list ascii :=
match rev_str with
| [] => ([], [])
| ch :: before =>
    if Text.isDigit ch then
      let (pushed, unread) := scanNumeric before in (ch :: pushed, unread)
    else if Text.isSpace ch then
      match before with
      | prev :: _ =>
          if Text.isDigit prev then
            let (pushed, unread) := scanNumeric before in
            (ch :: pushed, unread)
          else ([], rev_str)
      | [] => ([], rev_str)
      end
    else ([], rev_str)
end.

(** [numericPart.replace(/\s+/g, '')]. *)
Definition removeWhiteSpace (l : list ascii) : list ascii :=
filter (fun c => negb (Str.isWhiteSpace c)) l.

Definition parseSeriesPattern (value : string) : option SeriesPattern.t :=
match skipSpaces (rev (list_ascii_of_string value)) with
| [] => None
| last :: before =>
    if negb (Text.isDigit last) then None
    else
      let (pushed, unread) := scanNumeric (last :: before) in
      let numericPart := rev pushed in
      let digits := removeWhiteSpace numericPart in
      match digits with
      | [] => None
      | _ :: _ =>
          Some {| SeriesPattern.prefix := string_of_list_ascii (rev unread);
                  SeriesPattern.digits := string_of_list_ascii digits;
                  SeriesPattern.numericPart :=
                    string_of_list_ascii numericPart |}
      end
end.

Definition sanitizeSeriesInput (value : string) : string :=
match parseSeriesPattern value with
| None => value
| Some parsed => SeriesPattern.prefix parsed ++ SeriesPattern.digits parsed
end.

(** The loop of [applyNumericTemplate]: [digits] is what is left of the
    digits from index [j] on. *)
Fixpoint fillTemplate (template digits : list ascii) : list ascii :=
match template with
| [] => []
| ch :: rest =>
    if Text.isDigit ch then
      match digits with
      | d :: digits' => d :: fillTemplate rest digits'
      | [] => "0"%char :: fillTemplate rest []
      end
    else ch :: fillTemplate rest digits
end.

Definition applyNumericTemplate (template digits : string) : string :=
string_of_list_ascii
  (fillTemplate (list_ascii_of_string template) (list_ascii_of_string digits)).

Section Increment.

Context {host : Host}.

(** [width] is a length in every call of the source. *)
Definition formatSeriesValue (prefix : string) (num : number) (width : nat)
  : string :=
let raw := NumberToString (Math.trunc num) in
if (0 <? width)%nat then
  let padded := Text.padStart width raw in
  let finalDigits :=
    if (width <? String.length padded)%nat then Text.lastChars width padded
    else padded in
  prefix ++ finalDigits
else prefix ++ raw.

Definition incrementSeries (value : string) (increment : number) : string :=
match parseSeriesPattern value with
| Some parsed =>
    let num := Text.parseInt10 (SeriesPattern.digits parsed) in
    let endNum := PrimFloat.add num increment in
    let width := String.length (SeriesPattern.digits parsed) in
    if negb (Str.isEmpty (SeriesPattern.numericPart parsed))
       && existsb Str.isWhiteSpace
            (list_ascii_of_string (SeriesPattern.numericPart parsed))
    then
      let numStr := Text.padStart width (NumberToString (Math.trunc endNum)) in
      let finalDigits :=
        if (width <? String.length numStr)%nat then Text.lastChars width numStr
        else numStr in
      SeriesPattern.prefix parsed
      ++ applyNumericTemplate (SeriesPattern.numericPart parsed) finalDigits
    else formatSeriesValue (SeriesPattern.prefix parsed) endNum width
| None => value
end.

End Increment.

End ProxyEditor.

(** ** The series text of the ticket editor *)

Module TicketEditor.

(** [s.match(/^(.*?)(\d+)$/)]: the lazy group takes the shortest prefix
    without line terminator after which only digits, at least one, remain
    to the end. *)
Fixpoint matchSeries (s : list ascii) : option (list ascii * list ascii) :=
match s with
| [] => None
| c :: rest =>
    if forallb Text.isDigit s then Some ([], s)
    else if Text.isLineTerminator c then None
    else
      match matchSeries rest with
      | Some (prefix, numStr) => Some (c :: prefix, numStr)
      | None => None
      end
end.

Section Increment.

Context {host : Host}.

Definition incrementSeries (value : string) (increment : number) : string :=
match matchSeries (list_ascii_of_string value) with
| Some (prefix, numStr) =>
    let num := Text.parseInt10 (string_of_list_ascii numStr) in
    let endNum := PrimFloat.add num increment in
    string_of_list_ascii prefix
    ++ Text.padStart (List.length numStr) (NumberToString endNum)
| None => value
end.

(** The same function is declared in the proxy editor. *)
Definition calculateEndingSeries (start : string) (totalTickets : number)
  : string :=
match matchSeries (list_ascii_of_string start) with
| Some (prefix, numStr) =>
    let startNum := Text.parseInt10 (string_of_list_ascii numStr) in
    let endNum := PrimFloat.sub (PrimFloat.add startNum totalTickets) one in
    string_of_list_ascii prefix
    ++ Text.padStart (List.length numStr) (NumberToString endNum)
| None => start
end.

End Increment.

(** [mergedAvailableFonts]: the families uploaded in the session, then
    the fonts of the server that were not uploaded. *)
Definition mergedAvailableFonts (uploaded availableFonts : list string)
  : list string :=
uploaded
++ filter (fun f => negb (existsb (String.eqb f) uploaded)) availableFonts.

End TicketEditor.

(** ** The address of an endpoint *)

Module Api.

(** [s.replace(/\/$/, '')]: a slash that ends [s] is removed, one only. *)
Fixpoint stripTrailingSlash (s : string) : string :=
match s with
| EmptyString => EmptyString
| String c rest =>
    match rest with
    | EmptyString => if Ascii.eqb c "/"%char then EmptyString else s
    | String _ _ => String c (stripTrailingSlash rest)
    end
end.

(** [s] ends with a slash. *)
Fixpoint endsWithSlash (s : string) : bool :=
match s with
| EmptyString => false
| String c rest =>
    match rest with
    | EmptyString => Ascii.eqb c "/"%char
    | String _ _ => endsWithSlash rest
    end
end.

(** [p.startsWith('/')]. *)
Definition startsWithSlash (p : string) : bool :=
match p with
| String c _ => Ascii.eqb c "/"%char
| EmptyString => false
end.

Section ApiUrl.

Context {host : Host}.

(** [apiUrl], the base address being the constant [API_BASE_URL] of the
    module. *)
Definition apiUrl (API_BASE_URL : string) (path : value) : string :=
let base := stripTrailingSlash API_BASE_URL in
let p := StringOrEmpty path in
if Str.isEmpty p then base
else if startsWithSlash p then base ++ p
else base ++ "/" ++ p.

End ApiUrl.

End Api.

(** ** The object rectangle and the slots of the ticket editor *)

Module Rect.
Record t : Type := mk {
  xMm : number;
  yMm : number;
  widthMm : number;
  heightMm : number
}.
End Rect.

Module Editor.

Definition MAX_OBJECT_WIDTH_MM : number := 210%float.
Definition MAX_OBJECT_HEIGHT_MM : number := 74.25%float.

(** [typeof v === 'number' && Number.isFinite(v) && v > 0]. *)
Definition isPositiveNumber (v : value) : bool :=
match v with
| VNumber n => is_finite n && gt n zero
| _ => false
end.

(** [typeof v === 'number' && Number.isFinite(v) ? v : 0]. *)
Definition finiteOrZero (v : value) : number :=
match v with
| VNumber n => if is_finite n then n else zero
| _ => zero
end.

(** [objectRectMm], of [ticketCropMm]; [None] stands for [null]. *)
Definition objectRectMm (ticketCropMm : value) : option Rect.t :=
let wMm := get ticketCropMm "widthMm" in
let hMm := get ticketCropMm "heightMm" in
match wMm, hMm with
| VNumber w, VNumber h =>
    if isPositiveNumber wMm && isPositiveNumber hMm then
      Some {| Rect.xMm := finiteOrZero (get ticketCropMm "xMm");
              Rect.yMm := finiteOrZero (get ticketCropMm "yMm");
              Rect.widthMm := w;
              Rect.heightMm := h |}
    else None
| _, _ => None
end.

Section Reason.

Context {host : Host}.

(** [generateDisabledReason], declared alike in both editors; [None]
    stands for [null]. *)
Definition generateDisabledReason (ticketCropMm : value) : option string :=
let wMm := get ticketCropMm "widthMm" in
let hMm := get ticketCropMm "heightMm" in
if negb (isPositiveNumber wMm) then
  Some "Missing object width (mm). Enter Width (mm) before generating."
else if negb (isPositiveNumber hMm) then
  Some "Missing object height (mm). Enter Height (mm) before generating."
else if gt (ToNumber wMm) MAX_OBJECT_WIDTH_MM then
  Some ("Object width (" ++ ToString wMm ++ "mm) exceeds max allowed ("
        ++ NumberToString MAX_OBJECT_WIDTH_MM
        ++ "mm). Reduce width before generating.")
else if gt (ToNumber hMm) MAX_OBJECT_HEIGHT_MM then
  Some ("Object height (" ++ ToString hMm ++ "mm) exceeds max allowed ("
        ++ NumberToString MAX_OBJECT_HEIGHT_MM
        ++ "mm). Reduce height before generating.")
else None.

End Reason.

Section Slots.

(** A slot, of which the selection reads the [id] only. *)
Variable Slot : Type.
Variable id : Slot -> string.

(** [slots[0]?.id ?? null]. *)
Definition firstId (slots : list Slot) : option string :=
match slots with
| [] => None
| s :: _ => Some (id s)
end.

(** [slots.some((s) => s.id === i)]. *)
Definition hasId (i : string) (slots : list Slot) : bool :=
existsb (fun s => String.eqb (id s) i) slots.

(** [handleDeleteSeriesSlot]: the updater given to [setSeriesSlots], with
    the [setSelectedSlotId] it issues.  [selectedSlotId] is the selection
    the callback closed over, [prev] the list of slots and [prevSelected]
    the selection at the time of the update; the result is the new list
    and the new selection.  The notification is left out. *)
Definition handleDeleteSeriesSlot (selectedSlotId : option string)
    (prev : list Slot) (prevSelected : option string)
  : list Slot * option string :=
match prev with
| [] => (prev, prevSelected)
| _ :: _ =>
    let idToRemove :=
      match selectedSlotId with
      | Some i => Some i
      | None => option_map id (List.last (map Some prev) None)
      end in
    match idToRemove with
    | None => (prev, prevSelected)
    | Some i =>
        if Str.isEmpty i then (prev, prevSelected)
        else
          let next := filter (fun s => negb (String.eqb (id s) i)) prev in
          let selected :=
            match prevSelected with
            | Some p =>
                if negb (Str.isEmpty p) && negb (String.eqb p i)
                   && hasId p next
                then Some p
                else firstId next
            | None => firstId next
            end in
          (next, selected)
    end
end.

(** The effect that repairs the selection when the slots or the
    selection change: the selection after it has run. *)
Definition repairSelection (seriesSlots : list Slot)
    (selectedSlotId : option string) : option string :=
match seriesSlots with
| [] =>
    match selectedSlotId with
    | Some i => if Str.isEmpty i then selectedSlotId else None
    | None => None
    end
| _ :: _ =>
    match selectedSlotId with
    | Some i =>
        if Str.isEmpty i || negb (hasId i seriesSlots)
        then firstId seriesSlots
        else selectedSlotId
    | None => firstId seriesSlots
    end
end.

(** The selection is null or names a slot of the list. *)
Definition selectionValid (slots : list Slot) (selected : option string)
  : Prop :=
match selected with
| None => True
| Some i => exists s, In s slots /\ id s = i
end.

End Slots.

End Editor.

(** ** The ticket region of the proxy editor *)

(** [TicketRegion]: a rectangle in fractions of the page. *)
Module TicketRegion.
Record t : Type := make {
  x : number;
  y : number;
  width : number;
  height : number
}.

Definition anyNaN (r : t) : bool :=
PrimFloat.is_nan (x r) || PrimFloat.is_nan (y r)
|| PrimFloat.is_nan (width r) || PrimFloat.is_nan (height r).
End TicketRegion.

Module ProxyCanvas.

(** [clamp(v, min, max)]. *)
Definition clamp (v min max : number) : number :=
Math.max min (Math.min max v).

(** [clamp01(v)]. *)
Definition clamp01 (v : number) : number :=
Math.max zero (Math.min one v).

(** The constants [minW] and [minH] of [clampTicketRegion]: the number
    written [0.02]. *)
Definition minW : number := 0x1.47ae147ae147bp-6%float.
Definition minH : number := 0x1.47ae147ae147bp-6%float.

Definition clampTicketRegion (r : TicketRegion.t) : TicketRegion.t :=
let width := Math.max minW (Math.min one (TicketRegion.width r)) in
let height := Math.max minH (Math.min one (TicketRegion.height r)) in
let x := Math.max zero (Math.min (PrimFloat.sub one width) (TicketRegion.x r)) in
let y := Math.max zero (Math.min (PrimFloat.sub one height) (TicketRegion.y r)) in
TicketRegion.make x y width height.

(** [hasValidTicketRegion], of the state [ticketRegion]; [None] stands
    for [null].  The fields are numbers, which [Number] returns as they
    are. *)
Definition hasValidTicketRegion (ticketRegion : option TicketRegion.t) : bool :=
match ticketRegion with
| None => false
| Some r =>
    let x := TicketRegion.x r in
    let y := TicketRegion.y r in
    let w := TicketRegion.width r in
    let h := TicketRegion.height r in
    if negb (forallb is_finite [x; y; w; h]) then false
    else if PrimFloat.leb w zero || PrimFloat.leb h zero then false
    else if PrimFloat.ltb x zero || PrimFloat.ltb y zero then false
    else if gt x one || gt y one then false
    else if gt w one || gt h one then false
    else if gt (PrimFloat.add x w) one || gt (PrimFloat.add y h) one then false
    else true
end.

End ProxyCanvas.

(** The sign of a number that is not NaN. *)
Definition signIs (s : bool) (f : spec_float) : Prop :=
match f with
| S754_zero s' | S754_infinity s' | S754_finite s' _ _ => s' = s
| S754_nan => False
end.

(** ** The upload page *)

(** The override fields of the upload form, as the user typed them. *)
Module Overrides.
Record t : Type := make {
  overrideXmm : string;
  overrideYmm : string;
  overrideWidthMm : string;
  overrideHeightMm : string;
  overrideCutMarginMm : string;
  overrideRotationDeg : string;
  overrideKeepProportions : string;
  overrideAlignment : string
}.
End Overrides.

Module Upload.

(** The updater of [toggleSelectedUser]: the selected ids after the
    click, from the ones before. *)
Definition toggleSelectedUser (userId : string) (prev : list string)
  : list string :=
if existsb (String.eqb userId) prev
then filter (fun id => negb (String.eqb id userId)) prev
else prev ++ [userId].

(** [if (v !== null) obj.key = v], on an object that has no [key] yet. *)
Definition assign (key : string) (v : option value)
    (obj : list (string * value)) : list (string * value) :=
match v with
| Some x => obj ++ [(key, x)]
| None => obj
end.

Section Crop.

Context {host : Host}.

(** [parseNullableNumber], of [handleUpload]. *)
Definition parseNullableNumber (raw : string) : option number :=
let s := Str.trim raw in
if Str.isEmpty s then None
else
  let n := StringToNumber s in
  if is_finite n then Some n else None.

Definition numberField (raw : string) : option value :=
option_map VNumber (parseNullableNumber raw).

(** What reading a number field of the object gives back. *)
Definition numberOrUndefined (raw : string) : value :=
match parseNullableNumber raw with
| Some n => VNumber n
| None => VUndefined
end.

(** The object [ticketCropMm] that [handleUpload] fills. *)
Definition ticketCropMm (o : Overrides.t) : list (string * value) :=
let obj := [] in
let obj := assign "xMm" (numberField (Overrides.overrideXmm o)) obj in
let obj := assign "yMm" (numberField (Overrides.overrideYmm o)) obj in
let obj := assign "widthMm" (numberField (Overrides.overrideWidthMm o)) obj in
let obj := assign "heightMm" (numberField (Overrides.overrideHeightMm o)) obj in
let obj := assign "cutMarginMm"
             (numberField (Overrides.overrideCutMarginMm o)) obj in
let obj := assign "rotationDeg"
             (numberField (Overrides.overrideRotationDeg o)) obj in
let obj :=
  if negb (String.eqb (Overrides.overrideKeepProportions o) "default") then
    assign "keepProportions"
      (Some (VBool (String.eqb (Overrides.overrideKeepProportions o) "on")))
      obj
  else obj in
let obj :=
  if negb (String.eqb (Overrides.overrideAlignment o) "default") then
    assign "alignment" (Some (VString (Overrides.overrideAlignment o))) obj
  else obj in
obj.

Definition hasTicketCropMm (o : Overrides.t) : bool :=
(0 <? List.length (ticketCropMm o))%nat.

(** [ticketCropMmForClient]: what the viewer, and through it the ticket
    editor, receives. *)
Definition ticketCropMmForClient (o : Overrides.t) : value :=
if hasTicketCropMm o then VObject (ticketCropMm o) else VNull.

End Crop.

End Upload.

(** ** Further inputs for the computed examples *)

Module Sample.

Local Open Scope float_scope.

(** Scenario A with the list of scenario C besides its flat fields. *)
Definition flatAndList : list (string * value) :=
("seriesList", VArray [Scenario.entryC]) :: Scenario.A.

(** Scenario A with the object position given. *)
Definition placed : list (string * value) :=
("objectXMm", VNumber 0) :: ("objectYMm", VNumber 7) :: Scenario.A.

(** A crop of 100 mm by 50 mm, 7 mm from the top, its x not set. *)
Definition crop : value :=
VObject [ ("widthMm", VNumber 100); ("heightMm", VNumber 50);
          ("xMm", VNull); ("yMm", VNumber 7) ].

Definition rect : Rect.t :=
{| Rect.xMm := 0; Rect.yMm := 7; Rect.widthMm := 100; Rect.heightMm := 50 |}.

(** A crop wider than the maximum. *)
Definition wideCrop : value :=
VObject [ ("widthMm", VNumber 250); ("heightMm", VNumber 50) ].


Definition pattern : SeriesPattern.t :=
{| SeriesPattern.prefix := "AB ";
   SeriesPattern.digits := "1234";
   SeriesPattern.numericPart := "12 34" |}.

(** A region drawn too far right, above the page and too tall. *)
Definition region : TicketRegion.t :=
{| TicketRegion.x := 0.75; TicketRegion.y := -0.5;
   TicketRegion.width := 0.5; TicketRegion.height := 2 |}.

(** What clamping makes of it. *)
Definition clampedRegion : TicketRegion.t :=
{| TicketRegion.x := 0.5; TicketRegion.y := 0;
   TicketRegion.width := 0.5; TicketRegion.height := 1 |}.

(** A region whose width is NaN. *)
Definition brokenRegion : TicketRegion.t :=
{| TicketRegion.x := 0.25; TicketRegion.y := 0.25;
   TicketRegion.width := nan; TicketRegion.height := 0.5 |}.

(** The upload form with a width and a height only. *)
Definition form : Overrides.t :=
{| Overrides.overrideXmm := "";
   Overrides.overrideYmm := "abc";
   Overrides.overrideWidthMm := "100";
   Overrides.overrideHeightMm := " 50 ";
   Overrides.overrideCutMarginMm := "";
   Overrides.overrideRotationDeg := "  ";
   Overrides.overrideKeepProportions := "on";
   Overrides.overrideAlignment := "default" |}.

(** The upload form as handleFileSelect resets it. *)
Definition blankForm : Overrides.t :=
{| Overrides.overrideXmm := "";
   Overrides.overrideYmm := "";
   Overrides.overrideWidthMm := "";
   Overrides.overrideHeightMm := "";
   Overrides.overrideCutMarginMm := "";
   Overrides.overrideRotationDeg := "";
   Overrides.overrideKeepProportions := "default";
   Overrides.overrideAlignment := "default" |}.

End Sample.

(** ** Bags that agree outside some fields *)

Ltac in_fields :=
  unfold Params.fields; simpl; repeat (first [left; reflexivity | right]).

Ltac agree_field H n f :=
  try (let E := fresh "E" in
       pose proof (H n f ltac:(in_fields) eq_refl) as E).

(** Every equation between fields that [H : Params.agreeExcept _ p q]
    gives. *)
Ltac agree_all H :=
  agree_field H "jobId" Params.jobId;
  agree_field H "documentId" Params.documentId;
  agree_field H "objectWidthMm" Params.objectWidthMm;
  agree_field H "objectHeightMm" Params.objectHeightMm;
  agree_field H "objectXMm" Params.objectXMm;
  agree_field H "objectYMm" Params.objectYMm;
  agree_field H "objectAlignment" Params.objectAlignment;
  agree_field H "objectRotationDeg" Params.objectRotationDeg;
  agree_field H "objectKeepProportions" Params.objectKeepProportions;
  agree_field H "objectCutMarginMm" Params.objectCutMarginMm;
  agree_field H "seriesStart" Params.seriesStart;
  agree_field H "seriesCount" Params.seriesCount;
  agree_field H "seriesXMm" Params.seriesXMm;
  agree_field H "seriesYMm" Params.seriesYMm;
  agree_field H "seriesFontFamily" Params.seriesFontFamily;
  agree_field H "seriesFontSizeMm" Params.seriesFontSizeMm;
  agree_field H "perLetterFontSizeMm" Params.perLetterFontSizeMm;
  agree_field H "seriesLetterSpacingMm" Params.seriesLetterSpacingMm;
  agree_field H "seriesRotationDeg" Params.seriesRotationDeg;
  agree_field H "seriesColor" Params.seriesColor;
  agree_field H "seriesStep" Params.seriesStep;
  agree_field H "seriesList" Params.seriesList;
  agree_field H "customFonts" Params.customFonts;
  agree_field H "overlays" Params.overlays;
  agree_field H "svgOverlays" Params.svgOverlays.

Ltac params_proj :=
  cbn [Params.jobId Params.documentId Params.objectWidthMm Params.objectHeightMm Params.objectXMm Params.objectYMm Params.objectAlignment Params.objectRotationDeg Params.objectKeepProportions Params.objectCutMarginMm Params.seriesStart Params.seriesCount Params.seriesXMm Params.seriesYMm Params.seriesFontFamily Params.seriesFontSizeMm Params.perLetterFontSizeMm Params.seriesLetterSpacingMm Params.seriesRotationDeg Params.seriesColor Params.seriesStep Params.seriesList Params.customFonts Params.overlays Params.svgOverlays] in *.

(** * Properties *)

Section Outcome.

Context {host : Host}.

Lemma firstFailure_app (l1 l2 : list (bool * string)) :
  firstFailure (l1 ++ l2)
  = match firstFailure l1 with
    | Some m => Some m
    | None => firstFailure l2
    end.
Proof.
  induction l1 as [|[ok m] l1 IH]; simpl; [reflexivity|].
  destruct ok; [exact IH | reflexivity].
Qed.

(** The builder throws the message of the first failing check, and
    returns a payload when no check fails. *)
Lemma build_outcome (params : Params.t) :
  match firstFailure (requiredChecks params) with
  | Some m => buildFinalRenderPayload params = Throw m
  | None => exists pl, buildFinalRenderPayload params = Return pl
  end.
Proof.
  unfold buildFinalRenderPayload, requiredChecks, requestChecks,
    singleSeriesChecks, objectSizeOk, coordinatesOk.
  cbn [firstFailure app].
  destruct (Str.isEmpty (job_id params)); cbn [negb]; [reflexivity|].
  destruct (Str.isEmpty (documentId params)); cbn [negb]; [reflexivity|].
  destruct (toFiniteNumberOrNull (Params.objectWidthMm params)) as [w|];
    [|reflexivity].
  destruct (toFiniteNumberOrNull (Params.objectHeightMm params)) as [h|];
    [|reflexivity].
  destruct (gt w zero && gt h zero); cbn [negb]; [|reflexivity].
  destruct (hasSeriesList params); cbn [firstFailure]; [eexists; reflexivity|].
  destruct (Str.isEmpty (seriesStart params)); cbn [negb]; [reflexivity|].
  destruct (is_finite (count params) && gt (count params) zero);
    cbn [negb]; [|reflexivity].
  destruct (xMm params) as [x|]; [|reflexivity].
  destruct (yMm params) as [y|]; [|reflexivity].
  destruct (Str.isEmpty (font_family params)); cbn [negb]; [reflexivity|].
  destruct (is_finite (font_size_mm params) && gt (font_size_mm params) zero);
    cbn [negb]; [|reflexivity].
  destruct (is_finite (letter_spacing_mm params)); cbn [negb]; [|reflexivity].
  destruct (is_finite (series_rotation_deg params)); cbn [negb]; [|reflexivity].
  destruct (Str.isEmpty (color params)); cbn [negb]; [reflexivity|].
  eexists; reflexivity.
Qed.

Lemma build_Throw_iff (params : Params.t) (m : string) :
  buildFinalRenderPayload params = Throw m
  <-> firstFailure (requiredChecks params) = Some m.
Proof.
  pose proof (build_outcome params) as H.
  destruct (firstFailure (requiredChecks params)) as [m'|].
  - rewrite H. split; intros E; inversion E; reflexivity.
  - destruct H as [pl H]. rewrite H. split; discriminate.
Qed.

Lemma build_Return_iff (params : Params.t) :
  (exists pl, buildFinalRenderPayload params = Return pl)
  <-> firstFailure (requiredChecks params) = None.
Proof.
  pose proof (build_outcome params) as H.
  destruct (firstFailure (requiredChecks params)) as [m'|].
  - rewrite H. split; [intros [pl E]|]; discriminate.
  - split; [reflexivity | intros _; exact H].
Qed.

(** What a returned payload is made of. *)
Lemma build_Return_inv (params : Params.t) (pl : FinalRenderPayload.t) :
  buildFinalRenderPayload params = Return pl ->
  exists w h,
    toFiniteNumberOrNull (Params.objectWidthMm params) = Some w /\
    toFiniteNumberOrNull (Params.objectHeightMm params) = Some h /\
    ((hasSeriesList params = true /\
      pl = payload params w h
             (match series_list params with
              | Some l => nth_error l 0
              | None => None
              end)
             (series_list params))
     \/
     (hasSeriesList params = false /\
      exists x y, xMm params = Some x /\ yMm params = Some y /\
        pl = payload params w h (Some (singleSeries params x y)) None)).
Proof.
  unfold buildFinalRenderPayload.
  destruct (Str.isEmpty (job_id params)); [discriminate|].
  destruct (Str.isEmpty (documentId params)); [discriminate|].
  destruct (toFiniteNumberOrNull (Params.objectWidthMm params)) as [w|];
    [|discriminate].
  destruct (toFiniteNumberOrNull (Params.objectHeightMm params)) as [h|];
    [|discriminate].
  destruct (negb (gt w zero && gt h zero)); [discriminate|].
  exists w, h. split; [reflexivity|]. split; [reflexivity|].
  destruct (hasSeriesList params).
  - left. split; [reflexivity|]. inversion H; reflexivity.
  - right. split; [reflexivity|].
    destruct (Str.isEmpty (seriesStart params)); [discriminate|].
    destruct (negb (is_finite (count params) && gt (count params) zero));
      [discriminate|].
    destruct (xMm params) as [x|]; [|discriminate].
    destruct (yMm params) as [y|]; [|discriminate].
    exists x, y. split; [reflexivity|]. split; [reflexivity|].
    destruct (Str.isEmpty (font_family params)); [discriminate|].
    destruct (negb (is_finite (font_size_mm params)
                    && gt (font_size_mm params) zero)); [discriminate|].
    destruct (negb (is_finite (letter_spacing_mm params))); [discriminate|].
    destruct (negb (is_finite (series_rotation_deg params))); [discriminate|].
    destruct (Str.isEmpty (color params)); [discriminate|].
    inversion H; reflexivity.
Qed.

End Outcome.

(** ** Shape selection *)

Section Shape.

Context {host : Host}.

Lemma hasSeriesList_cons (params : Params.t) (first : Series.t)
    (rest : list Series.t) :
  series_list params = Some (first :: rest) -> hasSeriesList params = true.
Proof. intros H. unfold hasSeriesList. rewrite H. reflexivity. Qed.

Lemma hasSeriesList_none (params : Params.t) :
  series_list params = None \/ series_list params = Some [] ->
  hasSeriesList params = false.
Proof. intros [H|H]; unfold hasSeriesList; rewrite H; reflexivity. Qed.

(** With a surviving list entry the builder never looks at the flat
    series fields. *)
Lemma build_ignores_flat_fields (params q : Params.t) :
  hasSeriesList params = true ->
  Params.agreeExcept flatSeriesFields params q ->
  buildFinalRenderPayload q = buildFinalRenderPayload params.
Proof.
  intros Hhas H. agree_all H.
  destruct params, q. params_proj. subst.
  unfold buildFinalRenderPayload, hasSeriesList, series_list in *.
  unfold payload, job_id, documentId, svg_s3_key, custom_fonts, overlays,
    imageOverlays, svgOverlays, object_mm, alignment, rotation_deg,
    keep_proportions, cut_margin_mm.
  params_proj.
  repeat match goal with
         | |- (if ?c then _ else _) = _ => destruct c; [reflexivity|]
         end.
  repeat match goal with
         | |- match ?c with Some _ => _ | None => _ end = _ =>
             destruct c; [|reflexivity]
         end.
  destruct (negb _); [reflexivity|].
  match type of Hhas with
  | match ?c with _ => _ end = true => destruct c as [[|e l]|]
  end; try discriminate Hhas.
  reflexivity.
Qed.

(** C1: when the mapped and filtered seriesList has a surviving entry, a
    returned payload carries series_list equal to the surviving entries
    and series equal to the first of them, the flat single-series fields
    are not looked at (changing them changes nothing, whatever their
    values) and the call returns as soon as the request-level checks
    pass; when no entry survives or no list is given, the builder
    validates the flat fields and a returned payload carries the singular
    series built from them and no series_list key. *)
Theorem series_shape_selection (params : Params.t) :
  (forall first rest,
     series_list params = Some (first :: rest) ->
     (forall pl, buildFinalRenderPayload params = Return pl ->
        FinalRenderPayload.series_list pl = Some (first :: rest) /\
        FinalRenderPayload.series pl = Some first) /\
     (forall q, Params.agreeExcept flatSeriesFields params q ->
        buildFinalRenderPayload q = buildFinalRenderPayload params) /\
     (firstFailure (requestChecks params) = None ->
        exists pl, buildFinalRenderPayload params = Return pl))
  /\
  (series_list params = None \/ series_list params = Some [] ->
     (forall pl, buildFinalRenderPayload params = Return pl ->
        FinalRenderPayload.series_list pl = None /\
        firstFailure (singleSeriesChecks params) = None /\
        exists x y, xMm params = Some x /\ yMm params = Some y /\
          FinalRenderPayload.series pl = Some (singleSeries params x y)) /\
     (forall m, firstFailure (requestChecks params) = None ->
        firstFailure (singleSeriesChecks params) = Some m ->
        buildFinalRenderPayload params = Throw m)).
Proof.
  split.
  - intros first rest Hl.
    pose proof (hasSeriesList_cons _ _ _ Hl) as Hhas.
    split; [|split].
    + intros pl Hb.
      destruct (build_Return_inv _ _ Hb) as (w & h & _ & _ & [[_ ->]|[Hno _]]).
      * cbn [payload FinalRenderPayload.series_list FinalRenderPayload.series].
        rewrite Hl. split; reflexivity.
      * rewrite Hhas in Hno. discriminate.
    + intros q Hq. apply build_ignores_flat_fields; assumption.
    + intros Hreq. apply build_Return_iff.
      unfold requiredChecks. rewrite firstFailure_app, Hreq, Hhas. reflexivity.
  - intros Hl. pose proof (hasSeriesList_none _ Hl) as Hhas.
    split.
    + intros pl Hb.
      assert (Hchk : firstFailure (requiredChecks params) = None)
        by (apply build_Return_iff; eexists; exact Hb).
      unfold requiredChecks in Hchk. rewrite firstFailure_app, Hhas in Hchk.
      destruct (build_Return_inv _ _ Hb)
        as (w & h & _ & _ & [[Hyes _]|[_ (x & y & Hx & Hy & ->)]]).
      * rewrite Hhas in Hyes. discriminate.
      * split; [reflexivity|]. split.
        -- destruct (firstFailure (requestChecks params));
             [discriminate | exact Hchk].
        -- exists x, y. repeat split; assumption.
    + intros m Hreq Hs. apply build_Throw_iff.
      unfold requiredChecks. rewrite firstFailure_app, Hreq, Hhas. exact Hs.
Qed.

End Shape.

(** ** Required fields and the object rectangle *)

Section Required.

Context {host : Host}.

(** C3: the builder throws the error of the first check that fails, the
    checks being taken in the order job_id, documentId, object width and
    height and then, only on the singular-series path, series start,
    count, coordinates, font family, font size, letter spacing, rotation,
    color; a call that throws returns no payload, and a call on which no
    check fails returns one. *)
Theorem first_failing_check_is_thrown (params : Params.t) :
  match firstFailure (requiredChecks params) with
  | Some message =>
      buildFinalRenderPayload params = Throw message /\
      forall pl, buildFinalRenderPayload params <> Return pl
  | None => exists pl, buildFinalRenderPayload params = Return pl
  end.
Proof.
  destruct (firstFailure (requiredChecks params)) as [message|] eqn:E.
  - apply build_Throw_iff in E. split; [exact E|].
    intros pl Hpl. rewrite E in Hpl. discriminate Hpl.
  - apply build_Return_iff, E.
Qed.

Lemma lt_zero_not_ge (c : number) :
  PrimFloat.ltb c zero = true -> ge c zero = false.
Proof.
  unfold ge. rewrite ltb_spec, leb_spec.
  change (Prim2SF zero) with (S754_zero false).
  destruct (Prim2SF c) as [s|s| |s m e]; simpl; try discriminate;
    destruct s; try discriminate; reflexivity.
Qed.

Lemma cut_margin_of_zero (params : Params.t) :
  Params.objectCutMarginMm params = VNumber zero ->
  cut_margin_mm params = zero.
Proof. intros H. unfold cut_margin_mm. rewrite H. reflexivity. Qed.

Lemma cut_margin_of_negative (params : Params.t) :
  PrimFloat.ltb (ToNumber (Params.objectCutMarginMm params)) zero = true ->
  cut_margin_mm params = zero.
Proof.
  intros H. unfold cut_margin_mm. rewrite (lt_zero_not_ge _ H).
  rewrite andb_false_r. reflexivity.
Qed.

(** C2, as the code has it: when objectCutMarginMm coerces to a finite
    number below 0 the builder raises no error on that account; it puts 0
    in its place, so that a returned payload has object_mm.cut_margin_mm
    equal to 0 and the call behaves exactly as the same call with
    objectCutMarginMm set to 0. *)
Theorem negative_cut_margin_becomes_zero (params : Params.t) :
  is_finite (ToNumber (Params.objectCutMarginMm params)) = true ->
  PrimFloat.ltb (ToNumber (Params.objectCutMarginMm params)) zero = true ->
  (forall pl, buildFinalRenderPayload params = Return pl ->
     ObjectMm.cut_margin_mm (FinalRenderPayload.object_mm pl) = zero) /\
  (forall q, Params.agreeExcept ["objectCutMarginMm"] params q ->
     Params.objectCutMarginMm q = VNumber zero ->
     buildFinalRenderPayload q = buildFinalRenderPayload params).
Proof.
  intros _ Hneg. pose proof (cut_margin_of_negative _ Hneg) as Hp. split.
  - intros pl Hb.
    destruct (build_Return_inv _ _ Hb)
      as (w & h & _ & _ & [[_ ->]|[_ (x & y & _ & _ & ->)]]); exact Hp.
  - intros q H Hq0. pose proof (cut_margin_of_zero _ Hq0) as Hq.
    clear Hneg Hq0. agree_all H.
    destruct params, q. params_proj. subst.
    unfold buildFinalRenderPayload, hasSeriesList, series_list,
      seriesStart, count, xMm, yMm, font_family, font_size_mm,
      letter_spacing_mm, series_rotation_deg, color.
    unfold payload, singleSeries, job_id, documentId, svg_s3_key,
      custom_fonts, overlays, imageOverlays, svgOverlays, object_mm,
      alignment, rotation_deg, keep_proportions, per_letter_font_size_mm,
      seriesStart, count, font_family, font_size_mm, letter_spacing_mm,
      series_rotation_deg, color, step.
    params_proj. rewrite Hp, Hq. reflexivity.
Qed.

End Required.

(** ** Collections: series list, overlays, fonts *)

Section Collections.

Context {host : Host}.

Lemma isEmpty_false (s : string) : Str.isEmpty s = false <-> s <> "".
Proof. destruct s; simpl; split; congruence. Qed.

Lemma negb_isEmpty (s : string) : negb (Str.isEmpty s) = true <-> s <> "".
Proof. rewrite negb_true_iff. apply isEmpty_false. Qed.

Lemma keepSeries_spec (s : Series.t) :
  keepSeries s = true <-> entryInvariants s.
Proof.
  unfold keepSeries, entryInvariants, entryInvariantsAsStated.
  rewrite !andb_true_iff, !negb_isEmpty. tauto.
Qed.

Lemma keepRaster_spec (o : RasterOverlay.t) :
  keepRaster o = true <-> rasterSurvives o.
Proof.
  unfold keepRaster, rasterSurvives.
  rewrite !andb_true_iff, !negb_isEmpty. tauto.
Qed.

Lemma keepVector_spec (o : VectorOverlay.t) :
  keepVector o = true <-> vectorSurvives o.
Proof.
  unfold keepVector, vectorSurvives.
  rewrite !andb_true_iff, !negb_isEmpty. tauto.
Qed.

Lemma firstFailure_In (checks : list (bool * string)) (m : string) :
  firstFailure checks = Some m -> In m (map snd checks).
Proof.
  induction checks as [|[ok m'] checks IH]; simpl; [discriminate|].
  destruct ok; [auto|]. intros E; inversion E; auto.
Qed.

Lemma filter_nonempty {A : Type} (keep : A -> bool) (P : A -> Prop)
    (l : list A) :
  (forall a, keep a = true <-> P a) -> Exists P l -> filter keep l <> [].
Proof.
  intros Hk Hex. apply Exists_exists in Hex as (a & Hin & Ha).
  intros E. assert (Hf : In a (filter keep l))
    by (apply filter_In; split; [exact Hin | apply Hk, Ha]).
  rewrite E in Hf. exact Hf.
Qed.

Lemma agreeExcept_weaken (names names' : list string) (p q : Params.t) :
  incl names names' ->
  Params.agreeExcept names p q -> Params.agreeExcept names' p q.
Proof.
  intros Hincl H n f Hin Hout. apply (H n f Hin).
  destruct (existsb (String.eqb n) names) eqn:E; [|reflexivity].
  apply existsb_exists in E as (x & Hx & Hnx).
  assert (Hx' : existsb (String.eqb n) names' = true)
    by (apply existsb_exists; exists x; split; [apply Hincl, Hx | exact Hnx]).
  congruence.
Qed.

(** The checks read none of the unchecked fields. *)
Lemma requiredChecks_agree (p q : Params.t) :
  Params.agreeExcept uncheckedFields p q ->
  requiredChecks p = requiredChecks q.
Proof.
  intros H. agree_all H. destruct p, q. params_proj. subst.
  reflexivity.
Qed.

Lemma throws_agree (names : list string) (p q : Params.t) (m : string) :
  incl names uncheckedFields ->
  Params.agreeExcept names p q ->
  buildFinalRenderPayload p = Throw m <-> buildFinalRenderPayload q = Throw m.
Proof.
  intros Hincl H. rewrite !build_Throw_iff.
  rewrite (requiredChecks_agree p q); [reflexivity|].
  exact (agreeExcept_weaken _ _ _ _ Hincl H).
Qed.

(** C6: in a returned payload that has overlays, the surviving raster
    overlays come first and the surviving vector overlays after them, each
    group in its input order; a raster entry survives iff its data_url is
    non-empty, its x_mm, y_mm, w_mm, h_mm and rotation_deg are finite and
    w_mm > 0 and h_mm > 0; a vector entry survives iff its x_mm, y_mm,
    scale and rotation_deg are finite, scale > 0 and its svg_s3_key is
    non-empty; the other entries are dropped, and no overlay changes
    whether or with which error the call throws. *)
Theorem overlays_ordered_and_pruned (params : Params.t) :
  (forall pl ovs,
     buildFinalRenderPayload params = Return pl ->
     FinalRenderPayload.overlays pl = Some ovs ->
     exists keepR keepV,
       (forall o, keepR o = true <-> rasterSurvives o) /\
       (forall o, keepV o = true <-> vectorSurvives o) /\
       ovs = (map Raster
                (filter keepR
                   (map mapRaster (elements (Params.overlays params))))
              ++ map Vector
                   (filter keepV
                      (map mapVector (elements (Params.svgOverlays params)))))%list)
  /\
  (forall q m,
     Params.agreeExcept ["overlays"; "svgOverlays"] params q ->
     buildFinalRenderPayload params = Throw m
     <-> buildFinalRenderPayload q = Throw m).
Proof.
  split.
  - intros pl ovs Hb Hov. exists keepRaster, keepVector.
    split; [exact keepRaster_spec|]. split; [exact keepVector_spec|].
    assert (Hpl : FinalRenderPayload.overlays pl
                  = nonEmpty (Some (overlays params))).
    { destruct (build_Return_inv _ _ Hb)
        as (w & h & _ & _ & [[_ ->]|[_ (x & y & _ & _ & ->)]]); reflexivity. }
    rewrite Hpl in Hov. unfold nonEmpty in Hov.
    destruct (overlays params) as [|o l] eqn:E; [discriminate|].
    inversion Hov; subst ovs. rewrite <- E.
    unfold overlays, imageOverlays, svgOverlays, elements.
    destruct (asArray (Params.overlays params));
      destruct (asArray (Params.svgOverlays params)); reflexivity.
  - intros q m H. apply (throws_agree ["overlays"; "svgOverlays"]);
      [|exact H].
    intros x [<-|[<-|[]]]; unfold uncheckedFields; simpl; tauto.
Qed.

(** C8: on a successful call, when the filtered custom-fonts collection
    is empty (customFonts absent included) the payload has no
    custom_fonts key, and when the combined filtered overlay sequence is
    empty it has no overlays key; neither key ever holds an empty
    array. *)
Theorem empty_collections_omitted (params : Params.t)
    (pl : FinalRenderPayload.t) :
  buildFinalRenderPayload params = Return pl ->
  (filter keepFont (map mapFont (elements (Params.customFonts params))) = [] ->
   FinalRenderPayload.custom_fonts pl = None) /\
  (overlays params = [] -> FinalRenderPayload.overlays pl = None) /\
  FinalRenderPayload.custom_fonts pl <> Some [] /\
  FinalRenderPayload.overlays pl <> Some [].
Proof.
  intros Hb.
  assert (Hpl : FinalRenderPayload.custom_fonts pl
                = nonEmpty (custom_fonts params)
                /\ FinalRenderPayload.overlays pl
                   = nonEmpty (Some (overlays params))).
  { destruct (build_Return_inv _ _ Hb)
      as (w & h & _ & _ & [[_ ->]|[_ (x & y & _ & _ & ->)]]);
      split; reflexivity. }
  destruct Hpl as [-> ->]. unfold custom_fonts, elements, nonEmpty.
  repeat split.
  - destruct (asArray (Params.customFonts params)); [|reflexivity].
    intros ->. reflexivity.
  - intros ->. reflexivity.
  - destruct (asArray (Params.customFonts params)) as [arr|]; [|discriminate].
    destruct (filter keepFont (map mapFont arr)); discriminate.
  - destruct (overlays params); discriminate.
Qed.

(** C4, as the code has it: when at least one entry of seriesList
    satisfies the per-entry invariants (non-empty start, finite count > 0,
    non-empty font_family, finite font_size_mm > 0, finite x_mm, y_mm,
    letter_spacing_mm and rotation_deg, non-empty trimmed color), the
    entries that violate them cause no failure: the call can only throw
    one of the three request-level errors, it returns when those checks
    pass, and the returned series_list holds exactly the satisfying
    entries in their original relative order. *)
Theorem series_entries_pruned (params : Params.t) (arr : list value) :
  Params.seriesList params = VArray arr ->
  Exists entryInvariants (map mapSeries arr) ->
  (forall m, buildFinalRenderPayload params = Throw m ->
     In m (map snd (requestChecks params))) /\
  (firstFailure (requestChecks params) = None ->
   exists pl, buildFinalRenderPayload params = Return pl) /\
  (forall pl, buildFinalRenderPayload params = Return pl ->
     exists keep,
       (forall s, keep s = true <-> entryInvariants s) /\
       FinalRenderPayload.series_list pl
       = Some (filter keep (map mapSeries arr))).
Proof.
  intros Harr Hex.
  assert (Hl : series_list params
               = Some (filter keepSeries (map mapSeries arr)))
    by (unfold series_list; rewrite Harr; reflexivity).
  pose proof (filter_nonempty _ _ _ keepSeries_spec Hex) as Hne.
  assert (Hhas : hasSeriesList params = true).
  { unfold hasSeriesList. rewrite Hl.
    destruct (filter keepSeries (map mapSeries arr)); [contradiction|].
    reflexivity. }
  assert (Hchk : firstFailure (requiredChecks params)
                 = firstFailure (requestChecks params)).
  { unfold requiredChecks. rewrite firstFailure_app, Hhas.
    destruct (firstFailure (requestChecks params)); reflexivity. }
  repeat split.
  - intros m Hb. apply firstFailure_In. rewrite <- Hchk.
    apply build_Throw_iff, Hb.
  - intros Hreq. apply build_Return_iff. rewrite Hchk. exact Hreq.
  - intros pl Hb. exists keepSeries. split; [exact keepSeries_spec|].
    destruct (build_Return_inv _ _ Hb) as (w & h & _ & _ & [[_ ->]|[Hno _]]).
    + exact Hl.
    + rewrite Hhas in Hno. discriminate.
Qed.

End Collections.

(** ** The storage key, the step and the coordinates *)

Section Fields.

Context {host : Host}.

Lemma StringOrEmpty_string (d : string) : StringOrEmpty (VString d) = d.
Proof. unfold StringOrEmpty. destruct d; reflexivity. Qed.

Lemma payload_of_build (params : Params.t) (pl : FinalRenderPayload.t) :
  buildFinalRenderPayload params = Return pl ->
  exists w h series list, pl = payload params w h series list.
Proof.
  intros Hb.
  destruct (build_Return_inv _ _ Hb)
    as (w & h & _ & _ & [[_ ->]|[_ (x & y & _ & _ & ->)]]);
    do 4 eexists; reflexivity.
Qed.

(** C5: on every successful call svg_s3_key is 'documents/raw/' followed
    by the trimmed documentId and '.svg'. *)
Theorem svg_key_derived (params : Params.t) (pl : FinalRenderPayload.t) :
  buildFinalRenderPayload params = Return pl ->
  FinalRenderPayload.svg_s3_key pl
  = "documents/raw/"
    ++ Str.trim (StringOrEmpty (Params.documentId params)) ++ ".svg"
  /\
  (forall d, Params.documentId params = VString d ->
     FinalRenderPayload.svg_s3_key pl
     = "documents/raw/" ++ Str.trim d ++ ".svg").
Proof.
  intros Hb. destruct (payload_of_build _ _ Hb) as (w & h & sr & l & ->).
  cbn [payload FinalRenderPayload.svg_s3_key].
  unfold svg_s3_key, documentId. split; [reflexivity|].
  intros d ->. rewrite StringOrEmpty_string. reflexivity.
Qed.

Lemma stepField_spec (n : number) : stepPresentIff n (stepField n).
Proof.
  unfold stepPresentIff, stepField, strict_neq.
  destruct (is_finite n); destruct (PrimFloat.eqb n one); cbn [andb negb];
    (split; [split|]);
    try (intros [v E]; discriminate E);
    try (intros [E1 E2]; discriminate);
    try (intros v E; inversion E; reflexivity);
    try (intros _; eauto).
Qed.

Lemma stepField_verbatim (n : number) :
  is_finite n = true -> PrimFloat.eqb n one = false -> stepField n = Some n.
Proof.
  intros Hf Hne. unfold stepField, strict_neq. rewrite Hf, Hne. reflexivity.
Qed.

Lemma series_of_list_path (params : Params.t) (pl : FinalRenderPayload.t)
    (l : list Series.t) :
  buildFinalRenderPayload params = Return pl ->
  FinalRenderPayload.series_list pl = Some l ->
  hasSeriesList params = true /\
  l = filter keepSeries (map mapSeries (elements (Params.seriesList params))) /\
  exists e, FinalRenderPayload.series pl = Some e /\ In e l.
Proof.
  intros Hb Hl.
  destruct (build_Return_inv _ _ Hb)
    as (w & h & _ & _ & [[Hhas ->]|[_ (x & y & _ & _ & ->)]]);
    cbn [payload FinalRenderPayload.series_list FinalRenderPayload.series] in *;
    [|discriminate].
  split; [exact Hhas|].
  unfold hasSeriesList in Hhas. rewrite Hl in *.
  destruct l as [|e l]; [discriminate|].
  split.
  - unfold series_list, elements in *.
    destruct (asArray (Params.seriesList params)); [|discriminate].
    inversion Hl; reflexivity.
  - exists e. split; [reflexivity | left; reflexivity].
Qed.

Lemma series_of_single_path (params : Params.t) (pl : FinalRenderPayload.t) :
  buildFinalRenderPayload params = Return pl ->
  hasSeriesList params = false ->
  exists x y, FinalRenderPayload.series pl = Some (singleSeries params x y).
Proof.
  intros Hb Hno.
  destruct (build_Return_inv _ _ Hb)
    as (w & h & _ & _ & [[Hhas _]|[_ (x & y & _ & _ & ->)]]).
  - rewrite Hno in Hhas. discriminate.
  - exists x, y. reflexivity.
Qed.

(** C7: in the emitted singular series and in every emitted series_list
    entry (the compatibility series of the plural shape is one of them)
    the step key is present iff the supplied step coerces to a finite
    number different from 1, and then holds that number; a step of 1 or
    an absent step gives no step key and a step of 2 gives step: 2. *)
Theorem step_present_iff_not_default (params : Params.t)
    (pl : FinalRenderPayload.t) :
  buildFinalRenderPayload params = Return pl ->
  (hasSeriesList params = false ->
   exists s, FinalRenderPayload.series pl = Some s /\
     stepPresentIff (ToNumber (Params.seriesStep params)) (Series.step s) /\
     (Params.seriesStep params = VNumber one \/
      Params.seriesStep params = VUndefined -> Series.step s = None) /\
     (Params.seriesStep params = VNumber two -> Series.step s = Some two))
  /\
  (forall l, FinalRenderPayload.series_list pl = Some l ->
     (exists e, FinalRenderPayload.series pl = Some e /\ In e l) /\
     (forall e, In e l ->
        exists r, In r (elements (Params.seriesList params)) /\
          e = mapSeries r /\
          stepPresentIff (ToNumber (get r "step")) (Series.step e) /\
          (get r "step" = VNumber one \/ get r "step" = VUndefined ->
           Series.step e = None) /\
          (get r "step" = VNumber two -> Series.step e = Some two))).
Proof.
  intros Hb. split.
  - intros Hno. destruct (series_of_single_path _ _ Hb Hno) as (x & y & Hs).
    exists (singleSeries params x y). split; [exact Hs|].
    cbn [singleSeries Series.step]. unfold step.
    split; [apply stepField_spec|].
    split; [intros [->| ->] | intros ->]; reflexivity.
  - intros l Hl.
    destruct (series_of_list_path _ _ _ Hb Hl) as (_ & -> & He).
    split; [exact He|].
    intros e Hin. apply filter_In in Hin as [Hin _].
    apply in_map_iff in Hin as (r & <- & Hr).
    exists r. split; [exact Hr|]. split; [reflexivity|].
    cbn [mapSeries Series.step].
    split; [apply stepField_spec|].
    split; [intros [->| ->] | intros ->]; reflexivity.
Qed.

(** C10: the step is never checked for sign or integrality: a finite step
    different from 1 (0, a negative number and 2.5 among them) is put
    verbatim in the step key of the emitted series or series_list entry;
    the value of seriesStep changes neither whether nor with which error
    the call throws, and the step of a list entry does not change whether
    the entry survives. *)
Theorem step_is_emitted_unchecked (params : Params.t) :
  (forall pl, buildFinalRenderPayload params = Return pl ->
     hasSeriesList params = false ->
     is_finite (ToNumber (Params.seriesStep params)) = true ->
     PrimFloat.eqb (ToNumber (Params.seriesStep params)) one = false ->
     exists s, FinalRenderPayload.series pl = Some s /\
       Series.step s = Some (ToNumber (Params.seriesStep params)))
  /\
  (forall pl l e, buildFinalRenderPayload params = Return pl ->
     FinalRenderPayload.series_list pl = Some l -> In e l ->
     exists r, In r (elements (Params.seriesList params)) /\
       e = mapSeries r /\
       (is_finite (ToNumber (get r "step")) = true ->
        PrimFloat.eqb (ToNumber (get r "step")) one = false ->
        Series.step e = Some (ToNumber (get r "step"))))
  /\
  (forall q m, Params.agreeExcept ["seriesStep"] params q ->
     buildFinalRenderPayload params = Throw m
     <-> buildFinalRenderPayload q = Throw m)
  /\
  (forall props v,
     keepSeries (mapSeries (VObject (("step", v) :: props)))
     = keepSeries (mapSeries (VObject props)))
  /\
  (forall n, n = zero \/ n = (-3)%float \/ n = 2.5%float ->
     is_finite n = true /\ PrimFloat.eqb n one = false /\
     Series.step (mapSeries (VObject [("step", VNumber n)])) = Some n).
Proof.
  split; [|split; [|split; [|split]]].
  - intros pl Hb Hno Hf Hne.
    destruct (series_of_single_path _ _ Hb Hno) as (x & y & Hs).
    exists (singleSeries params x y). split; [exact Hs|].
    apply stepField_verbatim; assumption.
  - intros pl l e Hb Hl Hin.
    destruct (series_of_list_path _ _ _ Hb Hl) as (_ & -> & _).
    apply filter_In in Hin as [Hin _].
    apply in_map_iff in Hin as (r & <- & Hr).
    exists r. split; [exact Hr|]. split; [reflexivity|].
    intros Hf Hne. apply stepField_verbatim; assumption.
  - intros q m H. apply (throws_agree ["seriesStep"]); [|exact H].
    intros x [<-|[]]; unfold uncheckedFields; simpl; tauto.
  - intros props v. reflexivity.
  - intros n [->|[->| ->]]; repeat split; reflexivity.
Qed.

Lemma entryInvariants_with (s : Series.t) :
  entryInvariants s
  <-> entryInvariantsWith (is_finite (Series.x_mm s))
        (is_finite (Series.y_mm s)) s.
Proof.
  unfold entryInvariants, entryInvariantsAsStated, entryInvariantsWith. tauto.
Qed.

Lemma coordinate_of_nullOrEmpty (v : value) :
  StringToNumber "" = zero -> nullOrEmpty v ->
  ToNumber v = zero /\ is_finite (ToNumber v) = true.
Proof.
  intros He [->| ->]; cbn [ToNumber]; rewrite ?He; split; reflexivity.
Qed.

Lemma toFiniteNumberOrNull_missing (v : value) :
  nullOrMissing v -> toFiniteNumberOrNull v = None.
Proof. intros [->| ->]; reflexivity. Qed.

Lemma surviving_entry_emitted (params : Params.t) (arr : list value)
    (r : value) (pl : FinalRenderPayload.t) :
  Params.seriesList params = VArray arr -> In r arr ->
  entryInvariants (mapSeries r) ->
  buildFinalRenderPayload params = Return pl ->
  exists l, FinalRenderPayload.series_list pl = Some l /\ In (mapSeries r) l.
Proof.
  intros Harr Hr Hinv Hb.
  assert (Hin : In (mapSeries r) (filter keepSeries (map mapSeries arr))).
  { apply filter_In. split; [apply in_map, Hr | apply keepSeries_spec, Hinv]. }
  assert (Hl : series_list params
               = Some (filter keepSeries (map mapSeries arr)))
    by (unfold series_list; rewrite Harr; reflexivity).
  exists (filter keepSeries (map mapSeries arr)). split; [|exact Hin].
  destruct (build_Return_inv _ _ Hb) as (w & h & _ & _ & [[_ ->]|[Hno _]]).
  - exact Hl.
  - unfold hasSeriesList in Hno. rewrite Hl in Hno.
    destruct (filter keepSeries (map mapSeries arr)); [contradiction|].
    discriminate.
Qed.

(** C9: a seriesList entry whose xMm or yMm is null (or, on a host whose
    Number('') is 0, the empty string) gets that coordinate coerced to 0,
    which is finite, so the coordinate passes the finiteness filter and
    the entry, when its other invariants hold, is emitted with the
    coordinate equal to 0; on the singular path a null or missing
    seriesXMm or seriesYMm makes the call throw, with the coordinates
    error as soon as the checks before it pass. *)
Theorem null_coordinate_list_versus_single :
  StringToNumber "" = zero ->
  (forall r, nullOrEmpty (get r "xMm") ->
     Series.x_mm (mapSeries r) = zero /\
     is_finite (Series.x_mm (mapSeries r)) = true)
  /\
  (forall r, nullOrEmpty (get r "yMm") ->
     Series.y_mm (mapSeries r) = zero /\
     is_finite (Series.y_mm (mapSeries r)) = true)
  /\
  (forall params arr r pl,
     Params.seriesList params = VArray arr -> In r arr ->
     buildFinalRenderPayload params = Return pl ->
     (nullOrEmpty (get r "xMm") /\
      entryInvariantsWith true (is_finite (Series.y_mm (mapSeries r)))
        (mapSeries r))
     \/
     (nullOrEmpty (get r "yMm") /\
      entryInvariantsWith (is_finite (Series.x_mm (mapSeries r))) true
        (mapSeries r)) ->
     exists l, FinalRenderPayload.series_list pl = Some l /\
       In (mapSeries r) l)
  /\
  (forall params,
     hasSeriesList params = false ->
     nullOrMissing (Params.seriesXMm params) \/
     nullOrMissing (Params.seriesYMm params) ->
     (exists m, buildFinalRenderPayload params = Throw m) /\
     (firstFailure (requestChecks params
                    ++ firstn 2 (singleSeriesChecks params)) = None ->
      buildFinalRenderPayload params
      = Throw "series requires object_mm coordinates (missing seriesXMm/seriesYMm)")).
Proof.
  intros He. split; [|split; [|split]].
  - intros r Hx. exact (coordinate_of_nullOrEmpty _ He Hx).
  - intros r Hy. exact (coordinate_of_nullOrEmpty _ He Hy).
  - intros params arr r pl Harr Hr Hb Hcase.
    apply (surviving_entry_emitted params arr r pl Harr Hr); [|exact Hb].
    apply entryInvariants_with.
    destruct Hcase as [[Hx Hinv]|[Hy Hinv]].
    + destruct (coordinate_of_nullOrEmpty _ He Hx) as [_ Hf].
      cbn [mapSeries Series.x_mm] in *. rewrite Hf. exact Hinv.
    + destruct (coordinate_of_nullOrEmpty _ He Hy) as [_ Hf].
      cbn [mapSeries Series.y_mm] in *. rewrite Hf. exact Hinv.
  - intros params Hno Hmiss.
    assert (Hc : coordinatesOk params = false).
    { unfold coordinatesOk, xMm, yMm.
      destruct Hmiss as [H|H]; rewrite (toFiniteNumberOrNull_missing _ H);
        [reflexivity|].
      destruct (toFiniteNumberOrNull (Params.seriesXMm params)); reflexivity. }
    assert (Hthrow : firstFailure (requestChecks params
                       ++ firstn 2 (singleSeriesChecks params)) = None ->
                     buildFinalRenderPayload params
                     = Throw "series requires object_mm coordinates (missing seriesXMm/seriesYMm)").
    { intros Hpre. apply build_Throw_iff. revert Hpre.
      unfold requiredChecks, requestChecks, singleSeriesChecks.
      rewrite Hno, Hc. cbn [app firstn firstFailure].
      repeat match goal with
             | |- context [if ?c then _ else _] => destruct c
             end; try discriminate; reflexivity. }
    split; [|exact Hthrow].
    pose proof (build_outcome params) as Ho.
    destruct (firstFailure (requiredChecks params)) as [m|] eqn:E;
      [exists m; exact Ho|].
    exfalso. revert E.
    unfold requiredChecks, requestChecks, singleSeriesChecks.
    rewrite Hno, Hc. cbn [app firstFailure].
    repeat match goal with
           | |- context [if ?c then _ else _] => destruct c
           end; discriminate.
Qed.

End Fields.

(** ** The first variant of the builder *)

Section LegacyBuilder.

Context {host : Host}.

(** X1: the first variant throws the error of the first check that
    fails, all eleven checks (job_id, documentId, object size, then the
    eight series checks) being run on every call in that order, and
    returns a payload when none fails. *)
Theorem legacy_first_failing_check_is_thrown (params : Params.t) :
  match firstFailure (requestChecks params ++ singleSeriesChecks params) with
  | Some message =>
      Legacy.buildFinalRenderPayload params = Throw message
  | None => exists pl, Legacy.buildFinalRenderPayload params = Return pl
  end.
Proof.
  unfold Legacy.buildFinalRenderPayload, requestChecks, singleSeriesChecks,
    objectSizeOk, coordinatesOk.
  cbn [firstFailure app].
  destruct (Str.isEmpty (job_id params)); cbn [negb]; [reflexivity|].
  destruct (Str.isEmpty (documentId params)); cbn [negb]; [reflexivity|].
  destruct (toFiniteNumberOrNull (Params.objectWidthMm params)) as [w|];
    [|reflexivity].
  destruct (toFiniteNumberOrNull (Params.objectHeightMm params)) as [h|];
    [|reflexivity].
  destruct (gt w zero && gt h zero); cbn [negb]; [|reflexivity].
  destruct (Str.isEmpty (seriesStart params)); cbn [negb]; [reflexivity|].
  destruct (is_finite (count params) && gt (count params) zero);
    cbn [negb]; [|reflexivity].
  destruct (xMm params) as [x|]; [|reflexivity].
  destruct (yMm params) as [y|]; [|reflexivity].
  destruct (Str.isEmpty (font_family params)); cbn [negb]; [reflexivity|].
  destruct (is_finite (font_size_mm params) && gt (font_size_mm params) zero);
    cbn [negb]; [|reflexivity].
  destruct (is_finite (letter_spacing_mm params)); cbn [negb]; [|reflexivity].
  destruct (is_finite (series_rotation_deg params)); cbn [negb]; [|reflexivity].
  destruct (Str.isEmpty (color params)); cbn [negb]; [reflexivity|].
  eexists; reflexivity.
Qed.

Lemma legacy_step (params : Params.t) (x y : number) (w h : number) :
  withSeriesStep (stepField (step params))
    (payload params w h (Some (Legacy.series params x y)) None)
  = payload params w h (Some (singleSeries params x y)) None.
Proof. reflexivity. Qed.

Lemma withSeriesStep_None (params : Params.t) (x y : number) (w h : number) :
  withSeriesStep None
    (payload params w h (Some (Legacy.series params x y)) None)
  = payload params w h (Some (Legacy.series params x y)) None.
Proof. reflexivity. Qed.

(** X2: when no seriesList entry survives (or no list is given) the
    later builder does what the first variant does, the step key apart:
    it throws the same error, or returns the first variant's payload with
    the step key computed from seriesStep; when seriesStep gives no step
    key (not finite, or 1) the two results are the same. *)
Theorem builder_extends_legacy (params : Params.t) :
  hasSeriesList params = false ->
  buildFinalRenderPayload params
  = mapReturn (withSeriesStep (stepField (step params)))
      (Legacy.buildFinalRenderPayload params)
  /\
  (stepField (step params) = None ->
   buildFinalRenderPayload params = Legacy.buildFinalRenderPayload params).
Proof.
  intros Hno.
  assert (Hmap : forall st,
            st = stepField (step params) ->
            buildFinalRenderPayload params
            = mapReturn (withSeriesStep st)
                (Legacy.buildFinalRenderPayload params)).
  { intros st ->.
    unfold buildFinalRenderPayload, Legacy.buildFinalRenderPayload.
    rewrite Hno.
    repeat match goal with
           | |- (if ?c then _ else _) = _ => destruct c; [reflexivity|]
           | |- match ?c with Some _ => _ | None => _ end = _ =>
               destruct c; [|reflexivity]
           end.
    cbn [mapReturn]. rewrite legacy_step. reflexivity. }
  split; [apply Hmap; reflexivity|].
  intros Hst. rewrite (Hmap None (eq_sym Hst)).
  unfold Legacy.buildFinalRenderPayload.
  repeat match goal with
         | |- _ = (if ?c then _ else _) => destruct c; [reflexivity|]
         | |- _ = match ?c with Some _ => _ | None => _ end =>
             destruct c; [|reflexivity]
         end.
  reflexivity.
Qed.

(** X3: every call the first variant accepts the later builder accepts
    too, whatever seriesList and seriesStep hold, and the two payloads
    have the same job_id, svg_s3_key, custom_fonts, overlays and
    object_mm. *)
Theorem legacy_accepted_is_accepted (params : Params.t)
    (old : FinalRenderPayload.t) :
  Legacy.buildFinalRenderPayload params = Return old ->
  exists pl,
    buildFinalRenderPayload params = Return pl /\
    FinalRenderPayload.job_id pl = FinalRenderPayload.job_id old /\
    FinalRenderPayload.svg_s3_key pl = FinalRenderPayload.svg_s3_key old /\
    FinalRenderPayload.custom_fonts pl = FinalRenderPayload.custom_fonts old /\
    FinalRenderPayload.overlays pl = FinalRenderPayload.overlays old /\
    FinalRenderPayload.object_mm pl = FinalRenderPayload.object_mm old.
Proof.
  unfold buildFinalRenderPayload, Legacy.buildFinalRenderPayload.
  destruct (Str.isEmpty (job_id params)); [discriminate|].
  destruct (Str.isEmpty (documentId params)); [discriminate|].
  destruct (toFiniteNumberOrNull (Params.objectWidthMm params)) as [w|];
    [|discriminate].
  destruct (toFiniteNumberOrNull (Params.objectHeightMm params)) as [h|];
    [|discriminate].
  destruct (negb (gt w zero && gt h zero)); [discriminate|].
  destruct (Str.isEmpty (seriesStart params)); [discriminate|].
  destruct (negb (is_finite (count params) && gt (count params) zero));
    [discriminate|].
  destruct (xMm params) as [x|]; [|discriminate].
  destruct (yMm params) as [y|]; [|discriminate].
  destruct (Str.isEmpty (font_family params)); [discriminate|].
  destruct (negb (is_finite (font_size_mm params)
                  && gt (font_size_mm params) zero)); [discriminate|].
  destruct (negb (is_finite (letter_spacing_mm params))); [discriminate|].
  destruct (negb (is_finite (series_rotation_deg params))); [discriminate|].
  destruct (Str.isEmpty (color params)); [discriminate|].
  intros E; inversion E; subst old.
  destruct (hasSeriesList params); eexists; (split; [reflexivity|]);
    repeat split; reflexivity.
Qed.

End LegacyBuilder.

(** ** Invariants of a returned payload *)

Section Invariants.

Context {host : Host}.

Lemma toFiniteNumberOrNull_finite (v : value) (n : number) :
  toFiniteNumberOrNull v = Some n -> is_finite n = true.
Proof.
  unfold toFiniteNumberOrNull.
  destruct v; try discriminate;
    match goal with
    | |- (if is_finite ?x then _ else _) = _ -> _ =>
        destruct (is_finite x) eqn:E; [|discriminate];
        intros H; inversion H; subst; exact E
    end.
Qed.

Lemma toFiniteNumberOrNull_nullOrFinite (v : value) :
  nullOrFinite (toFiniteNumberOrNull v).
Proof.
  destruct (toFiniteNumberOrNull v) as [n|] eqn:E; simpl; [|exact I].
  exact (toFiniteNumberOrNull_finite _ _ E).
Qed.

Lemma alignment_cases (params : Params.t) :
  alignment params = "left" \/ alignment params = "center"
  \/ alignment params = "right".
Proof.
  unfold alignment.
  set (raw := Str.toLowerCase
                (Str.trim (StringOrEmpty (Params.objectAlignment params)))).
  destruct (String.eqb raw "left") eqn:El;
    [apply String.eqb_eq in El; auto|].
  destruct (String.eqb raw "right") eqn:Er;
    [apply String.eqb_eq in Er; auto|].
  destruct (String.eqb raw "center") eqn:Ec;
    [apply String.eqb_eq in Ec; auto|].
  cbn [orb]. auto.
Qed.

Lemma rotation_deg_finite (params : Params.t) :
  is_finite (rotation_deg params) = true.
Proof.
  unfold rotation_deg.
  destruct (is_finite (ToNumber (Params.objectRotationDeg params))) eqn:E;
    [exact E | reflexivity].
Qed.

Lemma cut_margin_mm_range (params : Params.t) :
  is_finite (cut_margin_mm params) = true /\
  ge (cut_margin_mm params) zero = true.
Proof.
  unfold cut_margin_mm.
  destruct (is_finite (ToNumber (Params.objectCutMarginMm params))) eqn:Ef;
    destruct (ge (ToNumber (Params.objectCutMarginMm params)) zero) eqn:Eg;
    cbn [andb]; split; try assumption; reflexivity.
Qed.

(** The guards that every returned payload has passed. *)
Lemma build_Return_guards (params : Params.t) (pl : FinalRenderPayload.t) :
  buildFinalRenderPayload params = Return pl ->
  exists w h sr l,
    pl = payload params w h sr l /\
    Str.isEmpty (job_id params) = false /\
    Str.isEmpty (documentId params) = false /\
    toFiniteNumberOrNull (Params.objectWidthMm params) = Some w /\
    toFiniteNumberOrNull (Params.objectHeightMm params) = Some h /\
    gt w zero = true /\ gt h zero = true.
Proof.
  unfold buildFinalRenderPayload.
  destruct (Str.isEmpty (job_id params)); [discriminate|].
  destruct (Str.isEmpty (documentId params)); [discriminate|].
  destruct (toFiniteNumberOrNull (Params.objectWidthMm params)) as [w|];
    [|discriminate].
  destruct (toFiniteNumberOrNull (Params.objectHeightMm params)) as [h|];
    [|discriminate].
  destruct (gt w zero) eqn:Ew; [|discriminate].
  destruct (gt h zero) eqn:Eh; [|discriminate].
  cbn [andb negb]. intros Hb.
  assert (Hpl : exists sr l, pl = payload params w h sr l).
  { destruct (hasSeriesList params); [inversion Hb; eauto|].
    repeat match type of Hb with
           | (if ?c then _ else _) = _ => destruct c; [discriminate|]
           | match ?c with Some _ => _ | None => _ end = _ =>
               destruct c; [|discriminate]
           end.
    inversion Hb; eauto. }
  destruct Hpl as (sr & l & ->). exists w, h, sr, l.
  repeat split; try reflexivity; assumption.
Qed.

(** X4: the object_mm of every returned payload has finite w and h above
    0, x_mm and y_mm that are null or finite, an alignment among left,
    center and right, a finite rotation_deg and a finite cut_margin_mm
    that is at least 0, whatever the caller supplied. *)
Theorem returned_object_invariants (params : Params.t)
    (pl : FinalRenderPayload.t) :
  buildFinalRenderPayload params = Return pl ->
  objectInvariants (FinalRenderPayload.object_mm pl).
Proof.
  intros Hb.
  destruct (build_Return_guards _ _ Hb)
    as (w & h & sr & l & -> & _ & _ & Hw & Hh & Hwp & Hhp).
  cbn [payload FinalRenderPayload.object_mm].
  unfold objectInvariants, finitePositiveNumber, object_mm.
  cbn [ObjectMm.w ObjectMm.h ObjectMm.x_mm ObjectMm.y_mm ObjectMm.alignment
       ObjectMm.rotation_deg ObjectMm.cut_margin_mm].
  pose proof (toFiniteNumberOrNull_finite _ _ Hw).
  pose proof (toFiniteNumberOrNull_finite _ _ Hh).
  pose proof (cut_margin_mm_range params) as [Hcf Hcg].
  repeat split; try assumption.
  - apply toFiniteNumberOrNull_nullOrFinite.
  - apply toFiniteNumberOrNull_nullOrFinite.
  - apply alignment_cases.
  - apply rotation_deg_finite.
Qed.

Lemma filter_Forall {A : Type} (keep : A -> bool) (P : A -> Prop)
    (l : list A) :
  (forall a, keep a = true -> P a) -> Forall P (filter keep l).
Proof.
  intros Hk. apply Forall_forall. intros a Hin.
  apply filter_In in Hin as [_ Ha]. exact (Hk a Ha).
Qed.

(** X5: every returned payload has a series key, and its series (the
    singular one, or the first list entry on the plural path) meets all
    the per-entry invariants: non-empty start, font family and color,
    finite count and font size above 0, finite coordinates, letter
    spacing and rotation; so does every entry of a returned series_list,
    which is never empty. *)
Theorem returned_series_invariants (params : Params.t)
    (pl : FinalRenderPayload.t) :
  buildFinalRenderPayload params = Return pl ->
  (exists s, FinalRenderPayload.series pl = Some s /\
     entryInvariants s /\ Series.anchor_space s = "object_mm") /\
  (forall l, FinalRenderPayload.series_list pl = Some l ->
     l <> [] /\ Forall entryInvariants l).
Proof.
  intros Hb.
  assert (Hall : forall arr,
            Forall (fun s => entryInvariants s
                             /\ Series.anchor_space s = "object_mm")
              (filter keepSeries (map mapSeries arr))).
  { intros arr. apply Forall_forall. intros s Hin.
    apply filter_In in Hin as [Hin Hk].
    split; [apply keepSeries_spec, Hk|].
    apply in_map_iff in Hin as (r & <- & _). reflexivity. }
  destruct (build_Return_inv _ _ Hb)
    as (w & h & _ & _ & [[Hhas ->]|[Hno (x & y & Hx & Hy & ->)]]);
    cbn [payload FinalRenderPayload.series FinalRenderPayload.series_list].
  - unfold hasSeriesList, series_list in *.
    destruct (asArray (Params.seriesList params)) as [arr|]; [|discriminate].
    specialize (Hall arr).
    destruct (filter keepSeries (map mapSeries arr)) as [|e l] eqn:E;
      [discriminate|].
    split.
    + exists e. split; [reflexivity|]. exact (Forall_inv Hall).
    + intros l' Hl'. inversion Hl'; subst l'. split; [discriminate|].
      eapply Forall_impl; [|exact Hall]. intros a [Ha _]. exact Ha.
  - split; [|discriminate].
    exists (singleSeries params x y). split; [reflexivity|].
    split; [|reflexivity].
    assert (Hchk : firstFailure (requiredChecks params) = None)
      by (apply build_Return_iff; eexists; exact Hb).
    unfold requiredChecks in Hchk. rewrite firstFailure_app, Hno in Hchk.
    destruct (firstFailure (requestChecks params)); [discriminate|].
    unfold singleSeriesChecks in Hchk. cbn [firstFailure] in Hchk.
    apply keepSeries_spec. unfold keepSeries.
    cbn [singleSeries Series.start Series.count Series.font_family
         Series.font_size_mm Series.x_mm Series.y_mm
         Series.letter_spacing_mm Series.rotation_deg Series.color].
    unfold xMm, yMm in Hx, Hy.
    rewrite (toFiniteNumberOrNull_finite _ _ Hx),
      (toFiniteNumberOrNull_finite _ _ Hy).
    repeat match type of Hchk with
           | (if ?c then _ else _) = None =>
               destruct c eqn:?; [|discriminate Hchk]
           end.
    repeat match goal with
           | H : negb _ = true |- _ => rewrite H
           | H : _ && _ = true |- _ =>
               apply andb_true_iff in H; destruct H as [? ?]
           end.
    repeat match goal with
           | H : is_finite _ = true |- _ => rewrite H
           | H : gt _ _ = true |- _ => rewrite H
           end.
    reflexivity.
Qed.








Lemma finitePositive_Forall (arr : list value) :
  Forall finitePositiveNumber (finitePositive arr).
Proof.
  unfold finitePositive. apply filter_Forall.
  intros n Hn. apply andb_true_iff in Hn. exact Hn.
Qed.

(** X8: every per-letter font size in a returned payload is finite and
    above 0; the singular series carries the key only with a non-empty
    array (never undefined, never empty), the filtered
    perLetterFontSizeMm, whereas a list entry always carries the key,
    holding undefined or the filtered array, empty or not. *)
Theorem per_letter_sizes_filtered (params : Params.t)
    (pl : FinalRenderPayload.t) :
  buildFinalRenderPayload params = Return pl ->
  (hasSeriesList params = false ->
   exists s, FinalRenderPayload.series pl = Some s /\
     match Series.per_letter_font_size_mm s with
     | Omitted =>
         forall arr, asArray (Params.perLetterFontSizeMm params) = Some arr ->
           filter (fun n => is_finite n && gt n zero) (map ToNumber arr) = []
     | HoldsUndefined => False
     | Holds sizes =>
         sizes <> [] /\ Forall finitePositiveNumber sizes /\
         exists arr, asArray (Params.perLetterFontSizeMm params) = Some arr /\
           sizes = filter (fun n => is_finite n && gt n zero)
                     (map ToNumber arr)
     end)
  /\
  (forall l e, FinalRenderPayload.series_list pl = Some l -> In e l ->
     match Series.per_letter_font_size_mm e with
     | Omitted => False
     | HoldsUndefined => True
     | Holds sizes => Forall finitePositiveNumber sizes
     end).
Proof.
  intros Hb. split.
  - intros Hno. destruct (series_of_single_path _ _ Hb Hno) as (x & y & Hs).
    exists (singleSeries params x y). split; [exact Hs|].
    cbn [singleSeries Series.per_letter_font_size_mm].
    unfold per_letter_font_size_mm.
    destruct (asArray (Params.perLetterFontSizeMm params)) as [arr|];
      [|discriminate].
    pose proof (finitePositive_Forall arr) as Hall.
    unfold finitePositive in *.
    destruct (filter (fun v : float => is_finite v && gt v zero)
                (map ToNumber arr)) as [|v rest] eqn:E.
    + intros arr' Harr'. inversion Harr'; subst arr'. exact E.
    + split; [discriminate|]. split; [exact Hall|].
      exists arr. split; [reflexivity | symmetry; exact E].
  - intros l e Hl Hin.
    destruct (series_of_list_path _ _ _ Hb Hl) as (_ & -> & _).
    apply filter_In in Hin as [Hin _].
    apply in_map_iff in Hin as (r & <- & _).
    cbn [mapSeries Series.per_letter_font_size_mm].
    destruct (asArray (get r "perLetterFontSizeMm")) as [arr|]; [|exact I].
    apply finitePositive_Forall.
Qed.

End Invariants.

(** ** Strings and their code units *)

Section TextFacts.

Lemma list_ascii_of_string_app (s t : string) :
  list_ascii_of_string (s ++ t)
  = (list_ascii_of_string s ++ list_ascii_of_string t)%list.
Proof. induction s as [|c s IH]; simpl; [reflexivity | rewrite IH; reflexivity]. Qed.

Lemma string_of_list_ascii_app (l1 l2 : list ascii) :
  string_of_list_ascii (l1 ++ l2)
  = string_of_list_ascii l1 ++ string_of_list_ascii l2.
Proof. induction l1 as [|c l1 IH]; simpl; [reflexivity | rewrite IH; reflexivity]. Qed.

Lemma length_list_ascii_of_string (s : string) :
  List.length (list_ascii_of_string s) = String.length s.
Proof. induction s as [|c s IH]; simpl; [reflexivity | rewrite IH; reflexivity]. Qed.

Lemma length_string_of_list_ascii (l : list ascii) :
  String.length (string_of_list_ascii l) = List.length l.
Proof. induction l as [|c l IH]; simpl; [reflexivity | rewrite IH; reflexivity]. Qed.

Lemma string_length_append (s t : string) :
  String.length (s ++ t) = (String.length s + String.length t)%nat.
Proof. induction s as [|c s IH]; simpl; [reflexivity | rewrite IH; reflexivity]. Qed.

Lemma string_append_empty_r (s : string) : s ++ "" = s.
Proof. induction s as [|c s IH]; simpl; [reflexivity | rewrite IH; reflexivity]. Qed.

Lemma string_append_assoc (s t u : string) : (s ++ t) ++ u = s ++ (t ++ u).
Proof. induction s as [|c s IH]; simpl; [reflexivity | rewrite IH; reflexivity]. Qed.

Lemma substring_length (n m : nat) (s : string) :
  (n + m <= String.length s)%nat -> String.length (substring n m s) = m.
Proof.
  revert n m. induction s as [|c s IH]; intros n m H.
  - simpl in H. assert (n = 0%nat) by lia. assert (m = 0%nat) by lia.
    subst. reflexivity.
  - destruct n as [|n].
    + destruct m as [|m]; [reflexivity|]. simpl.
      rewrite (IH 0%nat m); [reflexivity | simpl in H; lia].
    + simpl. apply IH. simpl in H. lia.
Qed.

Lemma padStart_length (n : nat) (s : string) :
  String.length (Text.padStart n s) = Nat.max n (String.length s).
Proof.
  unfold Text.padStart.
  rewrite string_length_append, length_string_of_list_ascii, repeat_length.
  lia.
Qed.

Lemma lastChars_length (n : nat) (s : string) :
  (n <= String.length s)%nat -> String.length (Text.lastChars n s) = n.
Proof. intros H. unfold Text.lastChars. apply substring_length. lia. Qed.

(** Padding to [n] and keeping the last [n] code units when there are
    more gives exactly [n] code units. *)
Lemma fixed_width_length (n : nat) (s : string) :
  String.length
    (if (n <? String.length (Text.padStart n s))%nat
     then Text.lastChars n (Text.padStart n s)
     else Text.padStart n s) = n.
Proof.
  pose proof (padStart_length n s) as Hp.
  destruct (n <? String.length (Text.padStart n s))%nat eqn:E.
  - apply lastChars_length. apply Nat.ltb_lt in E. lia.
  - apply Nat.ltb_ge in E. lia.
Qed.

Lemma isDigit_not_whiteSpace (c : ascii) :
  Text.isDigit c = true -> Str.isWhiteSpace c = false.
Proof.
  unfold Text.isDigit, Str.isWhiteSpace. cbv zeta.
  generalize (nat_of_ascii c). intros n H.
  apply andb_true_iff in H as [H1 H2].
  apply Nat.leb_le in H1. apply Nat.leb_le in H2.
  assert (Ha : (n <=? 13)%nat = false) by (apply Nat.leb_gt; lia).
  assert (Hb : (n =? 32)%nat = false) by (apply Nat.eqb_neq; lia).
  assert (Hc : (n =? 160)%nat = false) by (apply Nat.eqb_neq; lia).
  rewrite Ha, Hb, Hc, andb_false_r. reflexivity.
Qed.

Lemma isSpace_eq (c : ascii) : Text.isSpace c = true <-> c = " "%char.
Proof. unfold Text.isSpace. apply Ascii.eqb_eq. Qed.

Lemma isSpace_whiteSpace (c : ascii) :
  Text.isSpace c = true -> Str.isWhiteSpace c = true.
Proof. intros H. apply isSpace_eq in H. subst. reflexivity. Qed.

Lemma isDigit_not_space (c : ascii) :
  Text.isDigit c = true -> Text.isSpace c = false.
Proof.
  intros H. destruct (Text.isSpace c) eqn:E; [|reflexivity].
  apply isSpace_whiteSpace in E. rewrite (isDigit_not_whiteSpace _ H) in E.
  discriminate.
Qed.

End TextFacts.

(** ** The address of an endpoint *)

Section ApiUrlFacts.

Context {host : Host}.

Lemma stripTrailingSlash_app_slash (b : string) :
  Api.stripTrailingSlash (b ++ "/") = b.
Proof.
  induction b as [|c b IH]; [reflexivity|].
  change (String c b ++ "/") with (String c (b ++ "/")).
  cbn [Api.stripTrailingSlash]. rewrite IH.
  destruct b; reflexivity.
Qed.

Lemma stripTrailingSlash_id (b : string) :
  Api.endsWithSlash b = false -> Api.stripTrailingSlash b = b.
Proof.
  induction b as [|c b IH]; [reflexivity|].
  cbn [Api.endsWithSlash Api.stripTrailingSlash].
  destruct b as [|c' b]; [intros ->; reflexivity|].
  intros H. rewrite (IH H). reflexivity.
Qed.

Lemma stripTrailingSlash_shorter (b : string) :
  Api.endsWithSlash b = true ->
  b = Api.stripTrailingSlash b ++ "/".
Proof.
  induction b as [|c b IH]; [discriminate|].
  cbn [Api.endsWithSlash Api.stripTrailingSlash].
  destruct b as [|c' b].
  - intros H. apply Ascii.eqb_eq in H. subst. reflexivity.
  - intros H.
    change (String c (String c' b)
            = String c (Api.stripTrailingSlash (String c' b) ++ "/")).
    f_equal. exact (IH H).
Qed.

(** X9: apiUrl puts exactly one slash between the base address and the
    path: a slash that ends the base and a slash that starts the path
    make no difference, and an absent or empty path gives the base
    without its final slash.  Only one final slash of the base is
    removed. *)
Theorem apiUrl_one_slash (base : string) :
  (forall path,
     Api.endsWithSlash base = false ->
     Api.apiUrl (base ++ "/") path = Api.apiUrl base path) /\
  (forall p,
     p <> "" -> Api.startsWithSlash p = false ->
     Api.apiUrl base (VString ("/" ++ p)) = Api.apiUrl base (VString p) /\
     Api.apiUrl base (VString p) = Api.stripTrailingSlash base ++ "/" ++ p) /\
  (forall path,
     path = VUndefined \/ path = VNull \/ path = VString "" ->
     Api.apiUrl base path = Api.stripTrailingSlash base) /\
  (Api.endsWithSlash base = true ->
   base = Api.stripTrailingSlash base ++ "/").
Proof.
  split; [|split; [|split]].
  - intros path H. unfold Api.apiUrl.
    rewrite stripTrailingSlash_app_slash, (stripTrailingSlash_id _ H).
    reflexivity.
  - intros p Hne Hs. unfold Api.apiUrl.
    rewrite !StringOrEmpty_string. rewrite Hs.
    destruct p as [|c p]; [contradiction|]. split; reflexivity.
  - intros path [->|[->| ->]]; reflexivity.
  - apply stripTrailingSlash_shorter.
Qed.

End ApiUrlFacts.

(** ** The font menu of the ticket editor *)

Section FontMenu.

Lemma existsb_eqb_In (f : string) (l : list string) :
  existsb (String.eqb f) l = true <-> In f l.
Proof.
  rewrite existsb_exists. split.
  - intros (x & Hx & E). apply String.eqb_eq in E. subst. exact Hx.
  - intros H. exists f. split; [exact H | apply String.eqb_refl].
Qed.

(** X10: the merged font list holds exactly the uploaded families and
    the fonts of the server, the uploaded ones first; a font of the server
    that was also uploaded is listed once, so the list has no duplicate
    when neither input has one. *)
Theorem merged_fonts_no_duplicate (uploaded availableFonts : list string) :
  (forall f, In f (TicketEditor.mergedAvailableFonts uploaded availableFonts)
             <-> In f uploaded \/ In f availableFonts) /\
  (exists rest,
     TicketEditor.mergedAvailableFonts uploaded availableFonts
     = (uploaded ++ rest)%list /\
     forall f, In f rest -> ~ In f uploaded) /\
  (NoDup uploaded -> NoDup availableFonts ->
   NoDup (TicketEditor.mergedAvailableFonts uploaded availableFonts)).
Proof.
  unfold TicketEditor.mergedAvailableFonts.
  set (fresh := fun f => negb (existsb (String.eqb f) uploaded)).
  assert (Hfresh : forall f, fresh f = true <-> ~ In f uploaded).
  { intros f. unfold fresh. rewrite negb_true_iff.
    rewrite <- existsb_eqb_In.
    destruct (existsb (String.eqb f) uploaded); split; congruence. }
  split; [|split].
  - intros f. rewrite in_app_iff, filter_In, Hfresh.
    destruct (in_dec string_dec f uploaded); tauto.
  - exists (filter fresh availableFonts). split; [reflexivity|].
    intros f Hin. apply filter_In in Hin as [_ Hf]. apply Hfresh, Hf.
  - intros Hu Ha. apply NoDup_app; [exact Hu | apply NoDup_filter, Ha|].
    intros f Hin Hin'. apply filter_In in Hin' as [_ Hf].
    apply Hfresh in Hf. contradiction.
Qed.

End FontMenu.

(** ** The series text of the proxy editor *)

Section ProxySeries.

Lemma skipSpaces_spec (r : list ascii) :
  exists k, r = (repeat " "%char k ++ ProxyEditor.skipSpaces r)%list.
Proof.
  induction r as [|c r IH]; [exists 0%nat; reflexivity|].
  cbn [ProxyEditor.skipSpaces].
  destruct (Text.isSpace c) eqn:E; [|exists 0%nat; reflexivity].
  apply isSpace_eq in E. subst c. destruct IH as [k IH].
  exists (S k). cbn [repeat app]. rewrite <- IH. reflexivity.
Qed.

Lemma skipSpaces_repeat (k : nat) (c : ascii) (r : list ascii) :
  Text.isSpace c = false ->
  ProxyEditor.skipSpaces (repeat " "%char k ++ c :: r) = c :: r.
Proof.
  intros Hc. induction k as [|k IH]; cbn [repeat app ProxyEditor.skipSpaces].
  - rewrite Hc. reflexivity.
  - exact IH.
Qed.

Lemma scanNumeric_digit (c : ascii) (r : list ascii) :
  Text.isDigit c = true ->
  ProxyEditor.scanNumeric (c :: r)
  = (c :: fst (ProxyEditor.scanNumeric r), snd (ProxyEditor.scanNumeric r)).
Proof.
  intros H. cbn [ProxyEditor.scanNumeric]. rewrite H.
  destruct (ProxyEditor.scanNumeric r); reflexivity.
Qed.

(** The cases of one step of the scan. *)
Lemma scanNumeric_step (ch : ascii) (before : list ascii) :
  (ProxyEditor.scanNumeric (ch :: before)
   = (ch :: fst (ProxyEditor.scanNumeric before),
      snd (ProxyEditor.scanNumeric before))
   /\ (Text.isDigit ch = true
       \/ ch = " "%char /\ exists prev rest,
            before = prev :: rest /\ Text.isDigit prev = true))
  \/ ProxyEditor.scanNumeric (ch :: before) = ([], ch :: before).
Proof.
  cbn [ProxyEditor.scanNumeric].
  destruct (Text.isDigit ch) eqn:Ed.
  - left. destruct (ProxyEditor.scanNumeric before); auto.
  - destruct (Text.isSpace ch) eqn:Es; [|right; reflexivity].
    destruct before as [|prev rest]; [right; reflexivity|].
    destruct (Text.isDigit prev) eqn:Ep; [|right; reflexivity].
    left. apply isSpace_eq in Es.
    destruct (ProxyEditor.scanNumeric (prev :: rest)).
    split; [reflexivity|]. right. split; [exact Es|]. eauto.
Qed.

Lemma scanNumeric_app (r : list ascii) :
  r = (fst (ProxyEditor.scanNumeric r) ++ snd (ProxyEditor.scanNumeric r))%list.
Proof.
  induction r as [|ch before IH]; [reflexivity|].
  destruct (scanNumeric_step ch before) as [[-> _]| ->];
    cbn [fst snd app]; [rewrite <- IH|]; reflexivity.
Qed.

Lemma scanNumeric_chars (r : list ascii) :
  Forall (fun c => Text.isDigit c = true \/ c = " "%char)
    (fst (ProxyEditor.scanNumeric r)).
Proof.
  induction r as [|ch before IH]; [constructor|].
  destruct (scanNumeric_step ch before) as [[-> Hc]| ->];
    cbn [fst]; [|constructor].
  constructor; [|exact IH]. destruct Hc as [Hd|[Hs _]]; auto.
Qed.

Lemma scanNumeric_last_digit (r : list ascii) :
  fst (ProxyEditor.scanNumeric r) = []
  \/ exists body c,
       fst (ProxyEditor.scanNumeric r) = (body ++ [c])%list /\
       Text.isDigit c = true.
Proof.
  induction r as [|ch before IH]; [left; reflexivity|].
  destruct (scanNumeric_step ch before) as [[-> Hc]| ->];
    cbn [fst]; [|left; reflexivity].
  right. destruct IH as [Hnil|(body & c & Hb & Hd)].
  - rewrite Hnil. destruct Hc as [Hd|(_ & prev & rest & -> & Hp)].
    + exists [], ch. split; [reflexivity | exact Hd].
    + rewrite (scanNumeric_digit _ _ Hp) in Hnil. discriminate.
  - rewrite Hb. exists (ch :: body), c. split; [reflexivity | exact Hd].
Qed.

Lemma scanNumeric_stop (r : list ascii) :
  ProxyEditor.scanNumeric (snd (ProxyEditor.scanNumeric r))
  = ([], snd (ProxyEditor.scanNumeric r)).
Proof.
  induction r as [|ch before IH]; [reflexivity|].
  destruct (scanNumeric_step ch before) as [[E _]|E].
  - rewrite E. cbn [snd]. exact IH.
  - rewrite E. cbn [snd]. exact E.
Qed.

Lemma scanNumeric_digits_app (ds r : list ascii) :
  forallb Text.isDigit ds = true ->
  ProxyEditor.scanNumeric (ds ++ r)
  = ((ds ++ fst (ProxyEditor.scanNumeric r))%list,
     snd (ProxyEditor.scanNumeric r)).
Proof.
  induction ds as [|d ds IH]; intros H.
  - cbn [app]. destruct (ProxyEditor.scanNumeric r); reflexivity.
  - cbn [forallb] in H. apply andb_true_iff in H as [Hd Hds].
    cbn [app]. rewrite (scanNumeric_digit _ _ Hd), (IH Hds). reflexivity.
Qed.

Lemma removeWhiteSpace_digits (l : list ascii) :
  Forall (fun c => Text.isDigit c = true \/ c = " "%char) l ->
  ProxyEditor.removeWhiteSpace l = filter Text.isDigit l.
Proof.
  unfold ProxyEditor.removeWhiteSpace.
  induction 1 as [|c l Hc _ IH]; [reflexivity|].
  cbn [filter]. rewrite IH. destruct Hc as [Hd| ->].
  - rewrite Hd, (isDigit_not_whiteSpace _ Hd). reflexivity.
  - reflexivity.
Qed.

Lemma removeWhiteSpace_all_digits (l : list ascii) :
  forallb Text.isDigit l = true -> ProxyEditor.removeWhiteSpace l = l.
Proof.
  unfold ProxyEditor.removeWhiteSpace.
  induction l as [|c l IH]; [reflexivity|]. cbn [forallb filter].
  intros H. apply andb_true_iff in H as [Hd Hl].
  rewrite (isDigit_not_whiteSpace _ Hd), (IH Hl). reflexivity.
Qed.

Lemma filter_isDigit_forallb (l : list ascii) :
  forallb Text.isDigit (filter Text.isDigit l) = true.
Proof.
  induction l as [|c l IH]; [reflexivity|]. cbn [filter].
  destruct (Text.isDigit c) eqn:E; [|exact IH].
  cbn [forallb]. rewrite E, IH. reflexivity.
Qed.

Lemma rev_repeat {A : Type} (a : A) (k : nat) : rev (repeat a k) = repeat a k.
Proof.
  induction k as [|k IH]; [reflexivity|].
  cbn [repeat rev]. rewrite IH. clear IH.
  induction k as [|k IH]; [reflexivity|].
  cbn [repeat app]. rewrite IH. reflexivity.
Qed.

(** What [parseSeriesPattern] computes, on the code units of the
    reversed text. *)
Lemma parseSeriesPattern_Some (value : string) (parsed : SeriesPattern.t) :
  ProxyEditor.parseSeriesPattern value = Some parsed ->
  exists k last before,
    rev (list_ascii_of_string value)
    = (repeat " "%char k ++ last :: before)%list /\
    Text.isDigit last = true /\
    parsed
    = {| SeriesPattern.prefix :=
           string_of_list_ascii
             (rev (snd (ProxyEditor.scanNumeric (last :: before))));
         SeriesPattern.digits :=
           string_of_list_ascii
             (filter Text.isDigit
                (rev (fst (ProxyEditor.scanNumeric (last :: before)))));
         SeriesPattern.numericPart :=
           string_of_list_ascii
             (rev (fst (ProxyEditor.scanNumeric (last :: before)))) |}.
Proof.
  unfold ProxyEditor.parseSeriesPattern.
  destruct (skipSpaces_spec (rev (list_ascii_of_string value))) as [k Hk].
  destruct (ProxyEditor.skipSpaces (rev (list_ascii_of_string value)))
    as [|last before]; [discriminate|].
  destruct (Text.isDigit last) eqn:Hd; cbn [negb]; [|discriminate].
  pose proof (scanNumeric_chars (last :: before)) as Hc.
  destruct (ProxyEditor.scanNumeric (last :: before))
    as [pushed unread] eqn:Escan.
  cbn [fst snd] in *.
  assert (Hrm : ProxyEditor.removeWhiteSpace (rev pushed)
                = filter Text.isDigit (rev pushed)).
  { apply removeWhiteSpace_digits. apply Forall_rev. exact Hc. }
  rewrite Hrm.
  destruct (filter Text.isDigit (rev pushed)) eqn:Ef; [discriminate|].
  intros E. inversion E. exists k, last, before.
  split; [exact Hk|]. split; [exact Hd|].
  rewrite Escan. cbn [fst snd]. rewrite Ef. reflexivity.
Qed.

(** In what the scan pushed, a space is always followed by a digit (the
    code unit before it in the text). *)
Lemma scanNumeric_space_digit (r : list ascii) (l1 l2 : list ascii)
    (a b : ascii) :
  fst (ProxyEditor.scanNumeric r) = (l1 ++ a :: b :: l2)%list ->
  a = " "%char -> Text.isDigit b = true.
Proof.
  revert l1. induction r as [|ch before IH]; intros l1.
  - destruct l1; discriminate.
  - destruct (scanNumeric_step ch before) as [[-> Hc]| ->]; cbn [fst];
      [|destruct l1; discriminate].
    destruct l1 as [|c1 l1]; cbn [app]; intros E Ha.
    + injection E as Hch Hp0. rewrite Ha in Hch.
      destruct Hc as [Hd|(_ & prev & rest & -> & Hp)].
      * rewrite Hch in Hd. discriminate Hd.
      * rewrite (scanNumeric_digit _ _ Hp) in Hp0. cbn [fst] in Hp0.
        injection Hp0 as Hprev _. rewrite <- Hprev. exact Hp.
    + injection E as _ Hp0. exact (IH _ Hp0 Ha).
Qed.

(** The parts of a parsed text. *)
Lemma parseSeriesPattern_parts (value : string)
    (parsed : SeriesPattern.t) :
  ProxyEditor.parseSeriesPattern value = Some parsed ->
  (exists k,
     value = SeriesPattern.prefix parsed ++ SeriesPattern.numericPart parsed
             ++ string_of_list_ascii (repeat " "%char k)) /\
  list_ascii_of_string (SeriesPattern.digits parsed)
  = filter Text.isDigit
      (list_ascii_of_string (SeriesPattern.numericPart parsed)) /\
  SeriesPattern.digits parsed <> "" /\
  Forall (fun c => Text.isDigit c = true \/ c = " "%char)
    (list_ascii_of_string (SeriesPattern.numericPart parsed)) /\
  (exists c rest,
     list_ascii_of_string (SeriesPattern.numericPart parsed) = c :: rest /\
     Text.isDigit c = true) /\
  (exists body c,
     list_ascii_of_string (SeriesPattern.numericPart parsed)
     = (body ++ [c])%list /\
     Text.isDigit c = true).
Proof.
  intros Hp.
  destruct (parseSeriesPattern_Some _ _ Hp) as (k & last & before & Hr & Hd & ->).
  cbn [SeriesPattern.prefix SeriesPattern.digits SeriesPattern.numericPart].
  rewrite !list_ascii_of_string_of_list_ascii.
  pose proof (scanNumeric_app (last :: before)) as Happ.
  pose proof (scanNumeric_chars (last :: before)) as Hc.
  pose proof (scanNumeric_last_digit (last :: before)) as Hl.
  pose proof (scanNumeric_digit last before Hd) as Hstep.
  destruct (ProxyEditor.scanNumeric (last :: before)) as [pushed unread].
  cbn [fst snd] in *. injection Hstep as Hpushed Hunread.
  set (p0 := fst (ProxyEditor.scanNumeric before)) in *.
  split; [|split; [|split; [|split; [|split]]]].
  - exists k.
    rewrite <- !string_of_list_ascii_app.
    rewrite <- (string_of_list_ascii_of_string value) at 1.
    f_equal.
    rewrite <- (rev_involutive (list_ascii_of_string value)), Hr, Happ.
    rewrite !rev_app_distr, rev_repeat.
    rewrite <- app_assoc. reflexivity.
  - reflexivity.
  - rewrite Hpushed. cbn [rev]. rewrite filter_app. cbn [filter].
    rewrite Hd. intros E.
    apply (f_equal list_ascii_of_string) in E.
    rewrite list_ascii_of_string_of_list_ascii in E. cbn in E.
    destruct (filter Text.isDigit (rev p0)); discriminate.
  - apply Forall_rev. exact Hc.
  - destruct Hl as [Hnil|(body & c & Hb & Hcd)];
      [rewrite Hpushed in Hnil; discriminate|].
    rewrite Hb, rev_app_distr. cbn [rev app]. eauto.
  - exists (rev p0), last. rewrite Hpushed. cbn [rev]. split; [reflexivity|].
    exact Hd.
Qed.

(** X11: when parseSeriesPattern returns a pattern, the text is the
    prefix, then the numeric part, then only spaces; the numeric part is
    made of digits and single spaces (a space always comes after a
    digit), starts and ends with a digit, and the digits are the numeric
    part without its spaces, at least one digit. *)
Theorem parseSeriesPattern_decomposition (value : string)
    (parsed : SeriesPattern.t) :
  ProxyEditor.parseSeriesPattern value = Some parsed ->
  (exists k,
     value = SeriesPattern.prefix parsed ++ SeriesPattern.numericPart parsed
             ++ string_of_list_ascii (repeat " "%char k)) /\
  list_ascii_of_string (SeriesPattern.digits parsed)
  = filter Text.isDigit
      (list_ascii_of_string (SeriesPattern.numericPart parsed)) /\
  SeriesPattern.digits parsed <> "" /\
  Forall (fun c => Text.isDigit c = true \/ c = " "%char)
    (list_ascii_of_string (SeriesPattern.numericPart parsed)) /\
  (exists c rest,
     list_ascii_of_string (SeriesPattern.numericPart parsed) = c :: rest /\
     Text.isDigit c = true) /\
  (exists body c,
     list_ascii_of_string (SeriesPattern.numericPart parsed)
     = (body ++ [c])%list /\
     Text.isDigit c = true) /\
  (forall l1 l2 b,
     list_ascii_of_string (SeriesPattern.numericPart parsed)
     = (l1 ++ b :: " "%char :: l2)%list ->
     Text.isDigit b = true).
Proof.
  intros Hp.
  destruct (parseSeriesPattern_parts _ _ Hp) as (H1 & H2 & H3 & H4 & H5 & H6).
  repeat (split; [assumption|]).
  destruct (parseSeriesPattern_Some _ _ Hp) as (k & last & before & _ & _ & ->).
  cbn [SeriesPattern.numericPart].
  rewrite list_ascii_of_string_of_list_ascii.
  intros l1 l2 b E.
  apply (f_equal (@rev ascii)) in E.
  rewrite rev_involutive, rev_app_distr in E. cbn [rev] in E.
  rewrite <- !app_assoc in E. cbn [app] in E.
  exact (scanNumeric_space_digit _ _ _ _ _ E eq_refl).
Qed.

Lemma parseSeriesPattern_digit_end (body : list ascii) (c : ascii) (k : nat) :
  Text.isDigit c = true ->
  exists parsed,
    ProxyEditor.parseSeriesPattern
      (string_of_list_ascii (body ++ c :: repeat " "%char k))
    = Some parsed.
Proof.
  intros Hd. unfold ProxyEditor.parseSeriesPattern.
  rewrite list_ascii_of_string_of_list_ascii.
  rewrite rev_app_distr. cbn [rev]. rewrite rev_repeat, <- app_assoc.
  cbn [app]. rewrite (skipSpaces_repeat _ _ _ (isDigit_not_space _ Hd)).
  rewrite Hd. cbn [negb].
  rewrite (scanNumeric_digit _ _ Hd).
  set (p0 := fst (ProxyEditor.scanNumeric (rev body))).
  cbn [rev]. unfold ProxyEditor.removeWhiteSpace.
  rewrite filter_app. cbn [filter].
  rewrite (isDigit_not_whiteSpace _ Hd). cbn [negb].
  destruct (filter (fun c0 => negb (Str.isWhiteSpace c0)) (rev p0));
    eexists; reflexivity.
Qed.

(** X12: parseSeriesPattern returns null exactly when the text, its
    trailing spaces apart, does not end with a digit (the empty text and
    the text of spaces included). *)
Theorem parseSeriesPattern_null_iff (value : string) :
  ProxyEditor.parseSeriesPattern value = None
  <-> ~ (exists body c k,
           value = body ++ String c (string_of_list_ascii (repeat " "%char k))
           /\ Text.isDigit c = true).
Proof.
  split.
  - intros Hnone (body & c & k & Hv & Hd).
    destruct (parseSeriesPattern_digit_end (list_ascii_of_string body) c k Hd)
      as [parsed Hp].
    rewrite string_of_list_ascii_app, string_of_list_ascii_of_string in Hp.
    cbn [string_of_list_ascii] in Hp. rewrite <- Hv, Hnone in Hp.
    discriminate.
  - intros Hno.
    destruct (ProxyEditor.parseSeriesPattern value) as [parsed|] eqn:Hp;
      [|reflexivity].
    exfalso. apply Hno.
    destruct (parseSeriesPattern_parts _ _ Hp)
      as ([k Hv] & _ & _ & _ & _ & (body & c & Hb & Hd)).
    exists (SeriesPattern.prefix parsed ++ string_of_list_ascii body), c, k.
    split; [|exact Hd].
    rewrite Hv at 1.
    rewrite <- (string_of_list_ascii_of_string (SeriesPattern.numericPart parsed)).
    rewrite Hb, string_of_list_ascii_app. cbn [string_of_list_ascii].
    rewrite !string_append_assoc. reflexivity.
Qed.

(** The pattern of a text that is a prefix the scan stops at, followed
    by digits only. *)
Lemma parseSeriesPattern_prefix_digits (unread ds : list ascii) :
  ProxyEditor.scanNumeric unread = ([], unread) ->
  forallb Text.isDigit ds = true -> ds <> [] ->
  ProxyEditor.parseSeriesPattern (string_of_list_ascii (rev unread ++ ds))
  = Some {| SeriesPattern.prefix := string_of_list_ascii (rev unread);
            SeriesPattern.digits := string_of_list_ascii ds;
            SeriesPattern.numericPart := string_of_list_ascii ds |}.
Proof.
  intros Hstop Hds Hne. unfold ProxyEditor.parseSeriesPattern.
  rewrite list_ascii_of_string_of_list_ascii, rev_app_distr, rev_involutive.
  assert (Hrd : forallb Text.isDigit (rev ds) = true).
  { rewrite forallb_forall in *. intros c Hc. apply Hds, in_rev, Hc. }
  destruct (rev ds) as [|d rds] eqn:Er.
  { exfalso. apply Hne. rewrite <- (rev_involutive ds), Er. reflexivity. }
  assert (Hd : Text.isDigit d = true)
    by (cbn [forallb] in Hrd; apply andb_true_iff in Hrd; tauto).
  cbn [app ProxyEditor.skipSpaces].
  rewrite (isDigit_not_space _ Hd), Hd. cbn [negb].
  change (d :: (rds ++ unread)%list) with ((d :: rds) ++ unread)%list.
  rewrite (scanNumeric_digits_app _ _ Hrd), Hstop. cbn [fst snd].
  rewrite app_nil_r, <- Er, rev_involutive.
  rewrite (removeWhiteSpace_all_digits _ Hds).
  destruct ds; [contradiction | reflexivity].
Qed.

(** X13: sanitizeSeriesInput is idempotent: a text it has cleaned (inner
    and trailing spaces of the numeric part removed) is left as it is,
    and a text without a final digit is never changed. *)
Theorem sanitizeSeriesInput_idempotent (value : string) :
  ProxyEditor.sanitizeSeriesInput (ProxyEditor.sanitizeSeriesInput value)
  = ProxyEditor.sanitizeSeriesInput value
  /\
  (ProxyEditor.parseSeriesPattern value = None ->
   ProxyEditor.sanitizeSeriesInput value = value).
Proof.
  split; [|intros H; unfold ProxyEditor.sanitizeSeriesInput; rewrite H;
           reflexivity].
  unfold ProxyEditor.sanitizeSeriesInput at 2 3.
  destruct (ProxyEditor.parseSeriesPattern value) as [parsed|] eqn:Hp.
  - destruct (parseSeriesPattern_Some _ _ Hp)
      as (k & last & before & _ & Hd & ->).
    cbn [SeriesPattern.prefix SeriesPattern.digits].
    set (scan := ProxyEditor.scanNumeric (last :: before)).
    assert (Hstop : ProxyEditor.scanNumeric (snd scan) = ([], snd scan))
      by apply scanNumeric_stop.
    assert (Hne : filter Text.isDigit (rev (fst scan)) <> []).
    { unfold scan. rewrite (scanNumeric_digit _ _ Hd). cbn [fst rev].
      rewrite filter_app. cbn [filter]. rewrite Hd.
      destruct (filter Text.isDigit
                  (rev (fst (ProxyEditor.scanNumeric before))));
        discriminate. }
    rewrite <- string_of_list_ascii_app.
    unfold ProxyEditor.sanitizeSeriesInput.
    rewrite (parseSeriesPattern_prefix_digits _ _ Hstop
               (filter_isDigit_forallb _) Hne).
    cbn [SeriesPattern.prefix SeriesPattern.digits].
    rewrite string_of_list_ascii_app. reflexivity.
  - unfold ProxyEditor.sanitizeSeriesInput. rewrite Hp. reflexivity.
Qed.

Lemma fillTemplate_length (template digits : list ascii) :
  List.length (ProxyEditor.fillTemplate template digits)
  = List.length template.
Proof.
  revert digits. induction template as [|ch rest IH]; intros digits;
    [reflexivity|].
  cbn [ProxyEditor.fillTemplate].
  destruct (Text.isDigit ch); [destruct digits|]; cbn [List.length];
    rewrite IH; reflexivity.
Qed.

Lemma fillTemplate_keeps (template digits : list ascii) (i : nat) (c : ascii) :
  nth_error template i = Some c -> Text.isDigit c = false ->
  nth_error (ProxyEditor.fillTemplate template digits) i = Some c.
Proof.
  revert digits i. induction template as [|ch rest IH]; intros digits i Hi Hc.
  - destruct i; discriminate.
  - cbn [ProxyEditor.fillTemplate]. destruct i as [|i].
    + cbn in Hi. inversion Hi; subst ch. rewrite Hc. reflexivity.
    + cbn in Hi.
      destruct (Text.isDigit ch); [destruct digits|]; cbn [nth_error];
        apply IH; assumption.
Qed.

Lemma fillTemplate_own_digits (template : list ascii) :
  ProxyEditor.fillTemplate template (filter Text.isDigit template) = template.
Proof.
  induction template as [|ch rest IH]; [reflexivity|].
  cbn [ProxyEditor.fillTemplate filter].
  destruct (Text.isDigit ch); rewrite IH; reflexivity.
Qed.

Lemma applyNumericTemplate_length (template digits : string) :
  String.length (ProxyEditor.applyNumericTemplate template digits)
  = String.length template.
Proof.
  unfold ProxyEditor.applyNumericTemplate.
  rewrite length_string_of_list_ascii, fillTemplate_length.
  apply length_list_ascii_of_string.
Qed.

(** X14: applyNumericTemplate keeps the length of the template and every
    code unit of it that is not a digit, in place; and filling the numeric
    part of a parsed text with its own digits gives the numeric part
    back. *)
Theorem applyNumericTemplate_round_trip :
  (forall template digits,
     String.length (ProxyEditor.applyNumericTemplate template digits)
     = String.length template) /\
  (forall template digits i c,
     nth_error (list_ascii_of_string template) i = Some c ->
     Text.isDigit c = false ->
     nth_error
       (list_ascii_of_string
          (ProxyEditor.applyNumericTemplate template digits)) i = Some c) /\
  (forall value parsed,
     ProxyEditor.parseSeriesPattern value = Some parsed ->
     ProxyEditor.applyNumericTemplate (SeriesPattern.numericPart parsed)
       (SeriesPattern.digits parsed)
     = SeriesPattern.numericPart parsed).
Proof.
  unfold ProxyEditor.applyNumericTemplate. split; [|split].
  - intros template digits.
    rewrite length_string_of_list_ascii, fillTemplate_length.
    apply length_list_ascii_of_string.
  - intros template digits i c Hi Hc.
    rewrite list_ascii_of_string_of_list_ascii.
    apply fillTemplate_keeps; assumption.
  - intros value parsed Hp.
    destruct (parseSeriesPattern_parts _ _ Hp) as (_ & Hd & _).
    rewrite Hd, fillTemplate_own_digits.
    apply string_of_list_ascii_of_string.
Qed.

End ProxySeries.

Section ProxyIncrement.

Context {host : Host}.

(** X15: the proxy editor's incrementSeries returns a text without final
    digit unchanged; otherwise the result is the prefix of the text
    followed by exactly as many code units as the numeric part has, for
    every increment: the result is never longer than the text, whatever
    the number of digits of the incremented value. *)
Theorem proxy_incrementSeries_keeps_width (value : string)
    (increment : number) :
  match ProxyEditor.parseSeriesPattern value with
  | None => ProxyEditor.incrementSeries value increment = value
  | Some parsed =>
      exists body,
        ProxyEditor.incrementSeries value increment
        = SeriesPattern.prefix parsed ++ body /\
        String.length body
        = String.length (SeriesPattern.numericPart parsed) /\
        (String.length (ProxyEditor.incrementSeries value increment)
         <= String.length value)%nat
  end.
Proof.
  unfold ProxyEditor.incrementSeries.
  destruct (ProxyEditor.parseSeriesPattern value) as [parsed|] eqn:Hp;
    [|reflexivity].
  destruct (parseSeriesPattern_parts _ _ Hp)
    as ([k Hv] & Hdig & Hne & Hchars & _).
  assert (Hlen : forall body,
            String.length body
            = String.length (SeriesPattern.numericPart parsed) ->
            (String.length (SeriesPattern.prefix parsed ++ body)
             <= String.length value)%nat).
  { intros body Hb.
    assert (Hvl : String.length value
                  = (String.length (SeriesPattern.prefix parsed)
                     + (String.length (SeriesPattern.numericPart parsed)
                        + String.length
                            (string_of_list_ascii (repeat " "%char k))))%nat)
      by (rewrite Hv at 1; rewrite !string_length_append; reflexivity).
    rewrite string_length_append, Hb, Hvl. lia. }
  set (endNum := PrimFloat.add
                   (Text.parseInt10 (SeriesPattern.digits parsed)) increment).
  set (width := String.length (SeriesPattern.digits parsed)).
  assert (Hw : (0 < width)%nat).
  { unfold width. destruct (SeriesPattern.digits parsed);
      [contradiction | cbn; lia]. }
  destruct (negb (Str.isEmpty (SeriesPattern.numericPart parsed))
            && existsb Str.isWhiteSpace
                 (list_ascii_of_string (SeriesPattern.numericPart parsed)))
    eqn:Hspaced.
  - eexists. split; [reflexivity|].
    assert (Hb : String.length
                   (ProxyEditor.applyNumericTemplate
                      (SeriesPattern.numericPart parsed)
                      (if (width <? String.length
                                      (Text.padStart width
                                         (NumberToString (Math.trunc endNum))))%nat
                       then Text.lastChars width
                              (Text.padStart width
                                 (NumberToString (Math.trunc endNum)))
                       else Text.padStart width
                              (NumberToString (Math.trunc endNum))))
                 = String.length (SeriesPattern.numericPart parsed))
      by apply applyNumericTemplate_length.
    split; [exact Hb | exact (Hlen _ Hb)].
  - assert (Hnp : SeriesPattern.numericPart parsed
                  = SeriesPattern.digits parsed).
    { apply andb_false_iff in Hspaced as [He|Hex].
      - apply negb_false_iff in He.
        destruct (SeriesPattern.numericPart parsed) eqn:En; [|discriminate].
        cbn in Hdig. rewrite <- (string_of_list_ascii_of_string
                                   (SeriesPattern.digits parsed)), Hdig.
        reflexivity.
      - rewrite <- (string_of_list_ascii_of_string
                      (SeriesPattern.numericPart parsed)),
          <- (string_of_list_ascii_of_string (SeriesPattern.digits parsed)).
        f_equal. rewrite Hdig. symmetry.
        revert Hchars Hex.
        generalize (list_ascii_of_string (SeriesPattern.numericPart parsed)).
        induction l as [|c l IH]; [reflexivity|].
        intros Hc Hex. inversion Hc as [|? ? Hc1 Hc2]; subst.
        cbn [existsb] in Hex. apply orb_false_iff in Hex as [Hws Hrest].
        cbn [filter]. destruct Hc1 as [Hd| ->]; [|discriminate Hws].
        rewrite Hd, (IH Hc2 Hrest). reflexivity. }
    unfold ProxyEditor.formatSeriesValue. fold width.
    assert (Hwb : (0 <? width)%nat = true) by (apply Nat.ltb_lt; exact Hw).
    rewrite Hwb.
    eexists. split; [reflexivity|].
    assert (Hb : String.length
                   (if (width <? String.length
                                   (Text.padStart width
                                      (NumberToString (Math.trunc endNum))))%nat
                    then Text.lastChars width
                           (Text.padStart width
                              (NumberToString (Math.trunc endNum)))
                    else Text.padStart width
                           (NumberToString (Math.trunc endNum)))
                 = String.length (SeriesPattern.numericPart parsed)).
    { rewrite fixed_width_length, Hnp. reflexivity. }
    split; [exact Hb | exact (Hlen _ Hb)].
Qed.

End ProxyIncrement.

(** ** The series text of the ticket editor *)

Section TicketSeries.

Lemma matchSeries_Some (s p d : list ascii) :
  TicketEditor.matchSeries s = Some (p, d) ->
  s = (p ++ d)%list /\ d <> [] /\ forallb Text.isDigit d = true /\
  Text.noLineTerminator p = true /\
  (forall body c, p = (body ++ [c])%list -> Text.isDigit c = false).
Proof.
  revert p d. induction s as [|c rest IH]; intros p d; [discriminate|].
  cbn [TicketEditor.matchSeries].
  destruct (forallb Text.isDigit (c :: rest)) eqn:Eall.
  - intros E. inversion E; subst p d.
    repeat split; try assumption; try discriminate.
    intros body c0 Hb. destruct body; discriminate.
  - destruct (Text.isLineTerminator c) eqn:Elt; [discriminate|].
    destruct (TicketEditor.matchSeries rest) as [[p1 d1]|] eqn:Er;
      [|discriminate].
    intros E. inversion E; subst p d.
    destruct (IH p1 d1 eq_refl) as (Hs & Hne & Hd & Hlt & Hlast).
    split; [rewrite Hs; reflexivity|]. split; [exact Hne|].
    split; [exact Hd|]. split.
    + unfold Text.noLineTerminator in *. cbn [forallb]. rewrite Elt, Hlt.
      reflexivity.
    + intros body c0 Hb. destruct body as [|b body].
      * cbn in Hb. inversion Hb; subst c0 p1.
        cbn [app] in Hs. subst rest.
        cbn [forallb] in Eall. rewrite Hd, andb_true_r in Eall. exact Eall.
      * cbn in Hb. inversion Hb; subst. eapply Hlast. reflexivity.
Qed.

Lemma matchSeries_complete (p d : list ascii) :
  d <> [] -> forallb Text.isDigit d = true -> Text.noLineTerminator p = true ->
  exists p' d', TicketEditor.matchSeries (p ++ d) = Some (p', d').
Proof.
  intros Hne Hd. induction p as [|c p IH]; intros Hlt.
  - cbn [app]. destruct d as [|c d]; [contradiction|].
    cbn [TicketEditor.matchSeries]. rewrite Hd. eauto.
  - unfold Text.noLineTerminator in *. cbn [forallb] in Hlt.
    apply andb_true_iff in Hlt as [Hc Hp]. apply negb_true_iff in Hc.
    cbn [app TicketEditor.matchSeries].
    destruct (forallb Text.isDigit (c :: (p ++ d)%list)); [eauto|].
    rewrite Hc. destruct (IH Hp) as (p' & d' & ->). eauto.
Qed.

(** X16: the pattern the ticket editor splits a series text with matches
    exactly the texts that end with a digit and have no line break before
    their final digits; the number part is then the whole final run of
    digits (the prefix never ends with a digit) and prefix and number part
    make up the text. *)
Theorem ticket_series_match (s : list ascii) :
  (forall p d, TicketEditor.matchSeries s = Some (p, d) ->
     s = (p ++ d)%list /\ d <> [] /\ forallb Text.isDigit d = true /\
     Text.noLineTerminator p = true /\
     (forall body c, p = (body ++ [c])%list -> Text.isDigit c = false))
  /\
  (TicketEditor.matchSeries s = None
   <-> ~ (exists p d, s = (p ++ d)%list /\ d <> [] /\
            forallb Text.isDigit d = true /\ Text.noLineTerminator p = true)).
Proof.
  split; [intros p d; apply matchSeries_Some|].
  split.
  - intros Hnone (p & d & -> & Hne & Hd & Hlt).
    destruct (matchSeries_complete p d Hne Hd Hlt) as (p' & d' & E).
    rewrite E in Hnone. discriminate.
  - intros Hno. destruct (TicketEditor.matchSeries s) as [[p d]|] eqn:E;
      [|reflexivity].
    exfalso. apply Hno. exists p, d.
    destruct (matchSeries_Some _ _ _ E) as (? & ? & ? & ? & _). auto.
Qed.

End TicketSeries.

Section TicketIncrement.

Context {host : Host}.

(** X17: the ticket editor's incrementSeries and calculateEndingSeries
    return a text the pattern does not match unchanged; otherwise the
    result is the prefix of the text, kept as it is, followed by at least
    as many code units as the number part has: the result is never
    shorter than the text. *)
Theorem ticket_incrementSeries_keeps_prefix (value : string) (n : number) :
  match TicketEditor.matchSeries (list_ascii_of_string value) with
  | None =>
      TicketEditor.incrementSeries value n = value /\
      TicketEditor.calculateEndingSeries value n = value
  | Some (prefix, numStr) =>
      value = string_of_list_ascii prefix ++ string_of_list_ascii numStr /\
      (exists body,
         TicketEditor.incrementSeries value n
         = string_of_list_ascii prefix ++ body /\
         (List.length numStr <= String.length body)%nat /\
         (String.length value
          <= String.length (TicketEditor.incrementSeries value n))%nat) /\
      (exists body,
         TicketEditor.calculateEndingSeries value n
         = string_of_list_ascii prefix ++ body /\
         (List.length numStr <= String.length body)%nat /\
         (String.length value
          <= String.length (TicketEditor.calculateEndingSeries value n))%nat)
  end.
Proof.
  unfold TicketEditor.incrementSeries, TicketEditor.calculateEndingSeries.
  destruct (TicketEditor.matchSeries (list_ascii_of_string value))
    as [[prefix numStr]|] eqn:E; [|split; reflexivity].
  destruct (matchSeries_Some _ _ _ E) as (Hs & _).
  assert (Hv : value
               = string_of_list_ascii prefix ++ string_of_list_ascii numStr).
  { rewrite <- string_of_list_ascii_app, <- Hs.
    symmetry. apply string_of_list_ascii_of_string. }
  assert (Hlen : String.length value
                 = (List.length prefix + List.length numStr)%nat).
  { rewrite Hv at 1.
    rewrite string_length_append, !length_string_of_list_ascii.
    reflexivity. }
  split; [exact Hv|].
  split; eexists; (split; [reflexivity|]);
    rewrite string_length_append, length_string_of_list_ascii,
      padStart_length, Hlen; lia.
Qed.

End TicketIncrement.

(** ** The object rectangle and the slots of the ticket editor *)

Section EditorRect.

Context {host : Host}.


Lemma finiteOrZero_finite (v : value) :
  is_finite (Editor.finiteOrZero v) = true.
Proof.
  destruct v; try reflexivity. cbn [Editor.finiteOrZero].
  destruct (is_finite n) eqn:E; [exact E | reflexivity].
Qed.

Lemma objectRectMm_Some (crop : value) (r : Rect.t) :
  Editor.objectRectMm crop = Some r ->
  get crop "widthMm" = VNumber (Rect.widthMm r) /\
  get crop "heightMm" = VNumber (Rect.heightMm r) /\
  Editor.isPositiveNumber (get crop "widthMm") = true /\
  Editor.isPositiveNumber (get crop "heightMm") = true /\
  Rect.xMm r = Editor.finiteOrZero (get crop "xMm") /\
  Rect.yMm r = Editor.finiteOrZero (get crop "yMm").
Proof.
  unfold Editor.objectRectMm. cbv zeta.
  destruct (get crop "widthMm") as [| | |w| | |] eqn:Ew; try discriminate.
  destruct (get crop "heightMm") as [| | |h| | |] eqn:Eh; try discriminate.
  destruct (Editor.isPositiveNumber (VNumber w)) eqn:Hw; [|discriminate].
  destruct (Editor.isPositiveNumber (VNumber h)) eqn:Hh; [|discriminate].
  cbn [andb]. intros E. inversion E. repeat split; reflexivity.
Qed.

(** X18: a rectangle objectRectMm accepts has a finite width and height
    above 0 and a finite position, a missing or non-finite position
    having become 0; so a call of the builder that passes its four numbers
    as the object size and position cannot fail the object-size check, and
    its object_mm never has a null x_mm or y_mm. *)
Theorem objectRect_passes_builder_check (crop : value) (r : Rect.t)
    (params : Params.t) :
  Editor.objectRectMm crop = Some r ->
  Params.objectWidthMm params = VNumber (Rect.widthMm r) ->
  Params.objectHeightMm params = VNumber (Rect.heightMm r) ->
  Params.objectXMm params = VNumber (Rect.xMm r) ->
  Params.objectYMm params = VNumber (Rect.yMm r) ->
  objectSizeOk params = true /\
  (forall m, buildFinalRenderPayload params = Throw m ->
     m <> "object_mm.w and object_mm.h are required and must be > 0") /\
  (forall pl, buildFinalRenderPayload params = Return pl ->
     ObjectMm.w (FinalRenderPayload.object_mm pl) = Rect.widthMm r /\
     ObjectMm.h (FinalRenderPayload.object_mm pl) = Rect.heightMm r /\
     ObjectMm.x_mm (FinalRenderPayload.object_mm pl) = Some (Rect.xMm r) /\
     ObjectMm.y_mm (FinalRenderPayload.object_mm pl) = Some (Rect.yMm r)).
Proof.
  intros Hr Hw Hh Hx Hy.
  destruct (objectRectMm_Some _ _ Hr) as (Ew & Eh & Pw & Ph & Ex & Ey).
  rewrite Ew in Pw. rewrite Eh in Ph.
  cbn [Editor.isPositiveNumber] in Pw, Ph.
  apply andb_true_iff in Pw as [Fw Gw]. apply andb_true_iff in Ph as [Fh Gh].
  assert (Tw : toFiniteNumberOrNull (Params.objectWidthMm params)
               = Some (Rect.widthMm r))
    by (rewrite Hw; cbn [toFiniteNumberOrNull ToNumber]; rewrite Fw;
        reflexivity).
  assert (Th : toFiniteNumberOrNull (Params.objectHeightMm params)
               = Some (Rect.heightMm r))
    by (rewrite Hh; cbn [toFiniteNumberOrNull ToNumber]; rewrite Fh;
        reflexivity).
  assert (Tx : toFiniteNumberOrNull (Params.objectXMm params)
               = Some (Rect.xMm r)).
  { rewrite Hx. cbn [toFiniteNumberOrNull ToNumber].
    rewrite Ex at 1. rewrite finiteOrZero_finite. reflexivity. }
  assert (Ty : toFiniteNumberOrNull (Params.objectYMm params)
               = Some (Rect.yMm r)).
  { rewrite Hy. cbn [toFiniteNumberOrNull ToNumber].
    rewrite Ey at 1. rewrite finiteOrZero_finite. reflexivity. }
  assert (Hok : objectSizeOk params = true)
    by (unfold objectSizeOk; rewrite Tw, Th, Gw, Gh; reflexivity).
  split; [exact Hok|]. split.
  - intros m Hb Hm. subst m. apply build_Throw_iff in Hb.
    unfold requiredChecks, requestChecks in Hb.
    rewrite Hok in Hb. cbn [app firstFailure] in Hb.
    destruct (negb (Str.isEmpty (job_id params))); [|discriminate Hb].
    destruct (negb (Str.isEmpty (documentId params))); [|discriminate Hb].
    destruct (hasSeriesList params); [discriminate Hb|].
    unfold singleSeriesChecks in Hb. cbn [firstFailure] in Hb.
    repeat match type of Hb with
           | (if ?c then _ else _) = _ => destruct c; [|discriminate Hb]
           end.
    discriminate Hb.
  - intros pl Hb.
    destruct (build_Return_guards _ _ Hb)
      as (w & h & sr & l & -> & _ & _ & Hw' & Hh' & _).
    rewrite Tw in Hw'. rewrite Th in Hh'. inversion Hw'. inversion Hh'.
    cbn [payload FinalRenderPayload.object_mm object_mm ObjectMm.w ObjectMm.h
         ObjectMm.x_mm ObjectMm.y_mm].
    repeat split; assumption.
Qed.


End EditorRect.

Section EditorSlots.

Variable Slot : Type.
Variable id : Slot -> string.

Lemma hasId_In (i : string) (slots : list Slot) :
  Editor.hasId Slot id i slots = true <-> exists s, In s slots /\ id s = i.
Proof.
  unfold Editor.hasId. rewrite existsb_exists.
  split; intros (s & Hs & E); exists s; (split; [exact Hs|]);
    apply String.eqb_eq; exact E.
Qed.

Lemma firstId_valid (slots : list Slot) :
  Editor.selectionValid Slot id slots (Editor.firstId Slot id slots) /\
  (Editor.firstId Slot id slots = None <-> slots = []).
Proof.
  destruct slots as [|s slots]; cbn.
  - split; [exact I|]. split; reflexivity.
  - split; [exists s; auto|]. split; discriminate.
Qed.

(** X20: when handleDeleteSeriesSlot removes a slot (the list is not
    empty and the identifier to remove, the selected one or else that of
    the last slot, is not empty), every slot with that identifier is gone
    and the others are kept in order; the new selection is null exactly
    when no slot is left and otherwise names a remaining slot; and a
    selection that still names a remaining slot is kept. *)
Theorem deleteSlot_selection_valid (selectedSlotId : option string)
    (prev : list Slot) (prevSelected : option string)
    (next : list Slot) (selected : option string) (removed : string) :
  prev <> [] ->
  match selectedSlotId with
  | Some i => Some i
  | None => option_map id (List.last (map Some prev) None)
  end = Some removed ->
  removed <> "" ->
  Editor.handleDeleteSeriesSlot Slot id selectedSlotId prev prevSelected
  = (next, selected) ->
  next = filter (fun s => negb (String.eqb (id s) removed)) prev /\
  (forall s, In s next <-> In s prev /\ id s <> removed) /\
  Editor.selectionValid Slot id next selected /\
  (selected = None <-> next = []) /\
  (forall p, prevSelected = Some p -> p <> "" -> p <> removed ->
     (exists s, In s next /\ id s = p) -> selected = Some p).
Proof.
  intros Hne Hid Hrem. unfold Editor.handleDeleteSeriesSlot.
  destruct prev as [|s0 prev0]; [contradiction|].
  set (prev := s0 :: prev0) in *.
  rewrite Hid. apply isEmpty_false in Hrem. rewrite Hrem.
  set (nxt := filter (fun s => negb (String.eqb (id s) removed)) prev).
  intros E. inversion E as [[Hn Hs]]. clear E.
  destruct (firstId_valid nxt) as [Hfv Hfn].
  split; [reflexivity|]. split; [|split; [|split]].
  - intros s. unfold nxt. rewrite filter_In, negb_true_iff, String.eqb_neq.
    reflexivity.
  - destruct prevSelected as [p|]; [|exact Hfv].
    destruct (negb (Str.isEmpty p) && negb (String.eqb p removed)
              && Editor.hasId Slot id p nxt) eqn:Ek; [|exact Hfv].
    apply andb_true_iff in Ek as [_ Hh]. apply hasId_In in Hh. exact Hh.
  - destruct prevSelected as [p|]; [|exact Hfn].
    destruct (negb (Str.isEmpty p) && negb (String.eqb p removed)
              && Editor.hasId Slot id p nxt) eqn:Ek; [|exact Hfn].
    apply andb_true_iff in Ek as [_ Hh]. apply hasId_In in Hh.
    destruct Hh as (s & Hin & _).
    split; [discriminate|]. intros Hnil. rewrite Hnil in Hin. contradiction.
  - intros p -> Hp Hpr Hex.
    apply isEmpty_false in Hp. apply String.eqb_neq in Hpr.
    apply hasId_In in Hex. rewrite Hp, Hpr, Hex. reflexivity.
Qed.

(** X21: after the effect that repairs the selection has run on a list
    with slots, the selection names a slot of the list; a selection that
    already names one is not changed, and running the effect again changes
    nothing. *)
Theorem repairSelection_valid (slots : list Slot) (selected : option string) :
  (slots <> [] ->
   exists s, In s slots /\
     Editor.repairSelection Slot id slots selected = Some (id s)) /\
  (forall s, In s slots -> id s <> "" -> selected = Some (id s) ->
     Editor.repairSelection Slot id slots selected = selected) /\
  Editor.repairSelection Slot id slots
    (Editor.repairSelection Slot id slots selected)
  = Editor.repairSelection Slot id slots selected.
Proof.
  assert (Hkeep : forall i, Str.isEmpty i = false ->
            Editor.hasId Slot id i slots = true ->
            Editor.repairSelection Slot id slots (Some i) = Some i).
  { intros i He Hh. unfold Editor.repairSelection.
    destruct slots; [discriminate Hh|]. rewrite He, Hh. reflexivity. }
  split; [|split].
  - intros Hne. destruct slots as [|s0 rest]; [contradiction|].
    cbn [Editor.repairSelection].
    destruct selected as [i|]; [|exists s0; split; [left|]; reflexivity].
    destruct (Str.isEmpty i || negb (Editor.hasId Slot id i (s0 :: rest)))
      eqn:E; [exists s0; split; [left|]; reflexivity|].
    apply orb_false_iff in E as [_ Hh]. apply negb_false_iff in Hh.
    apply hasId_In in Hh as (s & Hin & <-). exists s. auto.
  - intros s Hin Hid ->. apply Hkeep; [apply isEmpty_false, Hid|].
    apply hasId_In. eauto.
  - destruct slots as [|s0 rest].
    + cbn [Editor.repairSelection]. destruct selected as [i|]; [|reflexivity].
      destruct (Str.isEmpty i) eqn:E; [rewrite E|]; reflexivity.
    + cbn [Editor.repairSelection Editor.firstId].
      destruct selected as [i|].
      * destruct (Str.isEmpty i || negb (Editor.hasId Slot id i (s0 :: rest)))
          eqn:E.
        -- destruct (Str.isEmpty (id s0)
                     || negb (Editor.hasId Slot id (id s0) (s0 :: rest)));
             reflexivity.
        -- rewrite E. reflexivity.
      * destruct (Str.isEmpty (id s0)
                  || negb (Editor.hasId Slot id (id s0) (s0 :: rest)));
          reflexivity.
Qed.

End EditorSlots.

(** ** The ticket region: clamping *)

(** *** Comparisons of numbers *)

Lemma SFcompare_antisym (x y : spec_float) :
  SFcompare y x = option_map CompOpp (SFcompare x y).
Proof.
  destruct x as [s1|s1| |s1 m1 e1], y as [s2|s2| |s2 m2 e2]; cbn;
    try reflexivity;
    try (destruct s1; reflexivity); try (destruct s2; reflexivity);
    try (destruct s1, s2; reflexivity).
  f_equal. destruct s1, s2; try reflexivity;
    rewrite (Z.compare_antisym e1 e2);
    destruct (e1 ?= e2)%Z; cbn; try reflexivity;
    change (Pos.compare_cont Eq m2 m1) with (Pos.compare m2 m1);
    change (Pos.compare_cont Eq m1 m2) with (Pos.compare m1 m2);
    rewrite (Pos.compare_antisym m1 m2);
    try rewrite CompOpp_involutive; reflexivity.
Qed.

Lemma is_nan_false_compare (x y : number) :
  PrimFloat.is_nan x = false -> PrimFloat.is_nan y = false ->
  exists c, SFcompare (Prim2SF x) (Prim2SF y) = Some c.
Proof.
  unfold PrimFloat.is_nan. rewrite !eqb_spec. unfold SFeqb.
  destruct (Prim2SF x) as [s1|s1| |s1 m1 e1], (Prim2SF y) as [s2|s2| |s2 m2 e2];
    cbn; try discriminate; intros _ _; eexists; reflexivity.
Qed.

Lemma num_ltb_leb (a b : number) : PrimFloat.ltb a b = true -> PrimFloat.leb a b = true.
Proof.
  rewrite ltb_spec, leb_spec. unfold SFltb, SFleb.
  destruct (SFcompare _ _) as [[]|]; try discriminate; reflexivity.
Qed.

Lemma num_not_ltb_leb (a b : number) :
  PrimFloat.is_nan a = false -> PrimFloat.is_nan b = false ->
  PrimFloat.ltb a b = false -> PrimFloat.leb b a = true.
Proof.
  intros Ha Hb. destruct (is_nan_false_compare a b Ha Hb) as [c Hc].
  rewrite ltb_spec, leb_spec. unfold SFltb, SFleb.
  rewrite (SFcompare_antisym (Prim2SF a) (Prim2SF b)), Hc. cbn.
  destruct c; try discriminate; reflexivity.
Qed.

Lemma num_leb_not_nan (a b : number) :
  PrimFloat.leb a b = true ->
  PrimFloat.is_nan a = false /\ PrimFloat.is_nan b = false.
Proof.
  rewrite leb_spec. unfold PrimFloat.is_nan. rewrite !eqb_spec.
  unfold SFleb, SFeqb.
  destruct (Prim2SF a) as [s1|s1| |s1 m1 e1], (Prim2SF b) as [s2|s2| |s2 m2 e2];
    cbn; try discriminate; intros _;
    rewrite ?Z.compare_refl, ?Pos.compare_cont_refl;
    try (destruct s1); try (destruct s2); cbn;
    rewrite ?Z.compare_refl, ?Pos.compare_cont_refl; split; reflexivity.
Qed.

(** *** [Math.max] and [Math.min] *)

Lemma max_cases (a b : number) :
  PrimFloat.is_nan a = false -> PrimFloat.is_nan b = false ->
  Math.max a b = a \/ Math.max a b = b.
Proof.
  intros Ha Hb. unfold Math.max. rewrite Ha, Hb. cbn [orb].
  destruct (PrimFloat.ltb a b); [right; reflexivity|].
  destruct (PrimFloat.ltb b a); [left; reflexivity|].
  destruct (Math.isNegativeZero a); [right|left]; reflexivity.
Qed.

Lemma min_cases (a b : number) :
  PrimFloat.is_nan a = false -> PrimFloat.is_nan b = false ->
  Math.min a b = a \/ Math.min a b = b.
Proof.
  intros Ha Hb. unfold Math.min. rewrite Ha, Hb. cbn [orb].
  destruct (PrimFloat.ltb a b); [left; reflexivity|].
  destruct (PrimFloat.ltb b a); [right; reflexivity|].
  destruct (Math.isNegativeZero b); [right|left]; reflexivity.
Qed.

Lemma num_leb_refl (a : number) : PrimFloat.is_nan a = false -> PrimFloat.leb a a = true.
Proof.
  intros Ha. apply num_not_ltb_leb; try assumption.
  rewrite ltb_spec. unfold SFltb.
  destruct (is_nan_false_compare a a Ha Ha) as [c Hc].
  pose proof (SFcompare_antisym (Prim2SF a) (Prim2SF a)) as H.
  rewrite Hc in H. cbn in H. rewrite Hc. destruct c; try reflexivity; discriminate.
Qed.

Lemma max_bounds (a b : number) :
  PrimFloat.is_nan a = false -> PrimFloat.is_nan b = false ->
  PrimFloat.leb a (Math.max a b) = true /\ PrimFloat.leb b (Math.max a b) = true.
Proof.
  intros Ha Hb. unfold Math.max. rewrite Ha, Hb. cbn [orb].
  destruct (PrimFloat.ltb a b) eqn:Eab.
  - split; [apply num_ltb_leb, Eab|apply num_leb_refl, Hb].
  - destruct (PrimFloat.ltb b a) eqn:Eba.
    + split; [apply num_leb_refl, Ha|apply num_ltb_leb, Eba].
    + destruct (Math.isNegativeZero a).
      * split; [apply num_not_ltb_leb; assumption|apply num_leb_refl, Hb].
      * split; [apply num_leb_refl, Ha|apply num_not_ltb_leb; assumption].
Qed.

Lemma min_bounds (a b : number) :
  PrimFloat.is_nan a = false -> PrimFloat.is_nan b = false ->
  PrimFloat.leb (Math.min a b) a = true /\ PrimFloat.leb (Math.min a b) b = true.
Proof.
  intros Ha Hb. unfold Math.min. rewrite Ha, Hb. cbn [orb].
  destruct (PrimFloat.ltb a b) eqn:Eab.
  - split; [apply num_leb_refl, Ha|apply num_ltb_leb, Eab].
  - destruct (PrimFloat.ltb b a) eqn:Eba.
    + split; [apply num_ltb_leb, Eba|apply num_leb_refl, Hb].
    + destruct (Math.isNegativeZero b).
      * split; [apply num_not_ltb_leb; assumption|apply num_leb_refl, Hb].
      * split; [apply num_leb_refl, Ha|apply num_not_ltb_leb; assumption].
Qed.

Lemma max_nan (a b : number) :
  PrimFloat.is_nan a = true \/ PrimFloat.is_nan b = true ->
  PrimFloat.is_nan (Math.max a b) = true.
Proof.
  unfold Math.max. intros [-> | ->]; rewrite ?orb_true_r; reflexivity.
Qed.

Lemma min_nan (a b : number) :
  PrimFloat.is_nan a = true \/ PrimFloat.is_nan b = true ->
  PrimFloat.is_nan (Math.min a b) = true.
Proof.
  unfold Math.min. intros [-> | ->]; rewrite ?orb_true_r; reflexivity.
Qed.

Lemma max_not_nan (a b : number) :
  PrimFloat.is_nan a = false -> PrimFloat.is_nan b = false ->
  PrimFloat.is_nan (Math.max a b) = false.
Proof. intros Ha Hb. destruct (max_cases a b Ha Hb) as [-> | ->]; assumption. Qed.

Lemma min_not_nan (a b : number) :
  PrimFloat.is_nan a = false -> PrimFloat.is_nan b = false ->
  PrimFloat.is_nan (Math.min a b) = false.
Proof. intros Ha Hb. destruct (min_cases a b Ha Hb) as [-> | ->]; assumption. Qed.

Lemma clamp_shape (v lo hi : number) :
  PrimFloat.is_nan v = false ->
  PrimFloat.leb lo hi = true ->
  PrimFloat.leb lo (ProxyCanvas.clamp v lo hi) = true /\
  PrimFloat.leb (ProxyCanvas.clamp v lo hi) hi = true /\
  (ProxyCanvas.clamp v lo hi = v \/ ProxyCanvas.clamp v lo hi = lo \/
   ProxyCanvas.clamp v lo hi = hi).
Proof.
  intros Hv Hle. destruct (num_leb_not_nan _ _ Hle) as [Hlo Hhi].
  unfold ProxyCanvas.clamp.
  pose proof (min_not_nan hi v Hhi Hv) as Hm.
  split; [apply (max_bounds lo _ Hlo Hm)|].
  destruct (max_cases lo _ Hlo Hm) as [-> | ->].
  - split; [exact Hle|]. right; left; reflexivity.
  - split; [apply (min_bounds hi v Hhi Hv)|].
    destruct (min_cases hi v Hhi Hv) as [-> | ->]; auto.
Qed.


(** *** The sign of a rounded number, and [1 - w] for [w <= 1] *)

Lemma shr_1_nonneg (mrs : shr_record) :
  (0 <= shr_m mrs)%Z -> (0 <= shr_m (shr_1 mrs))%Z.
Proof.
  destruct mrs as [m r s]. cbn [shr_m].
  destruct m as [|[p|p|]|p]; cbn; lia.
Qed.

Lemma iter_pos_nonneg (p : positive) (mrs : shr_record) :
  (0 <= shr_m mrs)%Z -> (0 <= shr_m (iter_pos shr_1 p mrs))%Z.
Proof.
  revert mrs. induction p as [p IH|p IH|]; intros mrs H; cbn [iter_pos].
  - apply IH, IH, shr_1_nonneg, H.
  - apply IH, IH, H.
  - apply shr_1_nonneg, H.
Qed.

Lemma shr_fexp_nonneg (m e : Z) (l : location) :
  (0 <= m)%Z -> (0 <= shr_m (fst (shr_fexp prec emax m e l)))%Z.
Proof.
  intros H. unfold shr_fexp, shr.
  assert (H0 : (0 <= shr_m (shr_record_of_loc m l))%Z)
    by (destruct l as [|[]]; exact H).
  destruct (_ - e)%Z; cbn [fst]; try exact H0.
  apply iter_pos_nonneg, H0.
Qed.

Lemma round_nearest_even_nonneg (m : Z) (l : location) :
  (0 <= m)%Z -> (0 <= round_nearest_even m l)%Z.
Proof.
  intros H. destruct l as [|[]]; cbn [round_nearest_even]; try lia.
  destruct (Z.even m); lia.
Qed.

Lemma binary_round_aux_sign (sx : bool) (mx ex : Z) (lx : location) :
  (0 <= mx)%Z -> signIs sx (binary_round_aux prec emax sx mx ex lx).
Proof.
  intros H. unfold binary_round_aux.
  pose proof (shr_fexp_nonneg mx ex lx H) as H1.
  destruct (shr_fexp prec emax mx ex lx) as [mrs' e']. cbn [fst] in H1.
  pose proof (shr_fexp_nonneg _ e' loc_Exact
                (round_nearest_even_nonneg _ (loc_of_shr_record mrs') H1)) as H2.
  destruct (shr_fexp prec emax _ e' loc_Exact) as [mrs'' e'']. cbn [fst] in H2.
  destruct (shr_m mrs'') as [|m|m]; [reflexivity| |lia].
  destruct (e'' <=? emax - prec)%Z; reflexivity.
Qed.

Lemma binary_normalize_nonneg (z e : Z) :
  (0 <= z)%Z -> signIs false (binary_normalize prec emax z e false).
Proof.
  intros H. destruct z as [|p|p]; cbn [binary_normalize]; [reflexivity| |lia].
  unfold binary_round. destruct (shl_align _ _ _) as [mz ez].
  apply binary_round_aux_sign. lia.
Qed.

Lemma signIs_false_ge_zero (x : number) :
  signIs false (Prim2SF x) -> PrimFloat.leb zero x = true.
Proof.
  rewrite leb_spec. change (Prim2SF zero) with (S754_zero false).
  destruct (Prim2SF x) as [s|s| |s m e]; cbn; try contradiction;
    intros ->; reflexivity.
Qed.

Lemma digits2_pos_bound (m : positive) :
  (Z.pos m < 2 ^ Z.pos (digits2_pos m))%Z.
Proof.
  induction m as [m IH|m IH|]; cbn [digits2_pos];
    rewrite ?Pos2Z.inj_succ, ?Z.pow_succ_r by lia; lia.
Qed.

Lemma valid_mantissa_bound (s : bool) (m : positive) (e : Z) :
  valid_binary (S754_finite s m e) = true ->
  (Z.pos m < 2 ^ 53)%Z.
Proof.
  unfold valid_binary, SpecFloat.valid_binary, bounded, canonical_mantissa, fexp.
  intros H. apply andb_true_iff in H. destruct H as [H _].
  apply Z.eqb_eq in H.
  assert (Hd : (Z.pos (digits2_pos m) <= 53)%Z) by (unfold prec in H; lia).
  apply Z.lt_le_trans with (1 := digits2_pos_bound m).
  apply Z.pow_le_mono_r; lia.
Qed.

Lemma iter_xO_double (p d : positive) :
  (2 * Z.pos p <= Z.pos (Pos.iter xO p d))%Z.
Proof.
  induction d as [|d IH] using Pos.peano_ind.
  - cbn. lia.
  - rewrite Pos.iter_succ. lia.
Qed.

Lemma one_minus_nonneg (w : number) :
  PrimFloat.leb w one = true -> PrimFloat.leb zero (PrimFloat.sub one w) = true.
Proof.
  intros Hle. apply signIs_false_ge_zero.
  rewrite sub_spec. rewrite leb_spec in Hle.
  pose proof (Prim2SF_valid w) as Hv.
  change (Prim2SF one) with (S754_finite false 4503599627370496 (-52)) in *.
  destruct (Prim2SF w) as [s|s| |s m e]; try discriminate Hle.
  - reflexivity.
  - destruct s; [reflexivity|discriminate Hle].
  - unfold SF64sub, SFsub. cbv zeta.
    apply binary_normalize_nonneg.
    destruct s; cbn [cond_Zopp]; [lia|].
    pose proof (valid_mantissa_bound _ _ _ Hv) as Hm.
    change (2 ^ 53)%Z with 9007199254740992%Z in Hm. clear Hv.
    unfold SFleb, SFcompare in Hle.
    destruct (e ?= -52)%Z eqn:Ee; try discriminate Hle.
    + apply Z.compare_eq in Ee. subst e.
      change (shl_align 4503599627370496 (-52) (Z.min (-52) (-52)))
        with (4503599627370496%positive, (-52)%Z).
      change (shl_align m (-52) (Z.min (-52) (-52))) with (m, (-52)%Z).
      cbn [fst].
      pose proof (Pos.compare_spec m 4503599627370496) as Hs.
      unfold Pos.compare in Hs. revert Hle.
      destruct Hs as [Hs|Hs|Hs]; intros Hle; try discriminate Hle.
      * rewrite Hs. discriminate.
      * apply Pos2Z.pos_lt_pos in Hs. clear Hle. lia.
    + change (e < -52)%Z in Ee. clear Hle.
      rewrite (Z.min_r (-52) e) by lia.
      unfold shl_align. rewrite Z.sub_diag.
      destruct (e - -52)%Z as [|d|d] eqn:Ed; try lia.
      cbn [fst].
      pose proof (iter_xO_double 4503599627370496 d) as Hi. lia.
Qed.

(** *** Numbers that compare equal *)

Lemma SFcompare_Eq_inv (x y : spec_float) :
  SFcompare x y = Some Eq ->
  x = y \/ exists s1 s2, x = S754_zero s1 /\ y = S754_zero s2.
Proof.
  destruct x as [s1|s1| |s1 m1 e1], y as [s2|s2| |s2 m2 e2]; cbn; intros H;
    try discriminate H;
    try solve [right; eauto];
    try solve [destruct s1; discriminate H];
    try solve [destruct s2; discriminate H];
    try solve [destruct s1, s2; try discriminate H; left; reflexivity].
  left.
  assert (Hs : s1 = s2) by (destruct s1, s2; try reflexivity; discriminate H).
  subst s2.
  destruct (e1 ?= e2)%Z eqn:Ee;
    try solve [destruct s1; discriminate H].
  apply Z.compare_eq in Ee. subst e2.
  assert (Hm : Pos.compare m1 m2 = Eq).
  { unfold Pos.compare.
    destruct s1, (Pos.compare_cont Eq m1 m2); try discriminate H; reflexivity. }
  apply Pos.compare_eq in Hm. subst m2. reflexivity.
Qed.

Lemma num_eqb_compare (a b : number) (z : spec_float) :
  PrimFloat.eqb a b = true ->
  SFcompare (Prim2SF a) z = SFcompare (Prim2SF b) z.
Proof.
  rewrite eqb_spec. unfold SFeqb.
  destruct (SFcompare (Prim2SF a) (Prim2SF b)) as [[]|] eqn:E; try discriminate.
  intros _. destruct (SFcompare_Eq_inv _ _ E) as [->|(s1 & s2 & -> & ->)];
    [reflexivity|].
  destruct z; reflexivity.
Qed.

Lemma num_eqb_trans (a b c : number) :
  PrimFloat.eqb a b = true -> PrimFloat.eqb b c = true ->
  PrimFloat.eqb a c = true.
Proof.
  intros Hab Hbc. rewrite eqb_spec in Hbc |- *. unfold SFeqb in *.
  rewrite (num_eqb_compare a b _ Hab). exact Hbc.
Qed.

Lemma num_eqb_refl (a : number) :
  PrimFloat.is_nan a = false -> PrimFloat.eqb a a = true.
Proof. unfold PrimFloat.is_nan. intros H. apply negb_false_iff in H. exact H. Qed.

Lemma num_not_ltb_eqb (a b : number) :
  PrimFloat.is_nan a = false -> PrimFloat.is_nan b = false ->
  PrimFloat.ltb a b = false -> PrimFloat.ltb b a = false ->
  PrimFloat.eqb a b = true.
Proof.
  intros Ha Hb. destruct (is_nan_false_compare a b Ha Hb) as [c Hc].
  rewrite !ltb_spec, eqb_spec. unfold SFltb, SFeqb.
  rewrite (SFcompare_antisym (Prim2SF a) (Prim2SF b)), Hc. cbn.
  destruct c; try discriminate; reflexivity.
Qed.

Lemma num_leb_not_ltb (a b : number) :
  PrimFloat.leb a b = true -> PrimFloat.ltb b a = false.
Proof.
  rewrite leb_spec, ltb_spec. unfold SFleb, SFltb.
  rewrite (SFcompare_antisym (Prim2SF a) (Prim2SF b)).
  destruct (SFcompare _ _) as [[]|]; try discriminate; reflexivity.
Qed.

Lemma min_in_range (hi v : number) :
  PrimFloat.leb v hi = true ->
  PrimFloat.eqb (Math.min hi v) v = true.
Proof.
  intros Hle. destruct (num_leb_not_nan _ _ Hle) as [Hv Hhi].
  unfold Math.min. rewrite Hhi, Hv. cbn [orb].
  rewrite (num_leb_not_ltb _ _ Hle).
  destruct (PrimFloat.ltb v hi) eqn:E; [apply num_eqb_refl, Hv|].
  destruct (Math.isNegativeZero v); [apply num_eqb_refl, Hv|].
  apply num_not_ltb_eqb; try assumption. apply num_leb_not_ltb, Hle.
Qed.

Lemma max_in_range (lo m v : number) :
  PrimFloat.leb lo v = true -> PrimFloat.eqb m v = true ->
  PrimFloat.is_nan m = false ->
  PrimFloat.eqb (Math.max lo m) v = true.
Proof.
  intros Hle Hmv Hm. destruct (num_leb_not_nan _ _ Hle) as [Hlo Hv].
  unfold Math.max. rewrite Hlo, Hm. cbn [orb].
  destruct (PrimFloat.ltb lo m) eqn:E1; [exact Hmv|].
  assert (E2 : PrimFloat.ltb m lo = false).
  { rewrite ltb_spec. unfold SFltb. rewrite (num_eqb_compare m v _ Hmv).
    pose proof (num_leb_not_ltb _ _ Hle) as H. rewrite ltb_spec in H. exact H. }
  rewrite E2.
  destruct (Math.isNegativeZero lo); [exact Hmv|].
  apply num_eqb_trans with (b := m); [|exact Hmv].
  apply num_not_ltb_eqb; assumption.
Qed.

(** X22: clamp(v, min, max), for v not NaN and min <= max, is between min
    and max, is one of v, min and max, and equals v when v is already
    between min and max. *)
Theorem clamp_within_bounds (v min max : number) :
  PrimFloat.is_nan v = false ->
  PrimFloat.leb min max = true ->
  PrimFloat.leb min (ProxyCanvas.clamp v min max) = true /\
  PrimFloat.leb (ProxyCanvas.clamp v min max) max = true /\
  (ProxyCanvas.clamp v min max = v \/ ProxyCanvas.clamp v min max = min \/
   ProxyCanvas.clamp v min max = max) /\
  (PrimFloat.leb min v = true -> PrimFloat.leb v max = true ->
   PrimFloat.eqb (ProxyCanvas.clamp v min max) v = true).
Proof.
  intros Hv Hle.
  destruct (clamp_shape v min max Hv Hle) as (H1 & H2 & H3).
  repeat (split; [assumption|]).
  intros Hlo Hhi. unfold ProxyCanvas.clamp.
  destruct (num_leb_not_nan _ _ Hle) as [_ Hmax].
  apply max_in_range; [exact Hlo|apply min_in_range, Hhi|].
  apply min_not_nan; assumption.
Qed.

Lemma clamp01_clamp (v : number) :
  ProxyCanvas.clamp01 v = ProxyCanvas.clamp v zero one.
Proof. reflexivity. Qed.

Lemma negative_below_one (v : number) :
  PrimFloat.ltb v zero = true ->
  PrimFloat.ltb v one = true /\ PrimFloat.ltb one v = false.
Proof.
  rewrite !ltb_spec. unfold SFltb.
  change (Prim2SF zero) with (S754_zero false).
  change (Prim2SF one) with (S754_finite false 4503599627370496 (-52)).
  destruct (Prim2SF v) as [s|s| |s m e]; try discriminate;
    destruct s; try discriminate; intros _; split; reflexivity.
Qed.

(** X23: clamp01(v), for v not NaN, is between 0 and 1; it equals v when
    v is between 0 and 1, is 0 when v is below 0 and 1 when v is above
    1. *)
Theorem clamp01_unit_interval (v : number) :
  PrimFloat.is_nan v = false ->
  PrimFloat.leb zero (ProxyCanvas.clamp01 v) = true /\
  PrimFloat.leb (ProxyCanvas.clamp01 v) one = true /\
  (PrimFloat.leb zero v = true -> PrimFloat.leb v one = true ->
   PrimFloat.eqb (ProxyCanvas.clamp01 v) v = true) /\
  (PrimFloat.ltb v zero = true -> ProxyCanvas.clamp01 v = zero) /\
  (PrimFloat.ltb one v = true -> ProxyCanvas.clamp01 v = one).
Proof.
  intros Hv. rewrite clamp01_clamp.
  assert (H01 : PrimFloat.leb zero one = true) by reflexivity.
  destruct (clamp_shape v zero one Hv H01) as (H1 & H2 & _).
  split; [exact H1|]. split; [exact H2|]. split; [|split].
  - intros Hlo Hhi. unfold ProxyCanvas.clamp.
    apply max_in_range; [exact Hlo|apply min_in_range, Hhi|].
    apply min_not_nan; [reflexivity|exact Hv].
  - intros Hlt. destruct (negative_below_one v Hlt) as [E' E].
    unfold ProxyCanvas.clamp, Math.min.
    rewrite Hv. change (PrimFloat.is_nan one) with false. cbn [orb].
    rewrite E, E'. unfold Math.max. rewrite Hv.
    change (PrimFloat.is_nan zero) with false. cbn [orb].
    rewrite Hlt. rewrite (num_leb_not_ltb _ _ (num_ltb_leb _ _ Hlt)). reflexivity.
  - intros Hlt. unfold ProxyCanvas.clamp, Math.min.
    rewrite Hv. change (PrimFloat.is_nan one) with false. cbn [orb].
    rewrite Hlt. reflexivity.
Qed.

Lemma anyNaN_false (r : TicketRegion.t) :
  TicketRegion.anyNaN r = false ->
  PrimFloat.is_nan (TicketRegion.x r) = false /\
  PrimFloat.is_nan (TicketRegion.y r) = false /\
  PrimFloat.is_nan (TicketRegion.width r) = false /\
  PrimFloat.is_nan (TicketRegion.height r) = false.
Proof.
  unfold TicketRegion.anyNaN. intros H.
  apply orb_false_iff in H. destruct H as [H Hh].
  apply orb_false_iff in H. destruct H as [H Hw].
  apply orb_false_iff in H. destruct H as [Hx Hy].
  repeat split; assumption.
Qed.

(** The fields of a clamped region, as calls of [clamp]. *)
Lemma clampTicketRegion_fields (r : TicketRegion.t) :
  let c := ProxyCanvas.clampTicketRegion r in
  TicketRegion.width c
  = ProxyCanvas.clamp (TicketRegion.width r) ProxyCanvas.minW one /\
  TicketRegion.height c
  = ProxyCanvas.clamp (TicketRegion.height r) ProxyCanvas.minH one /\
  TicketRegion.x c
  = ProxyCanvas.clamp (TicketRegion.x r) zero
      (PrimFloat.sub one (TicketRegion.width c)) /\
  TicketRegion.y c
  = ProxyCanvas.clamp (TicketRegion.y r) zero
      (PrimFloat.sub one (TicketRegion.height c)).
Proof. repeat split. Qed.

(** X24: clampTicketRegion, of a region without NaN, returns a region
    whose width and height are between 0.02 and 1, whose x is between 0
    and 1 - width and whose y is between 0 and 1 - height (the
    subtraction being the one of numbers). *)
Theorem clampTicketRegion_within_page (r : TicketRegion.t) :
  TicketRegion.anyNaN r = false ->
  let c := ProxyCanvas.clampTicketRegion r in
  PrimFloat.leb ProxyCanvas.minW (TicketRegion.width c) = true /\
  PrimFloat.leb (TicketRegion.width c) one = true /\
  PrimFloat.leb ProxyCanvas.minH (TicketRegion.height c) = true /\
  PrimFloat.leb (TicketRegion.height c) one = true /\
  PrimFloat.leb zero (TicketRegion.x c) = true /\
  PrimFloat.leb (TicketRegion.x c) (PrimFloat.sub one (TicketRegion.width c)) = true /\
  PrimFloat.leb zero (TicketRegion.y c) = true /\
  PrimFloat.leb (TicketRegion.y c) (PrimFloat.sub one (TicketRegion.height c)) = true.
Proof.
  intros Hn c. destruct (anyNaN_false r Hn) as (Hx & Hy & Hw & Hh).
  destruct (clampTicketRegion_fields r) as (Ew & Eh & Ex & Ey).
  fold c in Ew, Eh, Ex, Ey.
  assert (Hmin : PrimFloat.leb ProxyCanvas.minW one = true) by reflexivity.
  destruct (clamp_shape (TicketRegion.width r) ProxyCanvas.minW one Hw Hmin)
    as (W1 & W2 & _).
  assert (Hmin' : PrimFloat.leb ProxyCanvas.minH one = true) by reflexivity.
  destruct (clamp_shape (TicketRegion.height r) ProxyCanvas.minH one Hh Hmin')
    as (H1 & H2 & _).
  rewrite <- Ew in W1, W2.
  rewrite <- Eh in H1, H2.
  destruct (clamp_shape (TicketRegion.x r) zero _ Hx (one_minus_nonneg _ W2))
    as (X1 & X2 & _).
  destruct (clamp_shape (TicketRegion.y r) zero _ Hy (one_minus_nonneg _ H2))
    as (Y1 & Y2 & _).
  rewrite <- Ex in X1, X2. rewrite <- Ey in Y1, Y2.
  repeat split; assumption.
Qed.

Lemma is_nan_Prim2SF (x : number) :
  PrimFloat.is_nan x = true -> Prim2SF x = S754_nan.
Proof.
  unfold PrimFloat.is_nan. rewrite eqb_spec. unfold SFeqb.
  intros H. apply negb_true_iff in H.
  destruct (Prim2SF x) as [s|s| |s m e]; try reflexivity; exfalso.
  - discriminate H.
  - destruct s; discriminate H.
  - cbn in H. rewrite Z.compare_refl, Pos.compare_cont_refl in H.
    destruct s; discriminate H.
Qed.

Lemma sub_nan_r (a x : number) :
  PrimFloat.is_nan x = true -> PrimFloat.is_nan (PrimFloat.sub a x) = true.
Proof.
  intros H. apply is_nan_Prim2SF in H.
  unfold PrimFloat.is_nan. rewrite eqb_spec, sub_spec, H.
  unfold SF64sub, SFsub. destruct (Prim2SF a); reflexivity.
Qed.

Lemma is_nan_not_finite (x : number) :
  PrimFloat.is_nan x = true -> is_finite x = false.
Proof. intros H. unfold is_finite. rewrite H. reflexivity. Qed.

Lemma anyNaN_not_valid (r : TicketRegion.t) :
  TicketRegion.anyNaN r = true ->
  ProxyCanvas.hasValidTicketRegion (Some r) = false.
Proof.
  intros Hn. unfold ProxyCanvas.hasValidTicketRegion. cbv zeta.
  assert (E : forallb is_finite
                [TicketRegion.x r; TicketRegion.y r;
                 TicketRegion.width r; TicketRegion.height r] = false).
  { unfold TicketRegion.anyNaN in Hn. cbn [forallb].
    destruct (PrimFloat.is_nan (TicketRegion.x r)) eqn:Ex;
      [rewrite (is_nan_not_finite _ Ex); reflexivity|].
    destruct (PrimFloat.is_nan (TicketRegion.y r)) eqn:Ey;
      [rewrite (is_nan_not_finite _ Ey), andb_false_r; reflexivity|].
    destruct (PrimFloat.is_nan (TicketRegion.width r)) eqn:Ew;
      [rewrite (is_nan_not_finite _ Ew), !andb_false_r; reflexivity|].
    cbn [orb] in Hn.
    rewrite (is_nan_not_finite _ Hn), !andb_false_r. reflexivity. }
  rewrite E. reflexivity.
Qed.

(** X25: a region with a NaN field is not repaired by clampTicketRegion:
    the clamped region has a NaN field too, and hasValidTicketRegion
    answers false for it. *)
Theorem nan_region_is_never_valid (r : TicketRegion.t) :
  TicketRegion.anyNaN r = true ->
  TicketRegion.anyNaN (ProxyCanvas.clampTicketRegion r) = true /\
  ProxyCanvas.hasValidTicketRegion (Some (ProxyCanvas.clampTicketRegion r))
  = false.
Proof.
  intros Hn.
  assert (Hc : TicketRegion.anyNaN (ProxyCanvas.clampTicketRegion r) = true).
  { assert (Hf : forall lo hi v, PrimFloat.is_nan v = true ->
                   PrimFloat.is_nan (Math.max lo (Math.min hi v)) = true).
    { intros lo hi v Hv. apply max_nan. right. apply min_nan. right.
      exact Hv. }
    unfold TicketRegion.anyNaN in Hn |- *.
    unfold ProxyCanvas.clampTicketRegion.
    cbn [TicketRegion.x TicketRegion.y TicketRegion.width
         TicketRegion.height].
    destruct (PrimFloat.is_nan (TicketRegion.x r)) eqn:Ex;
      [rewrite (Hf _ _ _ Ex); reflexivity|].
    destruct (PrimFloat.is_nan (TicketRegion.y r)) eqn:Ey;
      [rewrite (Hf _ _ _ Ey), orb_true_r; reflexivity|].
    destruct (PrimFloat.is_nan (TicketRegion.width r)) eqn:Ew;
      [rewrite (Hf ProxyCanvas.minW one _ Ew), !orb_true_r; reflexivity|].
    cbn [orb] in Hn.
    rewrite (Hf ProxyCanvas.minH one _ Hn), !orb_true_r. reflexivity. }
  split; [exact Hc|]. exact (anyNaN_not_valid _ Hc).
Qed.

Lemma num_eqb_not_ltb (a b : number) :
  PrimFloat.eqb a b = true -> PrimFloat.ltb b a = false.
Proof.
  rewrite eqb_spec, ltb_spec. unfold SFeqb, SFltb.
  rewrite (SFcompare_antisym (Prim2SF a) (Prim2SF b)).
  destruct (SFcompare _ _) as [[]|]; try discriminate; reflexivity.
Qed.

Lemma max_canonical (lo m : number) :
  PrimFloat.is_nan lo = false -> PrimFloat.is_nan m = false ->
  Math.isNegativeZero lo = false ->
  Math.max lo m = lo \/ PrimFloat.ltb lo (Math.max lo m) = true.
Proof.
  intros Hlo Hm Hz. unfold Math.max. rewrite Hlo, Hm, Hz. cbn [orb].
  destruct (PrimFloat.ltb lo m) eqn:E; [right; exact E|].
  left. destruct (PrimFloat.ltb m lo); reflexivity.
Qed.

Lemma max_nan_eq (a b : number) :
  PrimFloat.is_nan a = true \/ PrimFloat.is_nan b = true ->
  Math.max a b = nan.
Proof.
  unfold Math.max. intros [-> | ->]; rewrite ?orb_true_r; reflexivity.
Qed.

Lemma min_nan_eq (a b : number) :
  PrimFloat.is_nan a = true \/ PrimFloat.is_nan b = true ->
  Math.min a b = nan.
Proof.
  unfold Math.min. intros [-> | ->]; rewrite ?orb_true_r; reflexivity.
Qed.

Lemma num_eqb_eq_above (lo a b : number) :
  PrimFloat.leb zero lo = true -> PrimFloat.ltb lo b = true ->
  PrimFloat.eqb a b = true -> a = b.
Proof.
  intros H0 Hlt Heq. apply Prim2SF_inj.
  rewrite eqb_spec in Heq. unfold SFeqb in Heq.
  destruct (SFcompare (Prim2SF a) (Prim2SF b)) as [[]|] eqn:E;
    try discriminate Heq.
  destruct (SFcompare_Eq_inv _ _ E) as [H|(s1 & s2 & Ha & Hb)]; [exact H|].
  exfalso. rewrite leb_spec in H0. rewrite ltb_spec, Hb in Hlt.
  change (Prim2SF zero) with (S754_zero false) in H0.
  unfold SFleb, SFltb in *.
  destruct (Prim2SF lo) as [s|s| |s m e]; try discriminate Hlt;
    destruct s; try discriminate Hlt; discriminate H0.
Qed.

Lemma clamp_idempotent (v lo hi : number) :
  PrimFloat.leb zero lo = true ->
  Math.isNegativeZero lo = false ->
  PrimFloat.is_nan hi = true \/ PrimFloat.leb lo hi = true ->
  ProxyCanvas.clamp (ProxyCanvas.clamp v lo hi) lo hi = ProxyCanvas.clamp v lo hi.
Proof.
  intros H0 Hz Hhi.
  destruct (num_leb_not_nan _ _ H0) as [_ Hlo].
  assert (Hnan : forall u, PrimFloat.is_nan hi = true \/ PrimFloat.is_nan u = true ->
                           ProxyCanvas.clamp u lo hi = nan).
  { intros u Hu. unfold ProxyCanvas.clamp. apply max_nan_eq. right.
    apply min_nan. exact Hu. }
  destruct Hhi as [Hhi|Hle].
  { rewrite !Hnan by (left; exact Hhi). reflexivity. }
  destruct (PrimFloat.is_nan v) eqn:Hv.
  { rewrite (Hnan v) by (right; exact Hv).
    apply Hnan. right. reflexivity. }
  destruct (clamp_shape v lo hi Hv Hle) as (C1 & C2 & _).
  set (c := ProxyCanvas.clamp v lo hi) in *.
  destruct (num_leb_not_nan _ _ C2) as [Hc Hhi].
  assert (Heq : PrimFloat.eqb (ProxyCanvas.clamp c lo hi) c = true).
  { unfold ProxyCanvas.clamp. apply max_in_range; [exact C1|apply min_in_range, C2|].
    apply min_not_nan; assumption. }
  destruct (max_canonical lo (Math.min hi v) Hlo (min_not_nan hi v Hhi Hv) Hz)
    as [Ec|Ec]; fold (ProxyCanvas.clamp v lo hi) in Ec; fold c in Ec.
  - destruct (max_canonical lo (Math.min hi c) Hlo (min_not_nan hi c Hhi Hc) Hz)
      as [Ec2|Ec2]; fold (ProxyCanvas.clamp c lo hi) in Ec2.
    + rewrite Ec2, Ec. reflexivity.
    + pose proof (num_eqb_not_ltb _ _ Heq) as Hn.
      rewrite Ec in Hn at 1. rewrite Hn in Ec2. discriminate Ec2.
  - exact (num_eqb_eq_above lo _ c H0 Ec Heq).
Qed.

(** A clamped region, as calls of [clamp]. *)
Lemma clampTicketRegion_clamp (r : TicketRegion.t) :
  ProxyCanvas.clampTicketRegion r
  = TicketRegion.make
      (ProxyCanvas.clamp (TicketRegion.x r) zero
         (PrimFloat.sub one
            (ProxyCanvas.clamp (TicketRegion.width r) ProxyCanvas.minW one)))
      (ProxyCanvas.clamp (TicketRegion.y r) zero
         (PrimFloat.sub one
            (ProxyCanvas.clamp (TicketRegion.height r) ProxyCanvas.minH one)))
      (ProxyCanvas.clamp (TicketRegion.width r) ProxyCanvas.minW one)
      (ProxyCanvas.clamp (TicketRegion.height r) ProxyCanvas.minH one).
Proof. reflexivity. Qed.

(** [1 - w], for a clamped side [w], is NaN or at least 0. *)
Lemma one_minus_clamped (w lo : number) :
  PrimFloat.leb lo one = true ->
  PrimFloat.is_nan (PrimFloat.sub one (ProxyCanvas.clamp w lo one)) = true \/
  PrimFloat.leb zero (PrimFloat.sub one (ProxyCanvas.clamp w lo one)) = true.
Proof.
  intros Hlo. destruct (PrimFloat.is_nan w) eqn:E.
  - left. apply sub_nan_r. unfold ProxyCanvas.clamp. apply max_nan. right.
    apply min_nan. right. exact E.
  - right. apply one_minus_nonneg. apply (clamp_shape w lo one E Hlo).
Qed.

(** X26: clampTicketRegion applied to its own result returns that result
    unchanged, for every region (NaN fields included). *)
Theorem clampTicketRegion_idempotent (r : TicketRegion.t) :
  ProxyCanvas.clampTicketRegion (ProxyCanvas.clampTicketRegion r)
  = ProxyCanvas.clampTicketRegion r.
Proof.
  rewrite (clampTicketRegion_clamp (ProxyCanvas.clampTicketRegion r)).
  rewrite (clampTicketRegion_clamp r).
  cbn [TicketRegion.x TicketRegion.y TicketRegion.width TicketRegion.height].
  assert (Hside : forall w,
             ProxyCanvas.clamp (ProxyCanvas.clamp w ProxyCanvas.minW one)
               ProxyCanvas.minW one
             = ProxyCanvas.clamp w ProxyCanvas.minW one).
  { intros w. apply clamp_idempotent; try reflexivity. right. reflexivity. }
  rewrite (Hside (TicketRegion.width r)).
  change ProxyCanvas.minH with ProxyCanvas.minW.
  rewrite (Hside (TicketRegion.height r)).
  rewrite !clamp_idempotent; try reflexivity;
    apply one_minus_clamped; reflexivity.
Qed.

(** ** The upload page *)

Lemma filter_other_id (x : string) (l : list string) :
  ~ In x l -> filter (fun id => negb (String.eqb id x)) l = l.
Proof.
  induction l as [|a l IH]; intros Hn; [reflexivity|].
  cbn [filter]. destruct (String.eqb a x) eqn:E.
  - apply String.eqb_eq in E. subst a. exfalso. apply Hn. left. reflexivity.
  - cbn [negb]. rewrite IH; [reflexivity|].
    intros Hin. apply Hn. right. exact Hin.
Qed.

(** X27: one click of toggleSelectedUser flips whether the id is
    selected and keeps every other id as it was; a list without
    duplicates stays without duplicates; two clicks on an id that was
    not selected give the list back. *)
Theorem toggleSelectedUser_flips (userId : string) (prev : list string) :
  (In userId (Upload.toggleSelectedUser userId prev) <-> ~ In userId prev) /\
  (forall id, id <> userId ->
     (In id (Upload.toggleSelectedUser userId prev) <-> In id prev)) /\
  (NoDup prev -> NoDup (Upload.toggleSelectedUser userId prev)) /\
  (~ In userId prev ->
   Upload.toggleSelectedUser userId (Upload.toggleSelectedUser userId prev)
   = prev).
Proof.
  unfold Upload.toggleSelectedUser at 1 2 3.
  destruct (existsb (String.eqb userId) prev) eqn:E.
  - assert (Hin : In userId prev) by (apply existsb_eqb_In; exact E).
    split; [|split; [|split]].
    + rewrite filter_In. split.
      * intros [_ H]. rewrite String.eqb_refl in H. discriminate H.
      * intros H. contradiction.
    + intros id Hid. rewrite filter_In. split; [intros [H _]; exact H|].
      intros H. split; [exact H|].
      destruct (String.eqb id userId) eqn:Eid; [|reflexivity].
      apply String.eqb_eq in Eid. contradiction.
    + intros Hnd. apply NoDup_filter. exact Hnd.
    + intros H. contradiction.
  - assert (Hn : ~ In userId prev).
    { intros Hin. apply existsb_eqb_In in Hin. rewrite Hin in E.
      discriminate E. }
    split; [|split; [|split]].
    + rewrite in_app_iff. split; [intros _; exact Hn|].
      intros _. right. left. reflexivity.
    + intros id Hid. rewrite in_app_iff. split; [|intros H; left; exact H].
      intros [H|[H|[]]]; [exact H|]. exfalso. apply Hid. symmetry. exact H.
    + intros Hnd. apply NoDup_app; [exact Hnd|repeat constructor; intros []|].
      intros x Hx [<-|[]]. exact (Hn Hx).
    + intros _. unfold Upload.toggleSelectedUser.
      assert (E2 : existsb (String.eqb userId) (prev ++ [userId]) = true).
      { apply existsb_eqb_In. rewrite in_app_iff. right. left. reflexivity. }
      rewrite E, E2. rewrite filter_app. cbn [filter].
      rewrite String.eqb_refl. cbn [negb]. rewrite app_nil_r.
      apply filter_other_id. exact Hn.
Qed.

Section UploadCrop.

Context {host : Host}.

Lemma parseNullableNumber_finite (raw : string) (n : number) :
  Upload.parseNullableNumber raw = Some n -> is_finite n = true.
Proof.
  unfold Upload.parseNullableNumber. cbv zeta.
  destruct (Str.isEmpty (Str.trim raw)); [discriminate|].
  destruct (is_finite (StringToNumber (Str.trim raw))) eqn:E; [|discriminate].
  intros H. inversion H. subst n. exact E.
Qed.

Ltac crop_cases o :=
  unfold Upload.ticketCropMm, Upload.numberField, Upload.numberOrUndefined;
  cbv zeta;
  destruct (Upload.parseNullableNumber (Overrides.overrideXmm o)) as [x|];
  destruct (Upload.parseNullableNumber (Overrides.overrideYmm o)) as [y|];
  destruct (Upload.parseNullableNumber (Overrides.overrideWidthMm o)) as [w|];
  destruct (Upload.parseNullableNumber (Overrides.overrideHeightMm o)) as [h|];
  destruct (Upload.parseNullableNumber (Overrides.overrideCutMarginMm o))
    as [c|];
  destruct (Upload.parseNullableNumber (Overrides.overrideRotationDeg o))
    as [r|];
  destruct (String.eqb (Overrides.overrideKeepProportions o) "default");
  destruct (String.eqb (Overrides.overrideAlignment o) "default");
  cbn [option_map negb Upload.assign app].

Lemma crop_get_width (o : Overrides.t) :
  get (VObject (Upload.ticketCropMm o)) "widthMm"
  = Upload.numberOrUndefined (Overrides.overrideWidthMm o).
Proof. cbn [get]. crop_cases o; reflexivity. Qed.

Lemma crop_get_height (o : Overrides.t) :
  get (VObject (Upload.ticketCropMm o)) "heightMm"
  = Upload.numberOrUndefined (Overrides.overrideHeightMm o).
Proof. cbn [get]. crop_cases o; reflexivity. Qed.

Lemma crop_get_x (o : Overrides.t) :
  get (VObject (Upload.ticketCropMm o)) "xMm"
  = Upload.numberOrUndefined (Overrides.overrideXmm o).
Proof. cbn [get]. crop_cases o; reflexivity. Qed.

Lemma crop_get_y (o : Overrides.t) :
  get (VObject (Upload.ticketCropMm o)) "yMm"
  = Upload.numberOrUndefined (Overrides.overrideYmm o).
Proof. cbn [get]. crop_cases o; reflexivity. Qed.

Lemma client_get (o : Overrides.t) (k : string) :
  get (Upload.ticketCropMmForClient o) k
  = get (VObject (Upload.ticketCropMm o)) k.
Proof.
  unfold Upload.ticketCropMmForClient, Upload.hasTicketCropMm.
  destruct (Upload.ticketCropMm o); reflexivity.
Qed.

Lemma crop_numbers_finite (o : Overrides.t) (k : string) (n : number) :
  In (k, VNumber n) (Upload.ticketCropMm o) -> is_finite n = true.
Proof.
  unfold Upload.ticketCropMm, Upload.numberField. cbv zeta.
  destruct (Upload.parseNullableNumber (Overrides.overrideXmm o))
    as [x|] eqn:Ex;
  destruct (Upload.parseNullableNumber (Overrides.overrideYmm o))
    as [y|] eqn:Ey;
  destruct (Upload.parseNullableNumber (Overrides.overrideWidthMm o))
    as [w|] eqn:Ew;
  destruct (Upload.parseNullableNumber (Overrides.overrideHeightMm o))
    as [h|] eqn:Eh;
  destruct (Upload.parseNullableNumber (Overrides.overrideCutMarginMm o))
    as [c|] eqn:Ec;
  destruct (Upload.parseNullableNumber (Overrides.overrideRotationDeg o))
    as [r|] eqn:Er;
  destruct (String.eqb (Overrides.overrideKeepProportions o) "default");
  destruct (String.eqb (Overrides.overrideAlignment o) "default");
  cbn [option_map negb Upload.assign app In]; intros Hin;
  repeat match goal with
         | H : _ \/ _ |- _ => destruct H as [H|H]
         | H : False |- _ => contradiction
         | H : (_, _) = (_, VNumber _) |- _ => inversion H; subst; clear H
         end;
  eauto using parseNullableNumber_finite.
Qed.

(** X28: the object handleUpload fills from the form holds, under each of
    its six number keys, the number parsed from that field and nothing
    when the field is blank or not a finite number; under
    keepProportions and alignment, a value only when the choice is not
    'default'; no key twice; every number in it is finite; and the
    client receives null exactly when the object has no key, the object
    itself otherwise. *)
Theorem upload_crop_fields (o : Overrides.t) :
  get (VObject (Upload.ticketCropMm o)) "xMm"
  = Upload.numberOrUndefined (Overrides.overrideXmm o) /\
  get (VObject (Upload.ticketCropMm o)) "yMm"
  = Upload.numberOrUndefined (Overrides.overrideYmm o) /\
  get (VObject (Upload.ticketCropMm o)) "widthMm"
  = Upload.numberOrUndefined (Overrides.overrideWidthMm o) /\
  get (VObject (Upload.ticketCropMm o)) "heightMm"
  = Upload.numberOrUndefined (Overrides.overrideHeightMm o) /\
  get (VObject (Upload.ticketCropMm o)) "cutMarginMm"
  = Upload.numberOrUndefined (Overrides.overrideCutMarginMm o) /\
  get (VObject (Upload.ticketCropMm o)) "rotationDeg"
  = Upload.numberOrUndefined (Overrides.overrideRotationDeg o) /\
  get (VObject (Upload.ticketCropMm o)) "keepProportions"
  = (if String.eqb (Overrides.overrideKeepProportions o) "default"
     then VUndefined
     else VBool (String.eqb (Overrides.overrideKeepProportions o) "on")) /\
  get (VObject (Upload.ticketCropMm o)) "alignment"
  = (if String.eqb (Overrides.overrideAlignment o) "default"
     then VUndefined
     else VString (Overrides.overrideAlignment o)) /\
  NoDup (map fst (Upload.ticketCropMm o)) /\
  (forall k n, In (k, VNumber n) (Upload.ticketCropMm o) ->
     is_finite n = true) /\
  (Upload.ticketCropMmForClient o = VNull
   <-> Upload.ticketCropMm o = []) /\
  (Upload.ticketCropMmForClient o <> VNull ->
   Upload.ticketCropMmForClient o = VObject (Upload.ticketCropMm o)).
Proof.
  split; [apply crop_get_x|]. split; [apply crop_get_y|].
  split; [apply crop_get_width|]. split; [apply crop_get_height|].
  split; [cbn [get]; crop_cases o; reflexivity|].
  split; [cbn [get]; crop_cases o; reflexivity|].
  split; [cbn [get]; crop_cases o; reflexivity|].
  split; [cbn [get]; crop_cases o; reflexivity|].
  split.
  { crop_cases o; cbn [map fst];
      repeat (constructor; [cbn [In]; intros Hin;
                            repeat (destruct Hin as [Hin|Hin];
                                    [discriminate Hin|]); exact Hin|]);
      constructor. }
  split; [exact (crop_numbers_finite o)|].
  unfold Upload.ticketCropMmForClient, Upload.hasTicketCropMm.
  destruct (Upload.ticketCropMm o) as [|p l]; cbn.
  - split; [split; reflexivity|]. intros H. contradiction.
  - split; [split; discriminate|]. reflexivity.
Qed.

(** X29: the ticket editor that receives the object of the upload form
    enables Generate exactly when the width and the height fields of the
    form parse to finite numbers above 0, the width at most 210 and the
    height at most 74.25; the rectangle it draws then has that width and
    height and the parsed position, 0 standing for a blank field. *)
Theorem upload_crop_enables_generate (o : Overrides.t) :
  (Editor.generateDisabledReason (Upload.ticketCropMmForClient o) = None
   <-> exists w h,
         Upload.parseNullableNumber (Overrides.overrideWidthMm o) = Some w /\
         Upload.parseNullableNumber (Overrides.overrideHeightMm o) = Some h /\
         gt w zero = true /\ gt h zero = true /\
         gt w Editor.MAX_OBJECT_WIDTH_MM = false /\
         gt h Editor.MAX_OBJECT_HEIGHT_MM = false) /\
  (forall r, Editor.objectRectMm (Upload.ticketCropMmForClient o) = Some r ->
     Upload.parseNullableNumber (Overrides.overrideWidthMm o)
     = Some (Rect.widthMm r) /\
     Upload.parseNullableNumber (Overrides.overrideHeightMm o)
     = Some (Rect.heightMm r) /\
     Rect.xMm r
     = match Upload.parseNullableNumber (Overrides.overrideXmm o) with
       | Some x => x
       | None => zero
       end /\
     Rect.yMm r
     = match Upload.parseNullableNumber (Overrides.overrideYmm o) with
       | Some y => y
       | None => zero
       end).
Proof.
  split.
  - unfold Editor.generateDisabledReason. cbv zeta.
    rewrite !client_get, crop_get_width, crop_get_height.
    unfold Upload.numberOrUndefined.
    destruct (Upload.parseNullableNumber (Overrides.overrideWidthMm o))
      as [w|] eqn:Ew.
    2:{ cbn. split; [discriminate|]. intros (w & h & H & _). discriminate H. }
    cbn [Editor.isPositiveNumber].
    rewrite (parseNullableNumber_finite _ _ Ew). cbn [andb].
    destruct (gt w zero) eqn:Gw; cbn [negb].
    2:{ split; [discriminate|]. intros (w' & h & H & _ & H' & _).
        inversion H. subst w'. rewrite Gw in H'. discriminate H'. }
    destruct (Upload.parseNullableNumber (Overrides.overrideHeightMm o))
      as [h|] eqn:Eh.
    2:{ cbn. split; [discriminate|]. intros (w' & h & _ & H & _).
        discriminate H. }
    cbn [Editor.isPositiveNumber].
    rewrite (parseNullableNumber_finite _ _ Eh). cbn [andb].
    destruct (gt h zero) eqn:Gh; cbn [negb].
    2:{ split; [discriminate|]. intros (w' & h' & _ & H & _ & H' & _).
        inversion H. subst h'. rewrite Gh in H'. discriminate H'. }
    cbn [ToNumber].
    destruct (gt w Editor.MAX_OBJECT_WIDTH_MM) eqn:Mw.
    { split; [discriminate|]. intros (w' & h' & H & _ & _ & _ & H' & _).
      inversion H. subst w'. rewrite Mw in H'. discriminate H'. }
    destruct (gt h Editor.MAX_OBJECT_HEIGHT_MM) eqn:Mh.
    { split; [discriminate|]. intros (w' & h' & _ & H & _ & _ & _ & H').
      inversion H. subst h'. rewrite Mh in H'. discriminate H'. }
    split; [|reflexivity]. intros _. exists w, h. repeat split; assumption.
  - intros r Hr.
    destruct (objectRectMm_Some _ _ Hr) as (Gw & Gh & _ & _ & Hx & Hy).
    rewrite client_get in Gw, Gh, Hx, Hy.
    rewrite crop_get_width in Gw. rewrite crop_get_height in Gh.
    rewrite crop_get_x in Hx. rewrite crop_get_y in Hy.
    unfold Upload.numberOrUndefined in *.
    destruct (Upload.parseNullableNumber (Overrides.overrideWidthMm o))
      as [w|]; [|discriminate Gw].
    destruct (Upload.parseNullableNumber (Overrides.overrideHeightMm o))
      as [h|]; [|discriminate Gh].
    inversion Gw. inversion Gh. split; [reflexivity|]. split; [reflexivity|].
    destruct (Upload.parseNullableNumber (Overrides.overrideXmm o))
      as [x|] eqn:Ex;
    destruct (Upload.parseNullableNumber (Overrides.overrideYmm o))
      as [y|] eqn:Ey;
    cbn [Editor.finiteOrZero] in Hx, Hy;
    rewrite ?(parseNullableNumber_finite _ _ Ex) in Hx;
    rewrite ?(parseNullableNumber_finite _ _ Ey) in Hy;
    split; assumption.
Qed.

End UploadCrop.

(** ** The scenarios, and the theorems at concrete inputs *)

Section Examples.

#[local] Existing Instance ExampleHost.host.

Local Open Scope float_scope.

Ltac agree_concrete :=
  intros n f Hin Hout; unfold Params.fields in Hin; simpl in Hin;
  repeat (destruct Hin as [Hin|Hin];
          [ inversion Hin; subst;
            first [ reflexivity | vm_compute in Hout; discriminate Hout ] | ]);
  contradiction.

Ltac nonempty := let E := fresh in intros E; discriminate E.

Example scenario_A :
  buildFinalRenderPayload (Params.ofObject Scenario.A)
  = Return Scenario.payloadA.
Proof. vm_compute. reflexivity. Qed.

Example scenario_B :
  buildFinalRenderPayload (Params.ofObject Scenario.B)
  = Throw "object_mm.w and object_mm.h are required and must be > 0".
Proof. vm_compute. reflexivity. Qed.

Example scenario_C :
  buildFinalRenderPayload (Params.ofObject Scenario.C)
  = Return Scenario.payloadC.
Proof. vm_compute. reflexivity. Qed.

Example scenario_D :
  buildFinalRenderPayload (Params.ofObject Scenario.D)
  = Return Scenario.payloadD.
Proof. vm_compute. reflexivity. Qed.

(** Malformed fonts and per-letter sizes are pruned. *)
Example fonts_and_sizes_pruned :
  exists pl s,
    buildFinalRenderPayload (Params.ofObject Scenario.fontsAndSizes)
    = Return pl /\
    FinalRenderPayload.custom_fonts pl
    = Some [ {| CustomFont.family := "Inter";
                CustomFont.data_url := "data:font/ttf;base64,AAEC";
                CustomFont.mime := "font/ttf" |} ] /\
    FinalRenderPayload.series pl = Some s /\
    Series.per_letter_font_size_mm s = Holds [4; 5].
Proof.
  eexists. eexists. split; [vm_compute; reflexivity|].
  repeat split; reflexivity.
Qed.

(** Missing identifiers are reported before anything else. *)
Example missing_job_id :
  buildFinalRenderPayload (Params.ofObject [("documentId", VString "d1")])
  = Throw "job_id is required"
  /\ buildFinalRenderPayload (Params.ofObject [("jobId", VString " j1 ")])
     = Throw "documentId is required".
Proof. split; vm_compute; reflexivity. Qed.

(** C1 at scenario C (also with every flat field invalid) and at
    scenario A. *)
Lemma series_shape_selection_witness :
  (exists pl,
     buildFinalRenderPayload (Params.ofObject Scenario.C) = Return pl /\
     FinalRenderPayload.series_list pl = Some [Scenario.seriesC] /\
     FinalRenderPayload.series pl = Some Scenario.seriesC) /\
  buildFinalRenderPayload (Params.ofObject Scenario.CwithInvalidFlatFields)
  = buildFinalRenderPayload (Params.ofObject Scenario.C) /\
  (exists pl,
     buildFinalRenderPayload (Params.ofObject Scenario.A) = Return pl /\
     FinalRenderPayload.series_list pl = None /\
     FinalRenderPayload.series pl = Some Scenario.seriesA).
Proof.
  destruct (series_shape_selection (Params.ofObject Scenario.C))
    as [Hlist _].
  destruct (Hlist Scenario.seriesC [] ltac:(vm_compute; reflexivity))
    as (Hshape & Hflat & Hret).
  destruct (series_shape_selection (Params.ofObject Scenario.A))
    as [_ Hsingle].
  destruct (Hsingle ltac:(left; vm_compute; reflexivity)) as [Hone _].
  split; [|split].
  - destruct (Hret ltac:(vm_compute; reflexivity)) as [pl Hb].
    exists pl. split; [exact Hb|]. exact (Hshape pl Hb).
  - apply Hflat. agree_concrete.
  - exists Scenario.payloadA.
    assert (Hb : buildFinalRenderPayload (Params.ofObject Scenario.A)
                 = Return Scenario.payloadA) by (vm_compute; reflexivity).
    split; [exact Hb|].
    destruct (Hone _ Hb) as (Hnone & _ & _).
    split; [exact Hnone | reflexivity].
Defined.

(** A cut margin of -1 raises no error: the builder returns the payload
    of scenario A, whose cut margin is 0. *)
Lemma negative_cut_margin_returns :
  is_finite (ToNumber (Params.objectCutMarginMm
                         (Params.ofObject Scenario.negativeMargin))) = true /\
  PrimFloat.ltb (ToNumber (Params.objectCutMarginMm
                             (Params.ofObject Scenario.negativeMargin)))
    zero = true /\
  buildFinalRenderPayload (Params.ofObject Scenario.negativeMargin)
  = Return Scenario.payloadA /\
  ObjectMm.cut_margin_mm (FinalRenderPayload.object_mm Scenario.payloadA)
  = zero.
Proof. repeat split; vm_compute; reflexivity. Qed.

Lemma negative_cut_margin_becomes_zero_witness :
  ObjectMm.cut_margin_mm (FinalRenderPayload.object_mm Scenario.payloadA)
  = zero /\
  buildFinalRenderPayload (Params.ofObject Scenario.zeroMargin)
  = buildFinalRenderPayload (Params.ofObject Scenario.negativeMargin).
Proof.
  destruct (negative_cut_margin_becomes_zero
              (Params.ofObject Scenario.negativeMargin)
              ltac:(vm_compute; reflexivity) ltac:(vm_compute; reflexivity))
    as [Hzero Hsame].
  split.
  - apply Hzero. vm_compute. reflexivity.
  - apply Hsame; [agree_concrete | reflexivity].
Defined.

(** An entry with an infinite count has count > 0 and meets every
    invariant as worded, yet the builder drops it. *)
Lemma infinite_count_entry_dropped :
  entryInvariantsAsStated (mapSeries Scenario.entryC) /\
  entryInvariantsAsStated (mapSeries Scenario.entryInfinite) /\
  ~ entryInvariantsAsStated (mapSeries Scenario.entryZero) /\
  exists pl l,
    buildFinalRenderPayload (Params.ofObject Scenario.validInfiniteZero)
    = Return pl /\
    FinalRenderPayload.series_list pl = Some l /\
    l = [Scenario.seriesC] /\
    In (mapSeries Scenario.entryC) l /\
    ~ In (mapSeries Scenario.entryInfinite) l.
Proof.
  split; [|split; [|split]].
  - unfold entryInvariantsAsStated; repeat split;
      try (vm_compute; reflexivity); vm_compute; nonempty.
  - unfold entryInvariantsAsStated; repeat split;
      try (vm_compute; reflexivity); vm_compute; nonempty.
  - intros (_ & Hcount & _). vm_compute in Hcount. discriminate Hcount.
  - eexists. eexists. split; [vm_compute; reflexivity|].
    split; [reflexivity|]. split; [reflexivity|]. split.
    + left. vm_compute. reflexivity.
    + intros [E|[]].
      apply (f_equal (fun s => is_finite (Series.count s))) in E.
      vm_compute in E. discriminate E.
Qed.

Lemma series_entries_pruned_witness :
  exists pl,
    buildFinalRenderPayload (Params.ofObject Scenario.validAndZero)
    = Return pl /\
    exists keep,
      (forall s, keep s = true <-> entryInvariants s) /\
      FinalRenderPayload.series_list pl
      = Some (filter keep
                (map mapSeries [Scenario.entryZero; Scenario.entryC])) /\
      FinalRenderPayload.series_list pl = Some [Scenario.seriesC].
Proof.
  assert (Hex : Exists entryInvariants
                  (map mapSeries [Scenario.entryZero; Scenario.entryC])).
  { apply Exists_cons_tl, Exists_cons_hd.
    unfold entryInvariants, entryInvariantsAsStated; repeat split;
      try (vm_compute; reflexivity); vm_compute; nonempty. }
  destruct (series_entries_pruned (Params.ofObject Scenario.validAndZero)
              [Scenario.entryZero; Scenario.entryC] eq_refl Hex)
    as (_ & Hret & Hlist).
  destruct (Hret ltac:(vm_compute; reflexivity)) as [pl Hb].
  exists pl. split; [exact Hb|].
  destruct (Hlist pl Hb) as (keep & Hkeep & Hl).
  exists keep. split; [exact Hkeep|]. split; [exact Hl|].
  revert Hb. vm_compute. intros Hb. inversion Hb. reflexivity.
Defined.

Lemma svg_key_derived_witness :
  exists pl,
    buildFinalRenderPayload (Params.ofObject Scenario.abc123) = Return pl /\
    FinalRenderPayload.svg_s3_key pl = "documents/raw/abc123.svg".
Proof.
  eexists. split; [vm_compute; reflexivity|].
  refine (proj2 (svg_key_derived (Params.ofObject Scenario.abc123) _ _)
            " abc123 " eq_refl).
  vm_compute. reflexivity.
Defined.

Lemma overlays_ordered_and_pruned_witness :
  exists keepR keepV,
    (forall o, keepR o = true <-> rasterSurvives o) /\
    (forall o, keepV o = true <-> vectorSurvives o) /\
    Scenario.overlaysD
    = (map Raster (filter keepR (map mapRaster [Scenario.rasterD]))
       ++ map Vector (filter keepV (map mapVector [Scenario.vectorD])))%list.
Proof.
  destruct (overlays_ordered_and_pruned (Params.ofObject Scenario.D))
    as [Hov _].
  exact (Hov Scenario.payloadD Scenario.overlaysD
           ltac:(vm_compute; reflexivity) eq_refl).
Defined.

Lemma step_present_iff_not_default_witness :
  (exists s,
     FinalRenderPayload.series Scenario.payloadA = Some s /\
     Series.step s = None) /\
  (exists pl s,
     buildFinalRenderPayload (Params.ofObject Scenario.stepTwo) = Return pl /\
     FinalRenderPayload.series pl = Some s /\ Series.step s = Some 2).
Proof.
  split.
  - destruct (step_present_iff_not_default (Params.ofObject Scenario.A)
                Scenario.payloadA ltac:(vm_compute; reflexivity))
      as [Hsingle _].
    destruct (Hsingle ltac:(vm_compute; reflexivity))
      as (s & Hs & _ & Hdefault & _).
    exists s. split; [exact Hs|]. apply Hdefault. right. reflexivity.
  - assert (Hb : exists pl,
               buildFinalRenderPayload (Params.ofObject Scenario.stepTwo)
               = Return pl) by (eexists; vm_compute; reflexivity).
    destruct Hb as [pl Hb]. exists pl.
    destruct (step_present_iff_not_default _ pl Hb) as [Hsingle _].
    destruct (Hsingle ltac:(vm_compute; reflexivity))
      as (s & Hs & _ & _ & Htwo).
    exists s. split; [exact Hb|]. split; [exact Hs|].
    apply Htwo. reflexivity.
Defined.

Lemma empty_collections_omitted_witness :
  FinalRenderPayload.custom_fonts Scenario.payloadA = None /\
  FinalRenderPayload.overlays Scenario.payloadA = None.
Proof.
  destruct (empty_collections_omitted (Params.ofObject Scenario.A)
              Scenario.payloadA ltac:(vm_compute; reflexivity))
    as (Hfonts & Hov & _ & _).
  split; [apply Hfonts | apply Hov]; vm_compute; reflexivity.
Defined.

Lemma null_coordinate_list_versus_single_witness :
  (Series.x_mm (mapSeries Scenario.entryNull) = zero /\
   Series.y_mm (mapSeries Scenario.entryNull) = zero) /\
  (exists pl l,
     buildFinalRenderPayload (Params.ofObject Scenario.listNull) = Return pl /\
     FinalRenderPayload.series_list pl = Some l /\
     In (mapSeries Scenario.entryNull) l) /\
  buildFinalRenderPayload (Params.ofObject Scenario.nullX)
  = Throw "series requires object_mm coordinates (missing seriesXMm/seriesYMm)".
Proof.
  destruct (null_coordinate_list_versus_single (host := ExampleHost.host)
              eq_refl)
    as (Hx & Hy & Hemit & Hsingle).
  split; [|split].
  - split.
    + apply Hx. left. reflexivity.
    + apply Hy. right. reflexivity.
  - assert (Hb : exists pl,
               buildFinalRenderPayload (Params.ofObject Scenario.listNull)
               = Return pl) by (eexists; vm_compute; reflexivity).
    destruct Hb as [pl Hb]. exists pl.
    destruct (Hemit (Params.ofObject Scenario.listNull)
                [Scenario.entryNull] Scenario.entryNull pl
                eq_refl ltac:(left; reflexivity) Hb) as (l & Hl & Hin).
    { left. split; [left; reflexivity|].
      unfold entryInvariantsWith; repeat split;
        try (vm_compute; reflexivity); vm_compute; nonempty. }
    exists l. repeat split; assumption.
  - apply (Hsingle (Params.ofObject Scenario.nullX)).
    + vm_compute. reflexivity.
    + left. left. reflexivity.
    + vm_compute. reflexivity.
Defined.

Lemma step_is_emitted_unchecked_witness :
  (exists pl e,
     buildFinalRenderPayload (Params.ofObject Scenario.listStep) = Return pl /\
     FinalRenderPayload.series_list pl = Some [e] /\
     Series.step e = Some 2.5) /\
  Series.step (mapSeries (VObject [("step", VNumber (-3))])) = Some (-3).
Proof.
  destruct (step_is_emitted_unchecked (Params.ofObject Scenario.listStep))
    as (_ & Hlist & _ & _ & Hex).
  split.
  - eexists. eexists. split; [vm_compute; reflexivity|].
    split; [reflexivity|].
    match goal with
    | |- Series.step ?e = _ =>
        destruct (Hlist _ [e] e ltac:(vm_compute; reflexivity) eq_refl
                    ltac:(left; reflexivity)) as (r & Hr & -> & Hstep)
    end.
    destruct Hr as [<-|[]].
    apply Hstep; vm_compute; reflexivity.
  - apply Hex. right. left. reflexivity.
Defined.

End Examples.

(** ** The further properties at concrete inputs *)

Section FurtherExamples.

#[local] Existing Instance ExampleHost.host.

Local Open Scope float_scope.

Ltac non_empty := let E := fresh in intros E; discriminate E.

(** The first variant on the scenarios: it accepts A, and rejects C,
    which has no flat series field. *)
Example legacy_scenarios :
  Legacy.buildFinalRenderPayload (Params.ofObject Scenario.A)
  = Return Scenario.payloadA /\
  Legacy.buildFinalRenderPayload (Params.ofObject Scenario.C)
  = Throw "series.start is required".
Proof. split; vm_compute; reflexivity. Qed.

Lemma builder_extends_legacy_witness :
  buildFinalRenderPayload (Params.ofObject Scenario.A)
  = Legacy.buildFinalRenderPayload (Params.ofObject Scenario.A) /\
  buildFinalRenderPayload (Params.ofObject Scenario.stepTwo)
  = mapReturn (withSeriesStep (Some 2))
      (Legacy.buildFinalRenderPayload (Params.ofObject Scenario.stepTwo)).
Proof.
  split.
  - apply (builder_extends_legacy (Params.ofObject Scenario.A));
      vm_compute; reflexivity.
  - exact (proj1 (builder_extends_legacy (Params.ofObject Scenario.stepTwo)
                    ltac:(vm_compute; reflexivity))).
Defined.

Lemma legacy_accepted_is_accepted_witness :
  exists pl,
    buildFinalRenderPayload (Params.ofObject Sample.flatAndList) = Return pl /\
    FinalRenderPayload.job_id pl = "j1" /\
    FinalRenderPayload.series_list pl = Some [Scenario.seriesC].
Proof.
  destruct (legacy_accepted_is_accepted (Params.ofObject Sample.flatAndList)
              Scenario.payloadA ltac:(vm_compute; reflexivity))
    as (pl & Hb & Hj & _).
  exists pl. split; [exact Hb|]. split; [exact Hj|].
  revert Hb. vm_compute. intros Hb. inversion Hb. reflexivity.
Defined.

Lemma returned_object_invariants_witness :
  objectInvariants (FinalRenderPayload.object_mm Scenario.payloadA).
Proof.
  exact (returned_object_invariants
           (Params.ofObject Scenario.negativeMargin) Scenario.payloadA
           ltac:(vm_compute; reflexivity)).
Defined.

Lemma returned_series_invariants_witness :
  exists s,
    FinalRenderPayload.series Scenario.payloadC = Some s /\
    entryInvariants s /\ Series.anchor_space s = "object_mm".
Proof.
  exact (proj1 (returned_series_invariants (Params.ofObject Scenario.C)
                  Scenario.payloadC ltac:(vm_compute; reflexivity))).
Defined.



Lemma per_letter_sizes_filtered_witness :
  exists pl s,
    buildFinalRenderPayload (Params.ofObject Scenario.fontsAndSizes)
    = Return pl /\
    FinalRenderPayload.series pl = Some s /\
    Series.per_letter_font_size_mm s = Holds [4; 5] /\
    Forall finitePositiveNumber [4; 5].
Proof.
  assert (Hb : exists pl,
             buildFinalRenderPayload (Params.ofObject Scenario.fontsAndSizes)
             = Return pl) by (eexists; vm_compute; reflexivity).
  destruct Hb as [pl Hb].
  destruct (per_letter_sizes_filtered _ _ Hb) as [Hsingle _].
  destruct (Hsingle ltac:(vm_compute; reflexivity)) as (s & Hs & Hm).
  exists pl, s. split; [exact Hb|]. split; [exact Hs|].
  assert (Hh : Series.per_letter_font_size_mm s = Holds [4; 5]).
  { revert Hb Hs. vm_compute. intros Hb Hs. inversion Hb; subst pl.
    inversion Hs. reflexivity. }
  split; [exact Hh|]. rewrite Hh in Hm. exact (proj1 (proj2 Hm)).
Defined.

Lemma apiUrl_one_slash_witness :
  Api.apiUrl "https://api.example.com/" (VString "/api/fonts")
  = Api.apiUrl "https://api.example.com" (VString "api/fonts") /\
  Api.apiUrl "https://api.example.com" (VString "api/fonts")
  = "https://api.example.com/api/fonts".
Proof.
  destruct (apiUrl_one_slash "https://api.example.com")
    as (Hbase & Hpath & _).
  destruct (Hpath "api/fonts" ltac:(non_empty) eq_refl) as [Hp Hq].
  split.
  - change "https://api.example.com/" with ("https://api.example.com" ++ "/").
    rewrite (Hbase (VString "/api/fonts") eq_refl). exact Hp.
  - exact Hq.
Defined.

Example merged_fonts_example :
  TicketEditor.mergedAvailableFonts ["Inter"; "Arial"]
    ["Arial"; "Times"; "Inter"; "Mono"]
  = ["Inter"; "Arial"; "Times"; "Mono"].
Proof. reflexivity. Qed.

Lemma parseSeriesPattern_decomposition_witness :
  ProxyEditor.parseSeriesPattern "AB 12 34  " = Some Sample.pattern /\
  exists k,
    "AB 12 34  "
    = "AB " ++ "12 34" ++ string_of_list_ascii (repeat " "%char k).
Proof.
  assert (Hp : ProxyEditor.parseSeriesPattern "AB 12 34  "
               = Some Sample.pattern) by (vm_compute; reflexivity).
  split; [exact Hp|].
  exact (proj1 (parseSeriesPattern_decomposition "AB 12 34  " _ Hp)).
Defined.

(** The two editors increment a text differently when the digits
    overflow: the proxy editor keeps the width, the ticket editor
    widens. *)
Example increment_overflow :
  ProxyEditor.incrementSeries "A99" 1 = "A00" /\
  TicketEditor.incrementSeries "A99" 1 = "A100" /\
  ProxyEditor.incrementSeries "A 0 9 " 1 = "A 1 0" /\
  TicketEditor.incrementSeries "A 0 9 " 1 = "A 0 9 " /\
  TicketEditor.calculateEndingSeries "A001" 20 = "A020" /\
  ProxyEditor.sanitizeSeriesInput "A 1 2  " = "A 12".
Proof. repeat split; vm_compute; reflexivity. Qed.

Lemma objectRect_passes_builder_check_witness :
  Editor.objectRectMm Sample.crop = Some Sample.rect /\
  objectSizeOk (Params.ofObject Sample.placed) = true /\
  exists pl,
    buildFinalRenderPayload (Params.ofObject Sample.placed) = Return pl /\
    ObjectMm.x_mm (FinalRenderPayload.object_mm pl) = Some 0 /\
    ObjectMm.y_mm (FinalRenderPayload.object_mm pl) = Some 7.
Proof.
  assert (Hr : Editor.objectRectMm Sample.crop = Some Sample.rect)
    by (vm_compute; reflexivity).
  destruct (objectRect_passes_builder_check Sample.crop Sample.rect
              (Params.ofObject Sample.placed) Hr eq_refl eq_refl eq_refl
              eq_refl) as (Hok & _ & Hpl).
  split; [exact Hr|]. split; [exact Hok|].
  assert (Hb : exists pl,
             buildFinalRenderPayload (Params.ofObject Sample.placed)
             = Return pl) by (eexists; vm_compute; reflexivity).
  destruct Hb as [pl Hb]. exists pl. split; [exact Hb|].
  destruct (Hpl pl Hb) as (_ & _ & Hx & Hy). split; assumption.
Defined.

Example generateDisabledReason_examples :
  Editor.generateDisabledReason Sample.crop = None /\
  Editor.generateDisabledReason VNull
  = Some "Missing object width (mm). Enter Width (mm) before generating." /\
  Editor.generateDisabledReason Sample.wideCrop
  = Some "Object width (250mm) exceeds max allowed (210mm). Reduce width before generating.".
Proof. repeat split; vm_compute; reflexivity. Qed.

Lemma deleteSlot_selection_valid_witness :
  Editor.handleDeleteSeriesSlot string (fun s => s) (Some "b")
    ["a"; "b"; "c"] (Some "b")
  = (["a"; "c"], Some "a") /\
  Editor.selectionValid string (fun s => s) ["a"; "c"] (Some "a").
Proof.
  assert (Hd : Editor.handleDeleteSeriesSlot string (fun s => s) (Some "b")
                 ["a"; "b"; "c"] (Some "b")
               = (["a"; "c"], Some "a")) by reflexivity.
  split; [exact Hd|].
  destruct (deleteSlot_selection_valid string (fun s => s) (Some "b")
              ["a"; "b"; "c"] (Some "b") ["a"; "c"] (Some "a") "b"
              ltac:(non_empty) eq_refl ltac:(non_empty) Hd)
    as (_ & _ & Hv & _).
  exact Hv.
Defined.

Lemma clamp_within_bounds_witness :
  ProxyCanvas.clamp 700 (-20) 615 = 615%float /\
  PrimFloat.leb (-20) (ProxyCanvas.clamp 700 (-20) 615) = true /\
  PrimFloat.leb (ProxyCanvas.clamp 700 (-20) 615) 615 = true /\
  PrimFloat.eqb (ProxyCanvas.clamp 100 (-20) 615) 100 = true.
Proof.
  destruct (clamp_within_bounds 700 (-20) 615 eq_refl eq_refl)
    as (Hlo & Hhi & _).
  destruct (clamp_within_bounds 100 (-20) 615 eq_refl eq_refl)
    as (_ & _ & _ & Hid).
  split; [vm_compute; reflexivity|]. split; [exact Hlo|].
  split; [exact Hhi|]. exact (Hid eq_refl eq_refl).
Defined.

Lemma clamp01_unit_interval_witness :
  PrimFloat.leb zero (ProxyCanvas.clamp01 0.25) = true /\
  PrimFloat.leb (ProxyCanvas.clamp01 0.25) one = true /\
  PrimFloat.eqb (ProxyCanvas.clamp01 0.25) 0.25 = true /\
  ProxyCanvas.clamp01 (-3) = zero /\
  ProxyCanvas.clamp01 3 = one.
Proof.
  destruct (clamp01_unit_interval 0.25 eq_refl) as (H0 & H1 & Hid & _).
  destruct (clamp01_unit_interval (-3) eq_refl) as (_ & _ & _ & Hneg & _).
  destruct (clamp01_unit_interval 3 eq_refl) as (_ & _ & _ & _ & Hbig).
  split; [exact H0|]. split; [exact H1|].
  split; [exact (Hid eq_refl eq_refl)|].
  split; [exact (Hneg eq_refl)|exact (Hbig eq_refl)].
Defined.

Lemma clampTicketRegion_within_page_witness :
  TicketRegion.anyNaN Sample.region = false /\
  ProxyCanvas.clampTicketRegion Sample.region = Sample.clampedRegion /\
  PrimFloat.leb ProxyCanvas.minW
    (TicketRegion.width (ProxyCanvas.clampTicketRegion Sample.region)) = true /\
  PrimFloat.leb
    (TicketRegion.x (ProxyCanvas.clampTicketRegion Sample.region))
    (PrimFloat.sub one
       (TicketRegion.width (ProxyCanvas.clampTicketRegion Sample.region)))
  = true.
Proof.
  destruct (clampTicketRegion_within_page Sample.region eq_refl)
    as (Hw & _ & _ & _ & _ & Hx & _).
  split; [reflexivity|]. split; [vm_compute; reflexivity|].
  split; [exact Hw|exact Hx].
Defined.

Lemma nan_region_is_never_valid_witness :
  TicketRegion.anyNaN Sample.brokenRegion = true /\
  ProxyCanvas.hasValidTicketRegion
    (Some (ProxyCanvas.clampTicketRegion Sample.brokenRegion)) = false /\
  ProxyCanvas.hasValidTicketRegion
    (Some (ProxyCanvas.clampTicketRegion Sample.region)) = true.
Proof.
  split; [reflexivity|].
  split; [exact (proj2 (nan_region_is_never_valid Sample.brokenRegion
                         eq_refl))|].
  vm_compute. reflexivity.
Defined.

(** The form with a width of 100, a height of 50 between blanks, a y
    that is not a number and the proportions kept. *)
Example upload_crop_example :
  Upload.ticketCropMm (host := ExampleHost.host) Sample.form
  = [ ("widthMm", VNumber 100); ("heightMm", VNumber 50);
      ("keepProportions", VBool true) ] /\
  Editor.generateDisabledReason (host := ExampleHost.host)
    (Upload.ticketCropMmForClient (host := ExampleHost.host) Sample.form)
  = None /\
  Upload.ticketCropMmForClient (host := ExampleHost.host) Sample.blankForm
  = VNull /\
  Upload.toggleSelectedUser "u2" ["u1"; "u2"; "u3"] = ["u1"; "u3"] /\
  Upload.toggleSelectedUser "u2" ["u1"; "u3"] = ["u1"; "u3"; "u2"].
Proof. repeat split; vm_compute; reflexivity. Qed.

End FurtherExamples.
